(** * EJS (lext-7 fork): a shallow embedding of [lib/ejs.js]

    The development follows the source file top to bottom: the module
    constants, include-path resolution, the line-mapped error reporter
    [rethrow], option copying, [compile]/[render], the [Template] object with
    its regular-expression driven [generateSource], and the include
    machinery with its path stack.

    Conventions.
    - Text is [string]; a character is one 8-bit code unit.  On that range
      the class [\s] of the host's regular expressions is
      {9, 10, 11, 12, 13, 32, 160} and [.] excludes 10 and 13.
    - A JavaScript object used as a record or dictionary is a
      [gmap string val]; a missing property reads as [VUndef].
    - Code that can throw returns a [result]; code that also mutates the
      template object or the process-wide cache runs in the monad [M]. *)

From Stdlib Require Import ZArith Ascii String.
From stdpp Require Import base option list gmap strings pretty.

Set Warnings "-register-all".

Local Open Scope string_scope.
Local Open Scope Z_scope.

(** ** Characters and text *)

Module Text.

Definition LF : ascii := ascii_of_nat 10.
Definition CR : ascii := ascii_of_nat 13.
Definition DQ : ascii := ascii_of_nat 34.
Definition SQ : ascii := ascii_of_nat 39.
Definition BS : ascii := ascii_of_nat 92.

Definition nl : string := String LF "".
Definition dq : string := String DQ "".

(** [sep.join(l)] *)
Fixpoint join (sep : string) (l : list string) : string :=
  match l with
  | [] => ""
  | [x] => x
  | x :: xs => x +:+ sep +:+ join sep xs
  end.

(** [s.split(c)] for a one-character separator. *)
Fixpoint split_on (c : ascii) (s : string) : list string :=
  match s with
  | "" => [""]
  | String a s' =>
      if Ascii.eqb a c then "" :: split_on c s'
      else match split_on c s' with
           | x :: xs => String a x :: xs
           | [] => [String a ""]
           end
  end.

(** [Array.prototype.slice(start, end)]: a negative index counts from the
    end, and both are clamped to the array. *)
Definition rel_index (len i : Z) : Z :=
  if i <? 0 then Z.max (len + i) 0 else Z.min i len.

Definition slice {A} (l : list A) (start end_ : Z) : list A :=
  let len := Z.of_nat (length l) in
  let k := rel_index len start in
  let f := rel_index len end_ in
  take (Z.to_nat (f - k)) (drop (Z.to_nat k) l).

Fixpoint starts_with (p s : string) : bool :=
  match p, s with
  | "", _ => true
  | String a p', String b s' => Ascii.eqb a b && starts_with p' s'
  | _, _ => false
  end.

(** [s.indexOf(p) !== -1] *)
Fixpoint contains (p s : string) : bool :=
  starts_with p s ||
  match s with
  | "" => false
  | String _ s' => contains p s'
  end.

Fixpoint drop_str (n : nat) (s : string) : string :=
  match n, s with
  | O, _ => s
  | S n', String _ s' => drop_str n' s'
  | S _, "" => ""
  end.

Fixpoint take_str (n : nat) (s : string) : string :=
  match n, s with
  | O, _ => ""
  | S n', String a s' => String a (take_str n' s')
  | S _, "" => ""
  end.

Fixpoint rev_str_onto (s acc : string) : string :=
  match s with
  | "" => acc
  | String a s' => rev_str_onto s' (String a acc)
  end.

Definition rev_str (s : string) : string := rev_str_onto s "".

(** The longest prefix of [s] with no character in the class [p], and [s]
    without its longest prefix in the class [p]. *)
Fixpoint take_until (p : ascii -> bool) (s : string) : string :=
  match s with
  | String a s' => if p a then "" else String a (take_until p s')
  | "" => ""
  end.

Fixpoint drop_while (p : ascii -> bool) (s : string) : string :=
  match s with
  | String a s' => if p a then drop_while p s' else s
  | "" => ""
  end.

End Text.
Import Text.

(** ** JavaScript values *)

(** Function values.  [FnSource params body] is the result of
    [new Function(params, body)]; [FnTemplate l] is the closure returned by
    [Template.prototype.compile] for the template object stored at [l];
    [FnHost name] is a function supplied by the host or by [utils]. *)
Inductive jsfunc :=
  | FnSource (params body : string)
  | FnTemplate (l : nat)
  | FnHost (name : string).

Inductive val :=
  | VUndef
  | VNull
  | VBool (b : bool)
  | VNum (n : Z)
  | VStr (s : string)
  | VFun (f : jsfunc)
  | VArr (l : list val)
  | VObj (o : gmap string val).

(** An object read: a missing property is [undefined]. *)
Definition get (o : gmap string val) (p : string) : val :=
  default VUndef (o !! p).

(** ToBoolean *)
Definition truthy (v : val) : bool :=
  match v with
  | VUndef | VNull => false
  | VBool b => b
  | VNum n => negb (n =? 0)
  | VStr s => negb (String.eqb s "")
  | VFun _ | VArr _ | VObj _ => true
  end.

(** [a || b] *)
Definition or_else (a b : val) : val := if truthy a then a else b.

(** What the program throws: an [Error] object (its name, its message and
    the [path] field the reporter attaches), or any other value. *)
Record error_obj := mkError {
  err_name : string;
  err_message : string;
  err_path : val
}.

Inductive exn :=
  | ExnError (e : error_obj)
  | ExnValue (v : val).

Inductive result (A : Type) :=
  | Ok (a : A)
  | Throw (e : exn).
Arguments Ok {A} a.
Arguments Throw {A} e.

Definition newError (msg : string) : exn := ExnError (mkError "Error" msg VUndef).
Definition newTypeError (msg : string) : exn := ExnError (mkError "TypeError" msg VUndef).

(** [Function.prototype.toString].  A function made by [new Function]
    prints as the host prints it; the closure returned by [compile] prints as
    its source text (lines 418-429 of the module). *)
Definition returnedFn_text : string :=
  "function (data) {" +:+ nl +:+
  "        var include = function (path, includeData) {" +:+ nl +:+
  "          var d = utils.shallowCopy({}, data);" +:+ nl +:+
  "          if (includeData) {" +:+ nl +:+
  "            d = utils.shallowCopy(d, includeData);" +:+ nl +:+
  "          }" +:+ nl +:+
  "          var compiled = context.includeFile(path)(d, escape, include, rethrow);" +:+ nl +:+
  "          context.pathStack.pop();" +:+ nl +:+
  "          return compiled;" +:+ nl +:+
  "        };" +:+ nl +:+
  "        return renderFn.apply(opts.context, [data || {}, escape, include, rethrow]);" +:+ nl +:+
  "      }".

Definition fn_toString (f : jsfunc) : string :=
  match f with
  | FnSource params body =>
      "function anonymous(" +:+ params +:+ nl +:+ ") {" +:+ nl +:+ body +:+ nl +:+ "}"
  | FnTemplate _ => returnedFn_text
  | FnHost name => "function " +:+ name +:+ "() { [native code] }"
  end.

(** ToString, as string concatenation applies it. *)
Fixpoint to_string (v : val) : string :=
  match v with
  | VUndef => "undefined"
  | VNull => "null"
  | VBool b => if b then "true" else "false"
  | VNum n => pretty n
  | VStr s => s
  | VFun f => fn_toString f
  | VArr l =>
      join "," (List.map (fun x => match x with
                                   | VUndef | VNull => ""
                                   | _ => to_string x
                                   end) l)
  | VObj _ => "[object Object]"
  end.

(** ** Module constants (lines 53-62) *)

Definition _DEFAULT_DELIMITER : string := "%".
Definition _DEFAULT_LOCALS_NAME : string := "locals".
Definition _OPTS : list string :=
  [ "cache"; "filename"; "delimiter"; "scope"; "context";
    "debug"; "compileDebug"; "client"; "_with"; "root"; "rmWhitespace";
    "strict"; "localsName"; "usePages"; "pages" ].

(** ** The line-mapped error reporter (lines 143-164) *)

(** The lines of the context window, before they are joined. *)
Definition context_lines (str : string) (lineno : Z) : list string :=
  let lines := split_on LF str in
  let start := Z.max (lineno - 3) 0 in
  let end_ := Z.min (Z.of_nat (length lines)) (lineno + 3) in
  imap (fun i line =>
          let curr := Z.of_nat i + start + 1 in
          (if curr =? lineno then " >> " else "    ") +:+
          pretty curr +:+ "| " +:+ line)
       (slice lines start end_).

Definition rethrow_message (msg : string) (str : string) (filename : val) (lineno : Z) : string :=
  to_string (or_else filename (VStr "ejs")) +:+ ":" +:+
  pretty lineno +:+ nl +:+
  join nl (context_lines str lineno) +:+ nl +:+ nl +:+
  msg.

(** [typeof v], for the primitive values. *)
Definition typeof_primitive (v : val) : string :=
  match v with
  | VBool _ => "boolean"
  | VNum _ => "number"
  | _ => "string"
  end.

(** [rethrow] has no normal exit.  The module is in strict mode, so the
    property write [err.path = filename] on a primitive, or on
    [undefined]/[null], is itself a [TypeError]. *)
Definition rethrow {A} (err : exn) (str : string) (filename : val) (lineno : Z) : result A :=
  match err with
  | ExnError e =>
      Throw (ExnError {| err_name := err_name e;
                         err_message := rethrow_message (err_message e) str filename lineno;
                         err_path := filename |})
  | ExnValue (VObj o) =>
      Throw (ExnValue (VObj
        (<["message" := VStr (rethrow_message (to_string (get o "message")) str filename lineno)]>
           (<["path" := filename]> o))))
  | ExnValue (VFun f) => Throw (ExnValue (VFun f))
  | ExnValue (VArr l) => Throw (ExnValue (VArr l))
  | ExnValue VUndef => Throw (newTypeError "Cannot set properties of undefined (setting 'path')")
  | ExnValue VNull => Throw (newTypeError "Cannot set properties of null (setting 'path')")
  | ExnValue v =>
      Throw (newTypeError ("Cannot create property 'path' on " +:+ typeof_primitive v +:+
                           " '" +:+ to_string v +:+ "'"))
  end.

(** The reading of the reporter's window in the specification: three lines
    before and three lines after the failing line, clamped to the text.
    Line numbers are 1-based. *)
Definition spec_window_first (lineno : Z) : Z := Z.max (lineno - 3) 1.
Definition spec_window_last (nlines lineno : Z) : Z := Z.min (lineno + 3) nlines.

(** The 1-based numbers of the lines [rethrow] actually shows. *)
Definition window_first (lineno : Z) : Z := Z.max (lineno - 3) 0 + 1.
Definition window_last (nlines lineno : Z) : Z := Z.min nlines (lineno + 3).

(** The window as the specification words it, rendered like the code
    renders its own. *)
Definition spec_context_lines (str : string) (lineno : Z) : list string :=
  let lines := split_on LF str in
  let first := spec_window_first lineno in
  let last := spec_window_last (Z.of_nat (length lines)) lineno in
  imap (fun i line =>
          let curr := Z.of_nat i + first in
          (if curr =? lineno then " >> " else "    ") +:+
          pretty curr +:+ "| " +:+ line)
       (slice lines (first - 1) last).

Definition ten_lines : string :=
  join nl ["l1"; "l2"; "l3"; "l4"; "l5"; "l6"; "l7"; "l8"; "l9"; "l10"].

(** ** The host's regular expressions

    A backtracking matcher for the fragment of the host's regular
    expressions that the module uses: literals, classes, sequence,
    alternation (left first), greedy and lazy stars (an iteration that
    consumes nothing is rejected), capture groups, negative lookahead and
    the anchors.  The matcher is in continuation-passing style: the
    continuation is the rest of the pattern, and [None] makes the matcher
    backtrack. *)

Module Regex.

Inductive regex :=
  | Eps
  | Chr (p : ascii -> bool)
  | Seq (r1 r2 : regex)
  | Alt (r1 r2 : regex)
  | Star (greedy : bool) (r : regex)
  | Group (i : nat) (r : regex)
  | NegLook (r : regex)
  | Bol (multiline : bool)
  | Eol (multiline : bool).

(** The captures made so far, most recent first. *)
Definition caps := list (nat * string).

Fixpoint cap (c : caps) (i : nat) : option string :=
  match c with
  | [] => None
  | (j, s) :: c' => if Nat.eqb i j then Some s else cap c' i
  end.

(** A capture group that did not take part in the match is [undefined];
    string operations on it are modelled on the empty string. *)
Definition capd (c : caps) (i : nat) : string := default "" (cap c i).

Fixpoint str (s : string) : regex :=
  match s with
  | "" => Eps
  | String a s' => Seq (Chr (Ascii.eqb a)) (str s')
  end.

Definition one_of (s : string) : regex :=
  Chr (fun a => contains (String a "") s).

Definition opt (r : regex) : regex := Alt r Eps.

Fixpoint seq (l : list regex) : regex :=
  match l with
  | [] => Eps
  | [r] => r
  | r :: l' => Seq r (seq l')
  end.

Definition is_line_terminator (a : ascii) : bool :=
  Ascii.eqb a LF || Ascii.eqb a CR.

(** The class [\s] on 8-bit code units. *)
Definition is_space (a : ascii) : bool :=
  let n := nat_of_ascii a in
  ((9 <=? n) && (n <=? 13) || (n =? 32) || (n =? 160))%nat.

Definition ws : regex := Chr is_space.
Definition dot : regex := Chr (fun a => negb (is_line_terminator a)).

(** The text between the position [s] and the later position [s']. *)
Definition consumed (s s' : string) : string :=
  take_str (String.length s - String.length s') s.

Definition at_bol (multiline : bool) (prev : option ascii) : bool :=
  match prev with
  | None => true
  | Some a => multiline && is_line_terminator a
  end.

Definition at_eol (multiline : bool) (s : string) : bool :=
  match s with
  | "" => true
  | String a _ => multiline && is_line_terminator a
  end.

(** The iterations of a star.  [step] matches the body once; an iteration
    must consume input; a greedy star tries one more iteration before the
    rest of the pattern [k], a lazy star after it. *)
Fixpoint star_loop {R : Type}
    (step : option ascii -> string -> caps ->
            (option ascii -> string -> caps -> option R) -> option R)
    (greedy : bool) (k : option ascii -> string -> caps -> option R)
    (fuel : nat) (prev : option ascii) (s : string) (c : caps) : option R :=
  match fuel with
  | O => k prev s c
  | S fuel' =>
      let iter (_ : unit) :=
        step prev s c (fun prev' s' c' =>
          if (String.length s' <? String.length s)%nat
          then star_loop step greedy k fuel' prev' s' c' else None) in
      if greedy then
        match iter () with
        | Some x => Some x
        | None => k prev s c
        end
      else
        match k prev s c with
        | Some x => Some x
        | None => iter ()
        end
  end.

(** [m R r prev s c k]: match [r] at the position whose remaining input is
    [s] and whose previous character is [prev]. *)
Fixpoint m (R : Type) (r : regex) (prev : option ascii) (s : string) (c : caps)
    (k : option ascii -> string -> caps -> option R) {struct r} : option R :=
  match r with
  | Eps => k prev s c
  | Chr p =>
      match s with
      | String a s' => if p a then k (Some a) s' c else None
      | "" => None
      end
  | Seq r1 r2 => m R r1 prev s c (fun prev' s' c' => m R r2 prev' s' c' k)
  | Alt r1 r2 =>
      match m R r1 prev s c k with
      | Some x => Some x
      | None => m R r2 prev s c k
      end
  | Star greedy r1 =>
      star_loop (m R r1) greedy k (S (String.length s)) prev s c
  | Group i r1 =>
      m R r1 prev s c (fun prev' s' c' => k prev' s' ((i, consumed s s') :: c'))
  | NegLook r1 =>
      match m unit r1 prev s c (fun _ _ _ => Some ()) with
      | Some _ => None
      | None => k prev s c
      end
  | Bol ml => if at_bol ml prev then k prev s c else None
  | Eol ml => if at_eol ml s then k prev s c else None
  end.

(** One successful match: the matched text, the captures, the previous
    character at its end, and the input that remains. *)
Record found := mkFound {
  f_match : string;
  f_caps : caps;
  f_prev : option ascii;
  f_rest : string
}.

(** Match at this position only. *)
Definition exec_at (r : regex) (prev : option ascii) (s : string) : option found :=
  m found r prev s [] (fun prev' s' c => Some (mkFound (consumed s s') c prev' s')).

(** Leftmost match at or after this position; also returns the text that
    was skipped before it. *)
Fixpoint search (r : regex) (prev : option ascii) (s : string) : option (string * found) :=
  match exec_at r prev s with
  | Some f => Some ("", f)
  | None =>
      match s with
      | "" => None
      | String a s' =>
          match search r (Some a) s' with
          | Some (skipped, f) => Some (String a skipped, f)
          | None => None
          end
      end
  end.

(** [r.test(s)] *)
Definition test (r : regex) (s : string) : bool :=
  match search r None s with Some _ => true | None => false end.

(** The pieces of [s] under a global regular expression: the matches, in
    order, and the text between them.  After an empty match the scan moves
    one character on. *)
Inductive piece :=
  | Lit (s : string)
  | Hit (f : found).

Fixpoint scan (fuel : nat) (r : regex) (prev : option ascii) (s : string) : list piece :=
  match fuel with
  | O => [Lit s]
  | S fuel' =>
      match search r prev s with
      | None => [Lit s]
      | Some (skipped, f) =>
          match f_match f, f_rest f with
          | "", String a rest => Lit skipped :: Hit f :: Lit (String a "") :: scan fuel' r (Some a) rest
          | "", "" => [Lit skipped; Hit f]
          | _, rest => Lit skipped :: Hit f :: scan fuel' r (f_prev f) rest
          end
      end
  end.

Definition pieces (r : regex) (s : string) : list piece :=
  scan (S (String.length s)) r None s.

(** [s.match(r)] with a global [r]: only the number of matches is used. *)
Definition is_hit (p : piece) : bool :=
  match p with Hit _ => true | Lit _ => false end.

Definition count (r : regex) (s : string) : nat :=
  length (List.filter is_hit (pieces r s)).

(** [s.replace(r, f)] with a global [r] and a replacer function. *)
Definition replace_all (r : regex) (f : found -> string) (s : string) : string :=
  String.concat "" (List.map (fun p => match p with Lit t => t | Hit x => f x end) (pieces r s)).

(** [s.replace(r, f)] with a non-global [r]: the first match only. *)
Definition replace_first (r : regex) (f : string -> found -> string -> string) (s : string) : string :=
  match search r None s with
  | None => s
  | Some (skipped, x) => skipped +:+ f skipped x (f_rest x) +:+ f_rest x
  end.

(** A replacement given as a string: [$$], [$&], [$`], [$'] and [$1]-[$9]
    (when that group exists in the pattern) are expanded. *)
Fixpoint expand (ngroups : nat) (repl : string) (before : string) (x : found) (after : string) : string :=
  match repl with
  | "" => ""
  | String a repl' =>
      if Ascii.eqb a "$" then
        match repl' with
        | String b repl'' =>
            if Ascii.eqb b "$" then "$" +:+ expand ngroups repl'' before x after
            else if Ascii.eqb b "&" then f_match x +:+ expand ngroups repl'' before x after
            else if Ascii.eqb b "`" then before +:+ expand ngroups repl'' before x after
            else if Ascii.eqb b SQ then after +:+ expand ngroups repl'' before x after
            else
              let d := (nat_of_ascii b - 48)%nat in
              if ((49 <=? nat_of_ascii b) && (nat_of_ascii b <=? 57) && (d <=? ngroups))%nat
              then capd (f_caps x) d +:+ expand ngroups repl'' before x after
              else String a (expand ngroups repl' before x after)
        | "" => "$"
        end
      else String a (expand ngroups repl' before x after)
  end.

End Regex.

(** ** The host's path functions (posix), as far as the module uses them *)

Module Path.

Definition SLASH : ascii := "/"%char.
Definition DOT : ascii := "."%char.

(** [s.charAt(i)] *)
Definition char_at (s : string) (i : nat) : option ascii := String.get i s.

Definition is_char (c : ascii) (o : option ascii) : bool :=
  match o with Some a => Ascii.eqb a c | None => false end.

(** The segments of a path. *)
Definition segments (p : string) : list string := split_on SLASH p.

(** [normalizeString]: empty segments and [.] are dropped, [..] removes the
    segment before it; above the start it is kept only when
    [allowAboveRoot]. *)
Fixpoint normalize_segments (allowAboveRoot : bool) (todo : list string) (acc : list string) : list string :=
  match todo with
  | [] => rev acc
  | seg :: todo' =>
      if String.eqb seg "" || String.eqb seg "." then normalize_segments allowAboveRoot todo' acc
      else if String.eqb seg ".." then
        match acc with
        | last :: acc' =>
            if String.eqb last ".." then normalize_segments allowAboveRoot todo' (".." :: acc)
            else normalize_segments allowAboveRoot todo' acc'
        | [] =>
            if allowAboveRoot then normalize_segments allowAboveRoot todo' [".."]
            else normalize_segments allowAboveRoot todo' []
        end
      else normalize_segments allowAboveRoot todo' (seg :: acc)
  end.

Definition normalizeString (p : string) (allowAboveRoot : bool) : string :=
  join "/" (normalize_segments allowAboveRoot (segments p) []).

(** [path.resolve(...args)]: the arguments are read from the last to the
    first until an absolute one is met; the working directory [cwd] comes
    after the first argument. *)
Fixpoint resolve_join (args_rev : list string) (resolvedPath : string) : string * bool :=
  match args_rev with
  | [] => (resolvedPath, false)
  | p :: rest =>
      if String.eqb p "" then resolve_join rest resolvedPath
      else
        let resolvedPath' := p +:+ "/" +:+ resolvedPath in
        if starts_with "/" p then (resolvedPath', true)
        else resolve_join rest resolvedPath'
  end.

Definition resolve (cwd : string) (args : list string) : string :=
  let '(resolvedPath, resolvedAbsolute) := resolve_join (rev (cwd :: args)) "" in
  let normalized := normalizeString resolvedPath (negb resolvedAbsolute) in
  if resolvedAbsolute then "/" +:+ normalized
  else if String.eqb normalized "" then "." else normalized.

(** [path.dirname] *)
Fixpoint dirname_scan (p : string) (i : nat) (matchedSlash : bool) : option nat :=
  match i with
  | O => None
  | S i' =>
      if is_char SLASH (char_at p i) then
        if matchedSlash then dirname_scan p i' true else Some i
      else dirname_scan p i' false
  end.

Definition dirname (p : string) : string :=
  if String.eqb p "" then "." else
  let hasRoot := is_char SLASH (char_at p 0) in
  match dirname_scan p (String.length p - 1) true with
  | None => if hasRoot then "/" else "."
  | Some e => if hasRoot && (e =? 1)%nat then "//" else take_str e p
  end.

(** [path.extname], as the host computes it: a loop over the indices of
    the path, from the last to the first. *)
Record ext_state := mkExt {
  startDot : option nat;
  startPart : nat;
  end_ : option nat;
  matchedSlash : bool;
  preDotState : Z
}.

Fixpoint extname_scan (p : string) (n : nat) (st : ext_state) : ext_state :=
  match n with
  | O => st
  | S i =>
      if is_char SLASH (char_at p i) then
        if negb (matchedSlash st)
        then mkExt (startDot st) (S i) (end_ st) (matchedSlash st) (preDotState st)
        else extname_scan p i st
      else
        let st1 :=
          match end_ st with
          | None => mkExt (startDot st) (startPart st) (Some (S i)) false (preDotState st)
          | Some _ => st
          end in
        let st2 :=
          if is_char DOT (char_at p i) then
            match startDot st1 with
            | None => mkExt (Some i) (startPart st1) (end_ st1) (matchedSlash st1) (preDotState st1)
            | Some _ => mkExt (startDot st1) (startPart st1) (end_ st1) (matchedSlash st1) 1
            end
          else
            match startDot st1 with
            | Some _ => mkExt (startDot st1) (startPart st1) (end_ st1) (matchedSlash st1) (-1)
            | None => st1
            end in
        extname_scan p i st2
  end.

Definition extname_loop (p : string) : string :=
  let st := extname_scan p (String.length p) (mkExt None 0 None true 0) in
  match startDot st, end_ st with
  | Some sd, Some e =>
      if (preDotState st =? 0) ||
         ((preDotState st =? 1) && (sd =? e - 1)%nat && (sd =? startPart st + 1)%nat)
      then ""
      else take_str (e - sd) (drop_str sd p)
  | _, _ => ""
  end.

(** [path.extname], by what the loop reads.  The path is read from its
    end: the trailing slashes are passed over, the last component runs up to
    the next slash, and its extension starts at its last dot, unless that
    dot is the first character of the component or the component is [..].
    The two definitions agree on every path that was tried (see
    [extname_loop_agrees]). *)
Definition is_slash (a : ascii) : bool := Ascii.eqb a SLASH.
Definition is_dot (a : ascii) : bool := Ascii.eqb a DOT.

(** The last component of the path, reversed. *)
Definition last_component_rev (p : string) : string :=
  take_until is_slash (drop_while is_slash (rev_str p)).

(** The extension of a component that is given reversed. *)
Definition extension_rev (b : string) : string :=
  let after := take_until is_dot b in
  match drop_while (fun a => negb (is_dot a)) b with
  | "" => ""
  | String _ before =>
      if String.eqb before "" then ""
      else if String.eqb before "." && String.eqb after "" then ""
      else rev_str (after +:+ ".")
  end.

Definition extname (p : string) : string := extension_rev (last_component_rev p).

(** All the strings over an alphabet, up to a length: the paths on which
    the two definitions of [extname] are compared. *)
Fixpoint all_strings (alphabet : list ascii) (n : nat) : list string :=
  match n with
  | O => [""]
  | S n' =>
      let shorter := all_strings alphabet n' in
      shorter ++
      flat_map (fun s => List.map (fun a => String a s) alphabet)
               (List.filter (fun s => (String.length s =? n')%nat) shorter)
  end.

End Path.

(** ** Include-path resolution (lines 98-128) *)

(** The path functions accept strings only. *)
Definition validateString (v : val) : result string :=
  match v with
  | VStr s => Ok s
  | _ => Throw (newTypeError "The path argument must be of type string")
  end.

Definition bind_result {A B} (r : result A) (f : A -> result B) : result B :=
  match r with
  | Ok a => f a
  | Throw e => Throw e
  end.

(** [exports.resolveInclude(name, filename, isDir)]; [cwd] is the
    process's working directory, which [path.resolve] falls back on. *)
Definition resolveInclude (cwd : string) (name filename : val) (isDir : bool) : result string :=
  bind_result (if isDir then Ok filename
               else bind_result (validateString filename) (fun f => Ok (VStr (Path.dirname f))))
    (fun dir =>
  bind_result (validateString name) (fun name =>
  bind_result (if Text.starts_with "/" name then Ok "" else validateString dir) (fun dir =>
    let includePath := Path.resolve cwd [dir; name] in
    let ext := Path.extname name in
    Ok (if String.eqb ext "" then includePath +:+ ".ejs" else includePath)))).

(** [/^\/*/] *)
Definition leading_slashes : Regex.regex :=
  Regex.Seq (Regex.Bol false) (Regex.Star true (Regex.Chr (Ascii.eqb "/"))).

(** [getIncludePath(path, filename, root)] *)
Definition getIncludePath (cwd : string) (path filename root : val) : result string :=
  match path with
  | VStr p =>
      if Path.is_char "/" (Path.char_at p 0) then
        resolveInclude cwd (VStr (Regex.replace_first leading_slashes (fun _ _ _ => "") p))
                       (or_else root (VStr "/")) true
      else
        if negb (truthy filename) then
          Throw (newError "`include` use relative path requires the 'filename' option.")
        else resolveInclude cwd path filename false
  | VUndef => Throw (newTypeError "Cannot read properties of undefined (reading 'charAt')")
  | VNull => Throw (newTypeError "Cannot read properties of null (reading 'charAt')")
  | _ => Throw (newTypeError "path.charAt is not a function")
  end.

(** ** Results of effectful code *)

(** Where the model stops short of the program: the recursion of nested
    includes is cut by a fuel, and the host evaluates program text that the
    model of the program loader does not read. *)
Inductive limit := OutOfFuel | Unmodelled.

Inductive outcome (A : Type) :=
  | Done (a : A)
  | Raise (e : exn)
  | Beyond (why : limit).
Arguments Done {A} a.
Arguments Raise {A} e.
Arguments Beyond {A} why.

Definition of_result {A} (r : result A) : outcome A :=
  match r with
  | Ok a => Done a
  | Throw e => Raise e
  end.

(** ** [JSON.stringify] *)

Definition hex_digit (n : nat) : ascii :=
  ascii_of_nat (if (n <? 10)%nat then 48 + n else 87 + n).

(** One character inside a JSON string. *)
Definition json_char (a : ascii) : string :=
  let n := nat_of_ascii a in
  if Ascii.eqb a DQ then String BS (String DQ "")
  else if Ascii.eqb a BS then String BS (String BS "")
  else if (n =? 8)%nat then String BS "b"
  else if (n =? 9)%nat then String BS "t"
  else if (n =? 10)%nat then String BS "n"
  else if (n =? 12)%nat then String BS "f"
  else if (n =? 13)%nat then String BS "r"
  else if (n <? 32)%nat then
    String BS (String "u" (String "0" (String "0"
      (String (hex_digit (n / 16)) (String (hex_digit (n mod 16)) "")))))
  else String a "".

Fixpoint json_chars (s : string) : string :=
  match s with
  | "" => ""
  | String a s' => json_char a +:+ json_chars s'
  end.

Definition json_quote (s : string) : string := dq +:+ json_chars s +:+ dq.

(** [JSON.stringify(v)], converted to a string.  The value [undefined]
    (also the result for a function) prints as [undefined] once the caller
    uses it as a string.  Arrays and objects are not printed by the model
    ([None]). *)
Definition json_stringify (v : val) : option string :=
  match v with
  | VUndef | VFun _ => Some "undefined"
  | VNull => Some "null"
  | VBool b => Some (if b then "true" else "false")
  | VNum n => Some (pretty n)
  | VStr s => Some (json_quote s)
  | VArr _ | VObj _ => None
  end.

(** [JSON.stringify] of an object whose members are strings, in the order
    in which they were added. *)
Definition json_object (members : list (string * string)) : string :=
  "{" +:+ join "," (List.map (fun kv => json_quote kv.1 +:+ ":" +:+ json_quote kv.2) members) +:+ "}".

(** ** Options, template objects and the process state *)

(** [this.opts], as the [Template] constructor fills it (lines 323-355). *)
Module Opts.
Record t := mk {
  client : val;
  usePages : val;
  pages : val;
  precompile : val;
  loadOnlyOnce : val;
  escapeFunction : val;
  compileDebug : bool;
  debug : bool;
  filename : val;
  delimiter : val;
  strict : val;
  context : val;
  cache : val;
  rmWhitespace : val;
  root : val;
  localsName : val;
  _with : val
}.
End Opts.

(** [compiledOpts.delimiter] *)
Record Delimiters := mkDelimiters {
  d_escaped : string;
  d_raw : string;
  d_literalStart : string;
  d_literalEnd : string;
  d_whitespaceSlurpingStart : string;
  d_whitespaceSlurpingEnd : string;
  d_comment : string;
  d_scriptlet : string;
  d_plainEnd : string;
  d_rmNewLine : string
}.

(** What [parseOptions] returns. *)
Record CompiledOpts := mkCompiledOpts {
  co_escape : val;
  co_prepended : string;
  co_globalPrepened : string;
  co_appended : string;
  co_globalAppended : string;
  co_delimiter : Delimiters;
  co_regex : Regex.regex;
  co_literalRegex : Regex.regex;
  co_includeDirectiveRegexp : Regex.regex;
  co_includeFuncRegexp : Regex.regex
}.

(** A [Template] object.  [dependencies] keeps the order in which members
    were added; [renderFn] is the function that the closure returned by
    [compile] has captured. *)
Record Template := mkTemplate {
  templateText : val;
  source : string;
  dependencies : list (string * jsfunc);
  pathStack : list val;
  opts : Opts.t;
  compiledOpts : option CompiledOpts;
  renderFn : option jsfunc
}.

(** The state of the process: the files [readFile] can read, the working
    directory, the module's exported settings, [exports.cache], the module
    variable [scopeOptionWarned], and the template objects that are alive.
    [compilations] counts the runs of [Template.prototype.compile]. *)
Record World := mkWorld {
  files : gmap string string;
  cwd : string;
  exports_delimiter : val;
  exports_localsName : val;
  cache : gmap string jsfunc;
  scopeOptionWarned : bool;
  templates : list Template;
  compilations : nat
}.

Definition M (A : Type) : Type := World -> outcome A * World.

Definition ret {A} (a : A) : M A := fun w => (Done a, w).
Definition raise {A} (e : exn) : M A := fun w => (Raise e, w).
Definition beyond {A} (why : limit) : M A := fun w => (Beyond why, w).
Definition bind {A B} (c : M A) (k : A -> M B) : M B :=
  fun w =>
    match c w with
    | (Done a, w') => k a w'
    | (Raise e, w') => (Raise e, w')
    | (Beyond why, w') => (Beyond why, w')
    end.
Definition lift {A} (r : result A) : M A := fun w => (of_result r, w).
Definition gets {A} (f : World -> A) : M A := fun w => (Done (f w), w).
Definition modify (f : World -> World) : M unit := fun w => (Done (), f w).

(** [try { c } catch (e) { h e }] *)
Definition catch {A} (c : M A) (h : exn -> M A) : M A :=
  fun w =>
    match c w with
    | (Raise e, w') => h e w'
    | r => r
    end.

Notation "x <- c ;; k" := (bind c (fun x => k))
  (at level 100, c at next level, right associativity).
Notation "c ;;; k" := (bind c (fun _ => k))
  (at level 100, right associativity).

(** *** The template heap *)

Definition set_templates (ts : list Template) (w : World) : World :=
  mkWorld (files w) (cwd w) (exports_delimiter w) (exports_localsName w)
          (cache w) (scopeOptionWarned w) ts (compilations w).

Definition set_cache (c : gmap string jsfunc) (w : World) : World :=
  mkWorld (files w) (cwd w) (exports_delimiter w) (exports_localsName w)
          c (scopeOptionWarned w) (templates w) (compilations w).

Definition set_scopeOptionWarned (b : bool) (w : World) : World :=
  mkWorld (files w) (cwd w) (exports_delimiter w) (exports_localsName w)
          (cache w) b (templates w) (compilations w).

Definition count_compilation (w : World) : World :=
  mkWorld (files w) (cwd w) (exports_delimiter w) (exports_localsName w)
          (cache w) (scopeOptionWarned w) (templates w) (S (compilations w)).

(** Reading and updating the template object at [this]. *)
Definition this_template (this : nat) : M Template :=
  fun w =>
    match templates w !! this with
    | Some t => (Done t, w)
    | None => (Raise (newTypeError "no such template object"), w)
    end.

Definition update_template (this : nat) (f : Template -> Template) : M unit :=
  modify (fun w => set_templates (alter f this (templates w)) w).

Definition set_pathStack (ps : list val) (t : Template) : Template :=
  mkTemplate (templateText t) (source t) (dependencies t) ps (opts t)
             (compiledOpts t) (renderFn t).

Definition set_dependencies (d : list (string * jsfunc)) (t : Template) : Template :=
  mkTemplate (templateText t) (source t) d (pathStack t) (opts t)
             (compiledOpts t) (renderFn t).

Definition set_source (s : string) (t : Template) : Template :=
  mkTemplate (templateText t) s (dependencies t) (pathStack t) (opts t)
             (compiledOpts t) (renderFn t).

Definition set_compiledOpts (c : CompiledOpts) (t : Template) : Template :=
  mkTemplate (templateText t) (source t) (dependencies t) (pathStack t) (opts t)
             (Some c) (renderFn t).

Definition set_renderFn (f : jsfunc) (t : Template) : Template :=
  mkTemplate (templateText t) (source t) (dependencies t) (pathStack t) (opts t)
             (compiledOpts t) (Some f).

(** [pathStack.push(v)] and [pathStack.pop()] *)
Definition push (v : val) (ps : list val) : list val := ps ++ [v].
Definition pop (ps : list val) : list val := removelast ps.

(** The members that a plain object inherits from [Object.prototype]:
    functions of the host, and [__proto__], which reads as the prototype
    itself, an object whose members the module never reads. *)
Definition Object_prototype_functions : list string :=
  [ "hasOwnProperty"; "isPrototypeOf"; "propertyIsEnumerable"; "toLocaleString";
    "toString"; "valueOf"; "__defineGetter__"; "__defineSetter__";
    "__lookupGetter__"; "__lookupSetter__" ].

Definition inherited (k : string) : val :=
  if String.eqb k "constructor" then VFun (FnHost "Object")
  else if existsb (String.eqb k) Object_prototype_functions then VFun (FnHost k)
  else if String.eqb k "__proto__" then VObj ∅
  else VUndef.

(** [o[k]] on a plain object with a computed key: a key that is not a
    member is looked up in the prototype. *)
Definition get_plain (o : gmap string val) (k : string) : val :=
  match o !! k with
  | Some v => v
  | None => inherited k
  end.

(** [o[k]] on the dependency map, which is a plain object (line 328). *)
Fixpoint dep_get (d : list (string * jsfunc)) (k : string) : val :=
  match d with
  | [] => inherited k
  | (k', f) :: d' => if String.eqb k k' then VFun f else dep_get d' k
  end.

(** [o[k] = f] for a key that is not a member yet. *)
Definition dep_set (d : list (string * jsfunc)) (k : string) (f : jsfunc) : list (string * jsfunc) :=
  d ++ [(k, f)].

(** Modelled from the spec: [utils.cache] (the file [utils.js] is not part
    of the sources) is the process-wide mapping from filename to compiled
    function, with no eviction; [get] reads it and [set] writes it.  The
    key is the filename as a property name. *)
Definition cache_get (filename : val) : M (option jsfunc) :=
  gets (fun w => cache w !! to_string filename).

Definition cache_set (filename : val) (f : jsfunc) : M unit :=
  modify (fun w => set_cache (<[to_string filename := f]> (cache w)) w).

(** The error of the host for a file that does not exist; its field
    [path] is the name of the file. *)
Definition ENOENT (f : string) : exn :=
  ExnError {| err_name := "Error";
              err_message := "ENOENT: no such file or directory, open '" +:+ f +:+ "'";
              err_path := VStr f |}.

(** [readFile(filename)] (lines 195-197).  The byte-order mark the source
    strips is outside the 8-bit range of the model; a number names a file
    descriptor, which the model does not have. *)
Definition readFile (filename : val) : M string :=
  match filename with
  | VStr f =>
      fun w =>
        match files w !! f with
        | Some text => (Done text, w)
        | None => (Raise (ENOENT f), w)
        end
  | VNum _ => beyond Unmodelled
  | _ => raise (newTypeError "The path argument must be of type string")
  end.

(** The text of [rethrow] and of [clientIncludeString], which the
    distribution mode copies into the program. *)
Definition rethrow_text : string :=
  "function rethrow(err, str, filename, lineno) {" +:+ nl +:+
  "  var lines = str.split('\n');" +:+ nl +:+
  "  var start = Math.max(lineno - 3, 0);" +:+ nl +:+
  "  var end = Math.min(lines.length, lineno + 3);" +:+ nl +:+
  "  // Error context" +:+ nl +:+
  "  var context = lines.slice(start, end).map(function (line, i) {" +:+ nl +:+
  "    var curr = i + start + 1;" +:+ nl +:+
  "    return (curr == lineno ? ' >> ' : '    ') +" +:+ nl +:+
  "      curr +" +:+ nl +:+
  "      '| ' +" +:+ nl +:+
  "      line;" +:+ nl +:+
  "  }).join('\n');" +:+ nl +:+
  "" +:+ nl +:+
  "  // Alter exception message" +:+ nl +:+
  "  err.path = filename;" +:+ nl +:+
  "  err.message = (filename || 'ejs') + ':' +" +:+ nl +:+
  "    lineno + '\n' +" +:+ nl +:+
  "    context + '\n\n' +" +:+ nl +:+
  "    err.message;" +:+ nl +:+
  "" +:+ nl +:+
  "  throw err;" +:+ nl +:+
  "}".

Definition clientIncludeString : string :=
  "function (path, includeData) {" +:+ nl +:+
  "    /*eslint-disable */" +:+ nl +:+
  "    path = path[0] === '/' ? __root + path : __filename.substr(0, __filename.lastIndexOf('/') + 1) + path; " +:+ nl +:+
  "    /*eslint-disable */" +:+ nl +:+
  "    var fn = __dependencies[path];" +:+ nl +:+
  "    if (!fn) {" +:+ nl +:+
  "      throw new Error('can not find template ' + path);" +:+ nl +:+
  "    }" +:+ nl +:+
  "    eval('fn = ' + fn);" +:+ nl +:+
  "    var d = __shallowCopy({}, __locals__);" +:+ nl +:+
  "    if (includeData) {" +:+ nl +:+
  "      d = __shallowCopy(d, includeData);" +:+ nl +:+
  "    }" +:+ nl +:+
  "    return fn(d, escape, rethrow);" +:+ nl +:+
  "  }".

(** ** The program loader

    The host turns the assembled program text into a function
    ([new Function]) and runs it.  The model reads the programs that the
    assembler emits for literal text, for output tags and scriptlets whose
    content is a string literal, an [include('...')] call,
    [throw new Error('...')], or one of these expressions in a protected
    block with an empty handler, [try { e } catch (e) { }].  A scriptlet
    may also open a protected block, [try {], which a later scriptlet
    closes with an empty handler, [} catch (e) { }].  A string literal that
    is cut by a line break
    or by the end of the text is a syntax error for the host as well; any
    other text that the model does not read is [PUnknown]. *)

Module Loader.

Inductive expr :=
  | EStr (s : string)
  | EInclude (arg : expr).

Inductive stmt :=
  | SNone
  | SExpr (e : expr)
  | SThrow (e : expr)
  | STry (e : expr)
  | STryOpen
  | SCatch.

Inductive item :=
  | IText (s : string)
  | IEscaped (e : expr) (line : option Z)
  | IRaw (line : option Z) (e : expr)
  | IScriptlet (line : option Z) (st : stmt).

Record program := mkProgram {
  p_strict : bool;
  p_filename : val;
  p_lines : option string;
  p_with : bool;
  p_body : list item
}.

Inductive parsed (A : Type) :=
  | POk (a : A) (rest : string)
  | PSyntaxError
  | PUnknown.
Arguments POk {A} a rest.
Arguments PSyntaxError {A}.
Arguments PUnknown {A}.

Definition pbind {A B} (p : parsed A) (k : A -> string -> parsed B) : parsed B :=
  match p with
  | POk a rest => k a rest
  | PSyntaxError => PSyntaxError
  | PUnknown => PUnknown
  end.

(** [expect lit s]: [s] without its prefix [lit]. *)
Fixpoint expect (lit s : string) : option string :=
  match lit, s with
  | "", _ => Some s
  | String a lit', String b s' => if Ascii.eqb a b then expect lit' s' else None
  | _, _ => None
  end.

Definition pexpect (lit s : string) : parsed unit :=
  match expect lit s with
  | Some rest => POk () rest
  | None => PUnknown
  end.

(** The character an escape sequence stands for, for the sequences that
    are one character long. *)
Definition decode_escape (b : ascii) : option ascii :=
  let n := nat_of_ascii b in
  if Ascii.eqb b "n" then Some LF
  else if Ascii.eqb b "r" then Some CR
  else if Ascii.eqb b "t" then Some (ascii_of_nat 9)
  else if Ascii.eqb b "b" then Some (ascii_of_nat 8)
  else if Ascii.eqb b "f" then Some (ascii_of_nat 12)
  else if Ascii.eqb b "v" then Some (ascii_of_nat 11)
  else if Ascii.eqb b "x" || Ascii.eqb b "u" then None
  else if ((48 <=? n) && (n <=? 57))%nat then None
  else if Regex.is_line_terminator b then None
  else Some b.

(** A string literal, read from just after its opening quote [q]. *)
Fixpoint lex_string (q : ascii) (s : string) : parsed string :=
  match s with
  | "" => PSyntaxError
  | String a s' =>
      if Ascii.eqb a q then POk "" s'
      else if Regex.is_line_terminator a then PSyntaxError
      else if Ascii.eqb a BS then
        match s' with
        | "" => PSyntaxError
        | String b s'' =>
            match decode_escape b with
            | Some c => pbind (lex_string q s'') (fun t rest => POk (String c t) rest)
            | None => PUnknown
            end
        end
      else pbind (lex_string q s') (fun t rest => POk (String a t) rest)
  end.

Definition is_digit (a : ascii) : bool :=
  ((48 <=? nat_of_ascii a) && (nat_of_ascii a <=? 57))%nat.

Fixpoint lex_digits (s : string) (acc : Z) : Z * string :=
  match s with
  | String a s' =>
      if is_digit a then lex_digits s' (10 * acc + Z.of_nat (nat_of_ascii a - 48))
      else (acc, s)
  | "" => (acc, s)
  end.

Definition lex_number (s : string) : parsed Z :=
  match s with
  | String a _ => if is_digit a then let '(n, rest) := lex_digits s 0 in POk n rest else PUnknown
  | "" => PUnknown
  end.

Definition is_ident_char (a : ascii) : bool :=
  let n := nat_of_ascii a in
  ((65 <=? n) && (n <=? 90) || (97 <=? n) && (n <=? 122) || (n =? 95) || (n =? 36))%nat.

Fixpoint is_ident (s : string) : bool :=
  match s with
  | "" => false
  | String a "" => is_ident_char a
  | String a s' => is_ident_char a && is_ident s'
  end.

Fixpoint parse_expr (fuel : nat) (s : string) : parsed expr :=
  match fuel with
  | O => PUnknown
  | S fuel' =>
      match s with
      | String a s' =>
          if Ascii.eqb a SQ then pbind (lex_string SQ s') (fun t rest => POk (EStr t) rest)
          else if Ascii.eqb a DQ then pbind (lex_string DQ s') (fun t rest => POk (EStr t) rest)
          else
            match expect "include(" s with
            | Some s1 =>
                pbind (parse_expr fuel' s1) (fun e rest =>
                pbind (pexpect ")" rest) (fun _ rest => POk (EInclude e) rest))
            | None => PUnknown
            end
      | "" => PUnknown
      end
  end.

(** [__line = N] followed by [after], when the program tracks lines. *)
Definition parse_line (debug : bool) (after : string) (s : string) : parsed (option Z) :=
  if debug then
    pbind (pexpect "__line = " s) (fun _ rest =>
    pbind (lex_number rest) (fun n rest =>
    pbind (pexpect after rest) (fun _ rest => POk (Some n) rest)))
  else POk None s.

(** What stands between two pieces of literal text: [escape(e, __line = N)]
    or [(__line = N, e)]. *)
Definition parse_operand (debug : bool) (fuel : nat) (s : string) : parsed item :=
  match expect "escape(" s with
  | Some s1 =>
      pbind (parse_expr fuel s1) (fun e rest =>
      pbind (if debug then pexpect ", " rest else POk () rest) (fun _ rest =>
      pbind (parse_line debug "" rest) (fun line rest =>
      pbind (pexpect ")" rest) (fun _ rest => POk (IEscaped e line) rest))))
  | None =>
      pbind (pexpect "(" s) (fun _ rest =>
      pbind (parse_line debug ", " rest) (fun line rest =>
      pbind (parse_expr fuel rest) (fun e rest =>
      pbind (pexpect ")" rest) (fun _ rest => POk (IRaw line e) rest))))
  end.

(** The value appended to the output: literal text and operands joined by
    [+], from the opening quote of the first literal on. *)
Fixpoint parse_concat (debug : bool) (fuel : nat) (s : string) : parsed (list item) :=
  match fuel with
  | O => PUnknown
  | S fuel' =>
      pbind (pexpect (String SQ "") s) (fun _ rest =>
      pbind (lex_string SQ rest) (fun t rest =>
        match expect " + " rest with
        | Some s1 =>
            pbind (parse_operand debug fuel' s1) (fun op rest =>
            pbind (pexpect " + " rest) (fun _ rest =>
            pbind (parse_concat debug fuel' rest) (fun items rest =>
              POk (IText t :: op :: items) rest)))
        | None => POk [IText t] rest
        end))
  end.

Definition parse_stmt (fuel : nat) (s : string) : parsed stmt :=
  match expect (";" +:+ nl +:+ "__output += ") s with
  | Some _ => POk SNone s
  | None =>
      match expect "throw new Error(" s with
      | Some s1 =>
          pbind (parse_expr fuel s1) (fun e rest =>
          pbind (pexpect ")" rest) (fun _ rest => POk (SThrow e) rest))
      | None =>
          match expect "try { " s with
          | Some s1 =>
              pbind (parse_expr fuel s1) (fun e rest =>
              pbind (pexpect " } catch (e) { }" rest) (fun _ rest => POk (STry e) rest))
          | None =>
              match expect "try {" s with
              | Some rest => POk STryOpen rest
              | None =>
                  match expect "} catch (e) { }" s with
                  | Some rest => POk SCatch rest
                  | None => pbind (parse_expr fuel s) (fun e rest => POk (SExpr e) rest)
                  end
              end
          end
      end
  end.

(** The scriptlets that follow, each with the text appended after it. *)
Fixpoint parse_scriptlets (debug : bool) (fuel : nat) (s : string) : parsed (list item) :=
  match fuel with
  | O => PUnknown
  | S fuel' =>
      match expect (";" +:+ nl) s with
      | Some s1 =>
          pbind (parse_line debug ";" s1) (fun line rest =>
          pbind (parse_stmt fuel' rest) (fun st rest =>
          pbind (pexpect (";" +:+ nl +:+ "__output += ") rest) (fun _ rest =>
          pbind (parse_concat debug fuel' rest) (fun items rest =>
          pbind (parse_scriptlets debug fuel' rest) (fun more rest =>
            POk (IScriptlet line st :: items ++ more) rest)))))
      | None => POk [] s
      end
  end.

(** The protected blocks that are open after [items], when [depth] of them
    were open before; [None] when a handler stands where no block is
    open. *)
Fixpoint open_blocks (items : list item) (depth : nat) : option nat :=
  match items with
  | [] => Some depth
  | IScriptlet _ STryOpen :: items' => open_blocks items' (S depth)
  | IScriptlet _ SCatch :: items' =>
      match depth with
      | O => None
      | S depth' => open_blocks items' depth'
      end
  | _ :: items' => open_blocks items' depth
  end.

Definition strict_prologue : string := dq +:+ "use strict" +:+ dq +:+ ";" +:+ nl.
Definition debug_prologue_1 : string := "var __line = 1, __lines = ".
Definition debug_prologue_2 : string := ";" +:+ nl +:+ "try { " +:+ nl.
Definition debug_epilogue : string :=
  "; return __output;" +:+ nl +:+ "} catch (e) {" +:+ nl +:+
  "rethrow(e, __lines, __filename, __line);" +:+ nl +:+ "}".

Definition parse_filename (s : string) : parsed val :=
  match expect "undefined" s with
  | Some rest => POk VUndef rest
  | None =>
      pbind (pexpect dq s) (fun _ rest =>
      pbind (lex_string DQ rest) (fun t rest => POk (VStr t) rest))
  end.

(** The whole program, as [new Function(localsName + ', escape, include,
    rethrow', source)] receives it. *)
Definition parse_program (localsName : string) (src : string) : parsed program :=
  if negb (is_ident localsName) then PUnknown else
  let '(strict, s) :=
    match expect strict_prologue src with
    | Some rest => (true, rest)
    | None => (false, src)
    end in
  pbind (pexpect "var __filename = " s) (fun _ rest =>
  pbind (parse_filename rest) (fun fname rest =>
  pbind (pexpect ";" rest) (fun _ rest =>
  pbind (match expect debug_prologue_1 rest with
         | Some s1 =>
             pbind (pexpect dq s1) (fun _ rest =>
             pbind (lex_string DQ rest) (fun t rest =>
             pbind (pexpect debug_prologue_2 rest) (fun _ rest => POk (Some t) rest)))
         | None => POk None rest
         end) (fun lines rest =>
  let debug := match lines with Some _ => true | None => false end in
  let '(with_, rest) :=
    match expect ("with(" +:+ localsName +:+ " || {}) {" +:+ nl) rest with
    | Some s1 => (true, s1)
    | None => (false, rest)
    end in
  pbind (pexpect "var __output = " rest) (fun _ rest =>
  let fuel := S (String.length rest) in
  pbind (parse_concat debug fuel rest) (fun items rest =>
  pbind (parse_scriptlets debug fuel rest) (fun more rest =>
    if String.eqb rest ((if with_ then "}" +:+ nl else "") +:+
                        (if debug then debug_epilogue else ""))
    then match open_blocks (items ++ more) 0 with
         | Some O => POk (mkProgram strict fname lines with_ (items ++ more)) ""
         | _ => PUnknown
         end
    else PUnknown))))))).

End Loader.

(** [sourceToFunc] (lines 607-609).  The host refuses a program with a
    syntax error; the model sees the errors described above.  A text that
    the model does not read is taken for a program: the function is made,
    and a call of it is beyond the model. *)
Definition sourceToFunc (localsName : val) (source : string) : result jsfunc :=
  match Loader.parse_program (to_string localsName) source with
  | Loader.PSyntaxError => Throw (ExnError (mkError "SyntaxError" "Invalid or unexpected token" VUndef))
  | _ => Ok (FnSource (to_string localsName +:+ ", escape, include, rethrow") source)
  end.

(** ** String methods the assembler uses *)

Fixpoint index_from (c : ascii) (s : string) (i : Z) : Z :=
  match s with
  | "" => -1
  | String a s' => if Ascii.eqb a c then i else index_from c s' (i + 1)
  end.

(** [s.indexOf(c)] *)
Definition indexOf (c : ascii) (s : string) : Z := index_from c s 0.

Fixpoint last_index_from (c : ascii) (s : string) (i : Z) (last : Z) : Z :=
  match s with
  | "" => last
  | String a s' => last_index_from c s' (i + 1) (if Ascii.eqb a c then i else last)
  end.

(** [s.lastIndexOf(c)] *)
Definition lastIndexOf (c : ascii) (s : string) : Z := last_index_from c s 0 (-1).

Definition strlen (s : string) : Z := Z.of_nat (String.length s).

(** [s.substr(start, length)] *)
Definition substr (s : string) (start len : Z) : string :=
  let size := strlen s in
  let start := if start <? 0 then Z.max (size + start) 0 else Z.min start size in
  take_str (Z.to_nat (Z.min (Z.max len 0) (size - start))) (drop_str (Z.to_nat start) s).

(** [s.substr(start)] *)
Definition substr_from (s : string) (start : Z) : string := substr s start (strlen s).

(** ** The delimiter grammar (lines 56-57, 64-65, 358-366) *)

Import Regex.

Definition chr (a : ascii) : regex := Chr (Ascii.eqb a).

(** The escaped forms of a line feed, of a carriage return and of a quote
    in the escaped template text: a backslash and a letter. *)
Definition esc_n : string := String BS "n".
Definition esc_r : string := String BS "r".
Definition esc_q : string := String BS (String SQ "").

(** The class written [[(\\r)(\\\\n)\s]] in [_REGEX_STRING]: the
    parentheses, the backslash, the letters [r] and [n], and [\s]. *)
Definition around : regex :=
  Chr (fun a => Ascii.eqb a "(" || Ascii.eqb a ")" || Ascii.eqb a BS ||
                Ascii.eqb a "r" || Ascii.eqb a "n" || is_space a).

(** [_REGEX_STRING] with the delimiter [d] in the place of [%], followed by
    [_COMPILE_DEBUG_REGEXP] when lines are tracked.

    Modelled from the spec: [utils.escapeRegExpChars] ([utils.js] is not
    part of the sources) makes the delimiter match literally. *)
Definition tag_regex (d : string) (compileDebug : bool) : regex :=
  let tag :=
    Group 1 (seq [
      Group 2 (Star true around);
      Group 3 (seq [chr "<"; str d; NegLook (str d); opt (one_of "=-_#")]);
      Star true ws;
      Group 4 (Star false dot);
      Star true ws;
      Group 5 (seq [opt (one_of "-_"); str d; chr ">"]);
      Group 6 (Star true around) ]) in
  if compileDebug then Alt tag (str esc_n) else tag.

(** [_LITERAL_REGEX_STRING] with the delimiter in the place of [%] *)
Definition literal_regex (d : string) : regex :=
  Alt (seq [chr "<"; str d; str d]) (seq [str d; str d; chr ">"]).

(** [/^\s*include\s+(\S+)/] *)
Definition _INCLUDE_DIRECTIVE_REGEXP : regex :=
  seq [Bol false; Star true ws; str "include"; ws; Star true ws;
       Group 1 (Seq (Chr (fun a => negb (is_space a)))
                    (Star true (Chr (fun a => negb (is_space a)))))].

(** [/^\s*include\s*\("(.+?)"/] *)
Definition _INCLUDE_FUNC_REGEXP : regex :=
  seq [Bol false; Star true ws; str "include"; Star true ws; chr "("; chr DQ;
       Group 1 (Seq dot (Star false dot)); chr DQ].

(** [/^\s*(undefined)|(null)\s*/] (line 580): the alternation binds
    weakest, so the anchor belongs to the first branch only. *)
Definition undefined_or_null : regex :=
  Alt (seq [Bol false; Star true ws; Group 1 (str "undefined")])
      (seq [Group 2 (str "null"); Star true ws]).

(** [/[\s\t]*$/], [/^[\s\t]*(\\n)?/] and [/(\\r)?\\n/] (lines 549-554) *)
Definition trailing_space : regex := seq [Star true ws; Eol false].
Definition leading_space_newline : regex :=
  seq [Bol false; Star true ws; opt (Group 1 (str esc_n))].
Definition first_newline : regex := seq [opt (Group 1 (str esc_r)); str esc_n].

(** [/;\s*$/] (line 589) *)
Definition trailing_semicolon : regex := seq [chr ";"; Star true ws; Eol false].

(** [/^\s+|\s+$/gm] (line 513) *)
Definition line_edges : regex :=
  Alt (seq [Bol true; ws; Star true ws]) (seq [ws; Star true ws; Eol true]).

(** [/'|\\/g] (line 517) *)
Definition quote_or_backslash : regex := Alt (chr SQ) (chr BS).

Definition createRegex (o : Opts.t) : regex * regex :=
  let d := to_string (Opts.delimiter o) in
  (tag_regex d (Opts.compileDebug o), literal_regex d).

(** ** [parseOptions] (lines 434-494) *)

Definition is_false (v : val) : bool :=
  match v with VBool false => true | _ => false end.

Definition parseOptions (o : Opts.t) : option CompiledOpts :=
  let d := to_string (Opts.delimiter o) in
  let delimiter := {|
    d_escaped := "<" +:+ d +:+ "=";
    d_raw := "<" +:+ d +:+ "-";
    d_literalStart := "<" +:+ d +:+ d;
    d_literalEnd := d +:+ d +:+ ">";
    d_whitespaceSlurpingStart := "<" +:+ d +:+ "_";
    d_whitespaceSlurpingEnd := "_" +:+ d +:+ ">";
    d_comment := "<" +:+ d +:+ "#";
    d_scriptlet := "<" +:+ d;
    d_plainEnd := d +:+ ">";
    d_rmNewLine := "-" +:+ d +:+ ">" |} in
  let compileDebug := Opts.compileDebug o in
  let prepended := "var __filename = __filename__;" in
  let globalPrepened := if truthy (Opts.strict o) then Loader.strict_prologue else "" in
  let globalPrepened :=
    if truthy (Opts.client o) then
      match json_stringify (Opts.root o) with
      | None => None
      | Some root =>
          let g :=
            "escape = escape || " +:+ to_string (Opts.escapeFunction o) +:+ ";" +:+ nl +:+
            "var __shallowCopy = " +:+ fn_toString (FnHost "shallowCopy") +:+ ";" +:+ nl +:+
            "var include = " +:+
              replace_first (str "__locals__") (expand 0 (to_string (Opts.localsName o)))
                            clientIncludeString +:+ ";" +:+ nl +:+
            "var __root = " +:+ root +:+ ";" +:+ nl +:+ globalPrepened in
          Some (if compileDebug
                then "rethrow = rethrow || " +:+ rethrow_text +:+ ";" +:+ nl +:+ g
                else g)
      end
    else Some globalPrepened in
  let prepended :=
    if compileDebug
    then prepended +:+ "var __line = 1, __lines = __template__;" +:+ nl +:+ "try { " +:+ nl
    else prepended in
  let appended := if compileDebug then Loader.debug_epilogue else "" in
  let '(prepended, appended) :=
    if negb (is_false (Opts._with o))
    then (prepended +:+ "with(" +:+ to_string (Opts.localsName o) +:+ " || {}) {" +:+ nl,
          "}" +:+ nl +:+ appended)
    else (prepended, appended) in
  let prepended := prepended +:+ "var __output = '" in
  let '(re, lit) := createRegex o in
  match globalPrepened with
  | None => None
  | Some globalPrepened =>
      Some {| co_escape := Opts.escapeFunction o;
              co_prepended := prepended;
              co_globalPrepened := globalPrepened;
              co_appended := appended;
              co_globalAppended := "";
              co_delimiter := delimiter;
              co_regex := re;
              co_literalRegex := lit;
              co_includeDirectiveRegexp := _INCLUDE_DIRECTIVE_REGEXP;
              co_includeFuncRegexp := _INCLUDE_FUNC_REGEXP |}
  end.

(** ** Source generation (lines 496-605) *)

(** Lines 512-522: whitespace removal, then the escaping that lets the
    literal text stand inside a quoted string of the program. *)
Definition escape_template (rmWhitespace : bool) (template : string) : string :=
  let t :=
    if rmWhitespace
    then replace_all line_edges (fun _ => "") (replace_all (chr CR) (fun _ => "") template)
    else template in
  let t := replace_all quote_or_backslash (fun x => String BS (f_match x)) t in
  let t := replace_all (chr LF) (fun _ => esc_n) t in
  if rmWhitespace then t else replace_all (chr CR) (fun _ => esc_r) t.

(** Lines 548-555: the whitespace control of one tag. *)
Definition slurp_before (dl : Delimiters) (prefix before : string) : string :=
  if String.eqb prefix (d_whitespaceSlurpingStart dl)
  then replace_first trailing_space (fun _ _ _ => "") before
  else before.

Definition slurp_after (dl : Delimiters) (rmWhitespace : bool) (suffix after : string) : string :=
  if String.eqb suffix (d_whitespaceSlurpingEnd dl) || rmWhitespace
  then replace_first leading_space_newline (fun _ _ _ => "") after
  else if String.eqb suffix (d_rmNewLine dl)
  then replace_first first_newline (fun _ _ _ => "") after
  else after.

(** Line 561: the content of the tag, as it was written in the template. *)
Definition unescape_content (content : string) : string :=
  replace_all (str esc_q) (fun _ => String SQ "")
    (replace_all (str esc_n) (fun _ => nl) content).

(** Lines 580-582 *)
Definition normalize_content (content : string) : string :=
  if test undefined_or_null content then String SQ (String SQ "") else content.

(** Lines 585-601: the emission for one tag. *)
Definition emit_tag (dl : Delimiters) (compileDebug included : bool)
    (unhandledLine : Z) (prefix before content after : string) : string :=
  let q := String SQ "" in
  if String.eqb prefix (d_escaped dl) then
    before +:+ "' + " +:+ "escape(" +:+ content +:+
    (if compileDebug then ", __line = " +:+ pretty unhandledLine else "") +:+ ") + '" +:+ after
  else if String.eqb prefix (d_raw dl) then
    let content := replace_first trailing_semicolon (fun _ _ _ => "") content in
    before +:+ "' + (" +:+
    (if compileDebug then "__line = " +:+ pretty unhandledLine +:+ ", " else "") +:+
    content +:+ ") + '" +:+ after
  else if String.eqb prefix (d_scriptlet dl) || String.eqb prefix (d_whitespaceSlurpingStart dl) then
    let content := if included then ";__output += " +:+ content else content in
    before +:+ q +:+ ";" +:+ nl +:+
    (if compileDebug then "__line = " +:+ pretty unhandledLine +:+ ";" else "") +:+
    content +:+ ";" +:+ nl +:+ "__output += '" +:+ after
  else if String.eqb prefix (d_comment dl) then
    before +:+ "'/*" +:+ content +:+ "*/ + '" +:+ after
  else before +:+ content +:+ after.

(** The replacer of line 525, for one match at the current [line]; it
    returns the replacement and the new value of [line].  Group 2 is
    [before], 3 [prefix], 4 [content], 5 [suffix], 6 [after]. *)
Definition replacer (o : Opts.t) (co : CompiledOpts)
    (includeSource : val -> M string) (includeFile : val -> M jsfunc)
    (x : found) (line : Z) : M (string * Z) :=
  let dl := co_delimiter co in
  let compileDebug := Opts.compileDebug o in
  if compileDebug && String.eqb (f_match x) esc_n then ret (f_match x, line + 1) else
  let before := capd (f_caps x) 2 in
  let prefix := capd (f_caps x) 3 in
  let content := capd (f_caps x) 4 in
  let suffix := capd (f_caps x) 5 in
  let after := capd (f_caps x) 6 in
  let unhandledLine :=
    if compileDebug then line + Z.of_nat (count (str esc_n) before) else line in
  let line :=
    if compileDebug
    then unhandledLine + Z.of_nat (count (str esc_n) content)
                       + Z.of_nat (count (str esc_n) after)
    else line in
  let before := slurp_before dl prefix before in
  let after := slurp_after dl (truthy (Opts.rmWhitespace o)) suffix after in
  if String.eqb prefix (d_comment dl) then ret ("", line) else
  let content := unescape_content content in
  bind
    (match search (co_includeDirectiveRegexp co) None content with
     | Some (_, includeMatch) =>
         includeSource <- includeSource (VStr (capd (f_caps includeMatch) 1)) ;;
         ret ("(function () {" +:+ includeSource +:+ "}).call(this)", true)
     | None =>
         if truthy (Opts.client o) then
           match search (co_includeFuncRegexp co) None content with
           | Some (_, includeMatch) =>
               includeFile (VStr (capd (f_caps includeMatch) 1)) ;;;
               ret (content, false)
           | None => ret (content, false)
           end
         else ret (content, false)
     end)
    (fun '(content, included) =>
       let content := normalize_content content in
       ret (emit_tag dl compileDebug included unhandledLine prefix before content after, line)).

(** The global replace of line 525: the replacer runs on the matches from
    left to right, and the text between them is kept. *)
Fixpoint replace_tags (f : found -> Z -> M (string * Z)) (ps : list piece) (line : Z) : M string :=
  match ps with
  | [] => ret ""
  | Lit t :: ps' =>
      rest <- replace_tags f ps' line ;;
      ret (t +:+ rest)
  | Hit x :: ps' =>
      r <- f x line ;;
      rest <- replace_tags f ps' (snd r) ;;
      ret (fst r +:+ rest)
  end.

(** Lines 602-604: the doubled delimiter of a literal pair loses one
    delimiter. *)
Definition unescape_literal (x : found) : string :=
  let m := f_match x in
  if Path.is_char "<" (Path.char_at m 0)
  then substr m 0 (strlen m - 1)
  else substr_from m 1.

(** [generateSource(template, filename)], with the two include methods it
    calls given as arguments. *)
Definition generateSource_with
    (includeSource : val -> M string) (includeFile : val -> M jsfunc)
    (this : nat) (template filename : val) : M string :=
  t <- this_template this ;;
  let o := opts t in
  match compiledOpts t with
  | None => raise (newTypeError "Cannot read properties of undefined (reading 'delimiter')")
  | Some co =>
      match json_stringify filename with
      | None => beyond Unmodelled
      | Some jf =>
      let prepended := replace_first (str "__filename__") (expand 0 jf) (co_prepended co) in
      match (if Opts.compileDebug o
             then match json_stringify template with
                  | None => None
                  | Some jt => Some (replace_first (str "__template__") (expand 0 jt) prepended)
                  end
             else Some prepended) with
      | None => beyond Unmodelled
      | Some prepended =>
      match template with
      | VStr text =>
          let text := escape_template (truthy (Opts.rmWhitespace o)) text in
          body <- replace_tags (replacer o co includeSource includeFile)
                               (pieces (co_regex co) text) 1 ;;
          ret (prepended +:+
               replace_all (co_literalRegex co) unescape_literal body +:+
               String SQ "" +:+ co_appended co)
      | VUndef =>
          raise (newTypeError "Cannot read properties of undefined (reading 'replace')")
      | VNull =>
          raise (newTypeError "Cannot read properties of null (reading 'replace')")
      | _ => raise (newTypeError "template.replace is not a function")
      end
      end
      end
  end.

(** ** Includes (lines 611-646) *)

(** [pages[path]]: the page map is a plain object of the caller. *)
Definition page (pages path : val) : result val :=
  match pages with
  | VObj o => Ok (get_plain o (to_string path))
  | VUndef =>
      Throw (newTypeError ("Cannot read properties of undefined (reading '" +:+
                           to_string path +:+ "')"))
  | VNull =>
      Throw (newTypeError ("Cannot read properties of null (reading '" +:+
                           to_string path +:+ "')"))
  | _ => Ok VUndef
  end.

(** The key of the include in the dependency map of the distribution mode
    (line 616). *)
Definition clientFilename (o : Opts.t) (path parentFilename : val) : result string :=
  match path with
  | VUndef => Throw (newTypeError "Cannot read properties of undefined (reading '0')")
  | VNull => Throw (newTypeError "Cannot read properties of null (reading '0')")
  | _ =>
      let first := match path with VStr p => Path.char_at p 0 | _ => None end in
      if Path.is_char "/" first then Ok (to_string (Opts.root o) +:+ to_string path)
      else
        match parentFilename with
        | VStr pf => Ok (substr pf 0 (lastIndexOf "/" pf + 1) +:+ to_string path)
        | _ => Throw (newTypeError "parentFilename.substr is not a function")
        end
  end.

(** [includeFile(path)], lines 612-619: the filename of the include, its
    key in the dependency map, and the function found under that key. *)
Definition include_target (this : nat) (path : val) : M (val * string * val) :=
  t <- this_template this ;;
  let o := opts t in
  let parentFilename := List.last (pathStack t) VUndef in
  w_cwd <- gets cwd ;;
  filename <- (if truthy (Opts.usePages o) then ret path
               else f <- lift (getIncludePath w_cwd path parentFilename (Opts.root o)) ;;
                    ret (VStr f)) ;;
  key <- (if truthy (Opts.client o) then lift (clientFilename o path parentFilename)
          else ret (to_string filename)) ;;
  ret (filename, key, dep_get (dependencies t) key).

(** What was read from the dependency map: a function, or nothing.  The
    prototype object, read under the key [__proto__], is no function, and
    the model does not follow it. *)
Definition dep_function (depFunc : val) : M (option jsfunc) :=
  match depFunc with
  | VFun f => ret (Some f)
  | VUndef => ret None
  | _ => beyond Unmodelled
  end.

(** Lines 623-638: the function of the include, from the dependency map,
    from the cache, or compiled from its text. *)
Definition include_fetch (generateSource : val -> val -> M string)
    (this : nat) (path : val) (o : Opts.t)
    (filename : val) (key : string) (depFunc : val) : M jsfunc :=
  depFunc <- dep_function depFunc ;;
  found <- (match depFunc with
            | Some f => ret (Some f, false)
            | None =>
                if truthy (Opts.cache o) && negb (truthy (Opts.client o))
                then c <- cache_get filename ;;
                     ret (c, match c with Some _ => true | None => false end)
                else ret (None, false)
            end) ;;
  func <- (match fst found with
           | Some f => ret f
           | None =>
               template <- (if truthy (Opts.usePages o)
                            then lift (page (Opts.pages o) path)
                            else s <- readFile filename ;; ret (VStr s)) ;;
               source <- generateSource template filename ;;
               lift (sourceToFunc (Opts.localsName o) source)
           end) ;;
  (match depFunc with
   | None =>
       if truthy (Opts.loadOnlyOnce o) || truthy (Opts.client o)
       then update_template this (fun t => set_dependencies (dep_set (dependencies t) key func) t)
       else ret ()
   | Some _ => ret ()
   end) ;;;
  (if negb (snd found) && truthy (Opts.cache o) && negb (truthy (Opts.client o))
   then cache_set filename func
   else ret ()) ;;;
  ret func.

(** [includeFile(path)], with [generateSource] given as an argument: the
    filename is pushed (line 621) once it is resolved, and nothing in the
    method pops it. *)
Definition includeFile_with (generateSource : val -> val -> M string)
    (this : nat) (path : val) : M jsfunc :=
  target <- include_target this path ;;
  t <- this_template this ;;
  update_template this (fun t => set_pathStack (push target.1.1 (pathStack t)) t) ;;;
  include_fetch generateSource this path (opts t) target.1.1 target.1.2 target.2.

(** [includeSource(path)] *)
Definition includeSource_with (includeFile : val -> M jsfunc) (this : nat) (path : val) : M string :=
  func <- includeFile path ;;
  let source := fn_toString func in
  let source := substr source (indexOf "{" source) (lastIndexOf "}" source) in
  update_template this (fun t => set_pathStack (pop (pathStack t)) t) ;;;
  ret source.

(** The recursion of nested includes, cut by [fuel]. *)
Fixpoint generateSource (fuel : nat) (this : nat) (template filename : val) : M string :=
  match fuel with
  | O => beyond OutOfFuel
  | S fuel' =>
      let includeFile := includeFile_with (generateSource fuel' this) this in
      let includeSource := includeSource_with includeFile this in
      generateSource_with includeSource includeFile this template filename
  end.

Definition includeFile (fuel : nat) (this : nat) (path : val) : M jsfunc :=
  includeFile_with (generateSource fuel this) this path.

Definition includeSource (fuel : nat) (this : nat) (path : val) : M string :=
  includeSource_with (includeFile fuel this) this path.

(** ** The [Template] constructor (lines 323-355) *)

(** The members of an options or data argument: a value that is not an
    object has none of the members the module reads. *)
Definition members (v : val) : gmap string val :=
  match v with
  | VObj o => o
  | _ => ∅
  end.

Definition is_undefined (v : val) : bool :=
  match v with VUndef => true | _ => false end.

Definition Template_opts (w : World) (opts : val) : Opts.t :=
  let opts := members opts in
  let usePages := get opts "usePages" in
  let strict := or_else (get opts "strict") (VBool false) in
  {| Opts.client := or_else (get opts "client") (VBool false);
     Opts.usePages := usePages;
     Opts.pages := if truthy usePages then get opts "pages" else VUndef;
     Opts.precompile := get opts "precompile";
     Opts.loadOnlyOnce := get opts "loadOnlyOnce";
     Opts.escapeFunction := or_else (get opts "escape") (VFun (FnHost "escapeXML"));
     Opts.compileDebug := negb (is_false (get opts "compileDebug"));
     Opts.debug := truthy (get opts "debug");
     Opts.filename := get opts "filename";
     Opts.delimiter :=
       or_else (get opts "delimiter") (or_else (exports_delimiter w) (VStr _DEFAULT_DELIMITER));
     Opts.strict := strict;
     Opts.context := get opts "context";
     Opts.cache := or_else (get opts "cache") (VBool false);
     Opts.rmWhitespace := get opts "rmWhitespace";
     Opts.root := get opts "root";
     Opts.localsName :=
       or_else (get opts "localsName")
               (or_else (exports_localsName w) (VStr _DEFAULT_LOCALS_NAME));
     Opts._with :=
       if truthy strict then VBool false
       else if is_undefined (get opts "_with") then VBool true else get opts "_with" |}.

(** [new Template(text, opts)]: the new object's place among the template
    objects. *)
Definition new_Template (text opts : val) : M nat :=
  fun w =>
    let t := {| templateText := text;
                source := "";
                dependencies := [];
                pathStack := [get (members opts) "filename"];
                opts := Template_opts w opts;
                compiledOpts := None;
                renderFn := None |} in
    (Done (length (templates w)), set_templates (templates w ++ [t]) w).

(** ** [Template.prototype.compile] (lines 368-432) *)

(** Lines 375-379: [precompile] is read as an array. *)
Fixpoint precompile_all (includeFile : val -> M jsfunc) (l : list val) : M unit :=
  match l with
  | [] => ret ()
  | p :: l' => includeFile p ;;; precompile_all includeFile l'
  end.

(** Lines 395-408: a syntax error is annotated and thrown again. *)
Definition annotate_syntax_error (o : Opts.t) (e : exn) : exn :=
  match e with
  | ExnError err =>
      if String.eqb (err_name err) "SyntaxError" then
        ExnError {| err_name := err_name err;
                    err_message :=
                      err_message err +:+
                      (if truthy (Opts.filename o) then " in " +:+ to_string (Opts.filename o) else "") +:+
                      " while compiling ejs" +:+ nl +:+ nl +:+
                      "If the above error is not helpful, you may want to try EJS-Lint:" +:+ nl +:+
                      "https://github.com/RyanZim/EJS-Lint";
                    err_path := err_path err |}
      else e
  | _ => e
  end.

Definition Template_compile (fuel : nat) (this : nat) : M jsfunc :=
  modify count_compilation ;;;
  t <- this_template this ;;
  let o := opts t in
  match parseOptions o with
  | None => beyond Unmodelled
  | Some co =>
      update_template this (set_compiledOpts co) ;;;
      src <- generateSource fuel this (templateText t) (Opts.filename o) ;;
      update_template this (set_source (co_globalPrepened co +:+ src +:+ co_globalAppended co)) ;;;
      (match Opts.precompile o with
       | VArr l => precompile_all (includeFile fuel this) l
       | VObj _ | VStr _ | VFun _ => if truthy (Opts.precompile o) then beyond Unmodelled else ret ()
       | _ => ret ()
       end) ;;;
      (if truthy (Opts.client o) then
         t <- this_template this ;;
         let deps := List.map (fun kv => (kv.1, fn_toString kv.2)) (dependencies t) in
         update_template this
           (fun t => set_source ("var __dependencies = " +:+ json_object deps +:+ ";" +:+ nl +:+ source t) t)
       else ret ()) ;;;
      t <- this_template this ;;
      renderFn <- catch (lift (sourceToFunc (Opts.localsName o) (source t)))
                        (fun e => raise (annotate_syntax_error o e)) ;;
      if truthy (Opts.client o) then ret renderFn
      else
        update_template this (set_renderFn renderFn) ;;;
        ret (FnTemplate this)
  end.

(** ** [exports.compile] (lines 211-241) *)

(** Lines 217-226: the deprecated [scope] option becomes [context]. *)
Definition scope_compat (opts : val) : M val :=
  if truthy opts && truthy (get (members opts) "scope") then
    modify (set_scopeOptionWarned true) ;;;
    let o := members opts in
    let o := if truthy (get o "context") then o else <["context" := get o "scope"]> o in
    ret (VObj (delete "scope" o))
  else ret opts.

Definition compile (fuel : nat) (template opts : val) : M jsfunc :=
  opts <- scope_compat opts ;;
  let o := members opts in
  cached <- (if truthy opts && negb (truthy (get o "usePages")) &&
                truthy (get o "cache") && truthy (get o "filename")
             then cache_get (get o "filename")
             else ret None) ;;
  match cached with
  | Some fn => ret fn
  | None =>
      template <- (match template with
                   | VUndef | VNull =>
                       match opts with
                       | VUndef =>
                           raise (newTypeError
                                    "Cannot read properties of undefined (reading 'filename')")
                       | VNull =>
                           raise (newTypeError
                                    "Cannot read properties of null (reading 'filename')")
                       | _ => s <- readFile (get o "filename") ;; ret (VStr s)
                       end
                   | _ => ret template
                   end) ;;
      this <- new_Template template opts ;;
      fn <- Template_compile fuel this ;;
      (if truthy opts && truthy (get o "cache")
       then cache_set (get o "filename") fn
       else ret ()) ;;;
      ret fn
  end.

(** ** Running a compiled template (lines 417-431) *)

(** Modelled from the spec: [utils.escapeXML] ([utils.js] is not part of
    the sources) escapes the five XML-significant characters; for
    [undefined] and [null] it returns the empty string. *)
Definition escape_char (a : ascii) : string :=
  if Ascii.eqb a "&" then "&amp;"
  else if Ascii.eqb a "<" then "&lt;"
  else if Ascii.eqb a ">" then "&gt;"
  else if Ascii.eqb a DQ then "&#34;"
  else if Ascii.eqb a SQ then "&#39;"
  else String a "".

Fixpoint escape_chars (s : string) : string :=
  match s with
  | "" => ""
  | String a s' => escape_char a +:+ escape_chars s'
  end.

Definition escapeXML (markup : val) : string :=
  match markup with
  | VUndef | VNull => ""
  | _ => escape_chars (to_string markup)
  end.

(** Modelled from the spec: [utils.shallowCopy(to, from)] merges the
    members of [from] over those of [to]. *)
Definition shallowCopy (to from : gmap string val) : gmap string val := from ∪ to.

(** The names the program declares or receives; a member of the data
    object with one of these names would take its place inside the
    implicit-scope block. *)
Definition program_names : list string :=
  ["__output"; "__line"; "__lines"; "__filename"; "escape"; "include"; "rethrow"].

Definition shadows (scope : gmap string val) (localsName : string) : bool :=
  existsb (fun n => bool_decide (is_Some (scope !! n))) (localsName :: program_names).

(** The names the program reads from the global object: the constructor
    [Error], when it has a [throw new Error(...)].  Inside the
    implicit-scope block a member of the data object with that name is
    read instead. *)
Definition throws (i : Loader.item) : bool :=
  match i with
  | Loader.IScriptlet _ (Loader.SThrow _) => true
  | _ => false
  end.

Definition program_globals (p : Loader.program) : list string :=
  if existsb throws (Loader.p_body p) then ["Error"] else [].

Definition shadows_globals (scope : gmap string val) (p : Loader.program) : bool :=
  existsb (fun n => bool_decide (is_Some (scope !! n))) (program_globals p).

(** The first parameter of a function made by [sourceToFunc]. *)
Fixpoint first_param (params : string) : string :=
  match params with
  | "" => ""
  | String a s' => if Ascii.eqb a "," then "" else String a (first_param s')
  end.

Section Run.

(** How the program calls a function value and its [include] argument:
    [call f locals escape include], where [include] is the closure over a
    template object and the data of the render. *)
Variable call : jsfunc -> val -> val -> option (nat * val) -> M val.
Variable fuel : nat.

(** The closure [include] of lines 419-427. *)
Definition runtime_include (this : nat) (data : val) (path includeData : val) : M val :=
  t <- this_template this ;;
  let escape := Opts.escapeFunction (opts t) in
  let d := shallowCopy ∅ (members data) in
  let d := if truthy includeData then shallowCopy d (members includeData) else d in
  func <- includeFile fuel this path ;;
  compiled <- call func (VObj d) escape (Some (this, data)) ;;
  update_template this (fun t => set_pathStack (pop (pathStack t)) t) ;;;
  ret compiled.

Fixpoint eval_expr (include : option (nat * val)) (e : Loader.expr) : M val :=
  match e with
  | Loader.EStr s => ret (VStr s)
  | Loader.EInclude arg =>
      path <- eval_expr include arg ;;
      match include with
      | Some (this, data) => runtime_include this data path VUndef
      | None => raise (newTypeError "include is not a function")
      end
  end.

(** A statement.  The marks of a protected block that spans several tags
    do nothing by themselves: the run of the body keeps the blocks. *)
Definition exec_stmt (include : option (nat * val)) (st : Loader.stmt) : M unit :=
  match st with
  | Loader.SNone => ret ()
  | Loader.SExpr e => eval_expr include e ;;; ret ()
  | Loader.SThrow e =>
      msg <- eval_expr include e ;;
      raise (newError (to_string msg))
  | Loader.STry e =>
      catch (eval_expr include e ;;; ret ()) (fun _ => ret ())
  | Loader.STryOpen | Loader.SCatch => ret ()
  end.

Definition call_escape (escape : val) (v : val) : M string :=
  match escape with
  | VFun (FnHost "escapeXML") => ret (escapeXML v)
  | VFun _ => beyond Unmodelled
  | _ => raise (newTypeError "escape is not a function")
  end.

(** The protective block of the program: an error goes to [rethrow] with
    the line that is current when it is thrown. *)
Definition guarded {A} (p : Loader.program) (line : Z) (c : M A) : M A :=
  match Loader.p_lines p with
  | Some lines => catch c (fun e => lift (rethrow e lines (Loader.p_filename p) line))
  | None => c
  end.

Definition new_line (line : Z) (mark : option Z) : Z := default line mark.

(** What the run of a body keeps: the output as the last complete
    statement left it, the output with the text of the statement that is
    under way, the current line, the number of protected blocks that are
    open, and, once an error was caught, the number of blocks that were
    opened since in the text that is passed over. *)
Record run_state := mkRun {
  r_committed : string;
  r_output : string;
  r_line : Z;
  r_depth : nat;
  r_skip : option nat
}.

Definition run_start : run_state := mkRun "" "" 1 0 None.

(** One step at [line].  Outside the protected blocks of the template an
    error goes to [rethrow]; inside one it goes to the handler of the block,
    which is empty, and the run goes on behind the block ([caught]). *)
Definition protect {A} (p : Loader.program) (depth : nat) (line : Z) (c : M A)
    (caught : M string) (k : A -> M string) : M string :=
  match depth with
  | O => x <- guarded p line c ;; k x
  | S _ =>
      fun w =>
        match c w with
        | (Done x, w') => k x w'
        | (Raise _, w') => caught w'
        | (Beyond why, w') => (Beyond why, w')
        end
  end.

(** The body of the program.  The statement [__output += ...] that an
    error interrupts appends nothing; the line is the one that was current
    when the error was thrown. *)
Fixpoint run_items (p : Loader.program) (escape : val) (include : option (nat * val))
    (items : list Loader.item) (st : run_state) : M string :=
  match items with
  | [] =>
      match r_depth st, r_skip st with
      | O, None => ret (r_output st)
      | _, _ => beyond Unmodelled
      end
  | i :: items' =>
      let '(mkRun committed output line depth skip) := st in
      match skip with
      | Some d =>
          match i with
          | Loader.IScriptlet _ Loader.STryOpen =>
              run_items p escape include items' (mkRun committed output line depth (Some (S d)))
          | Loader.IScriptlet _ Loader.SCatch =>
              match d with
              | O => run_items p escape include items'
                       (mkRun committed output line (Nat.pred depth) None)
              | S d' => run_items p escape include items'
                          (mkRun committed output line depth (Some d'))
              end
          | _ => run_items p escape include items' st
          end
      | None =>
          match i with
          | Loader.IText s =>
              run_items p escape include items' (mkRun committed (output +:+ s) line depth None)
          | Loader.IEscaped e mark =>
              let line' := new_line line mark in
              protect p depth line (eval_expr include e)
                (run_items p escape include items'
                   (mkRun committed committed line depth (Some 0%nat)))
                (fun v =>
              protect p depth line' (call_escape escape v)
                (run_items p escape include items'
                   (mkRun committed committed line' depth (Some 0%nat)))
                (fun s =>
              run_items p escape include items'
                (mkRun committed (output +:+ s) line' depth None)))
          | Loader.IRaw mark e =>
              let line' := new_line line mark in
              protect p depth line' (eval_expr include e)
                (run_items p escape include items'
                   (mkRun committed committed line' depth (Some 0%nat)))
                (fun v =>
              run_items p escape include items'
                (mkRun committed (output +:+ to_string v) line' depth None))
          | Loader.IScriptlet mark Loader.STryOpen =>
              run_items p escape include items'
                (mkRun output output (new_line line mark) (S depth) None)
          | Loader.IScriptlet mark Loader.SCatch =>
              match depth with
              | O => beyond Unmodelled
              | S depth' =>
                  run_items p escape include items'
                    (mkRun output output (new_line line mark) depth' None)
              end
          | Loader.IScriptlet mark stm =>
              let line' := new_line line mark in
              protect p depth line' (exec_stmt include stm)
                (run_items p escape include items'
                   (mkRun output output line' depth (Some 0%nat)))
                (fun _ =>
              run_items p escape include items' (mkRun output output line' depth None))
          end
      end
  end.

(** The program applied to [(locals, escape, include, rethrow)].  Without
    the protective block the program has no [return]. *)
Definition run_program (localsName : string) (p : Loader.program)
    (locals escape : val) (include : option (nat * val)) : M val :=
  let scope := if Loader.p_with p then members (or_else locals (VObj ∅)) else ∅ in
  if shadows scope localsName || shadows_globals scope p then beyond Unmodelled else
  output <- run_items p escape include (Loader.p_body p) run_start ;;
  ret (match Loader.p_lines p with
       | Some _ => VStr output
       | None => VUndef
       end).

Definition call_with (f : jsfunc) (locals escape : val) (include : option (nat * val)) : M val :=
  match f with
  | FnSource params body =>
      match Loader.parse_program (first_param params) body with
      | Loader.POk p _ => run_program (first_param params) p locals escape include
      | _ => beyond Unmodelled
      end
  | FnTemplate this =>
      t <- this_template this ;;
      match renderFn t with
      | Some renderFn =>
          call renderFn (or_else locals (VObj ∅)) (Opts.escapeFunction (opts t))
               (Some (this, locals))
      | None => raise (newTypeError "renderFn is not a function")
      end
  | FnHost _ => beyond Unmodelled
  end.

End Run.

(** Calls nest as includes do; the nesting is cut by [fuel]. *)
Fixpoint call (fuel : nat) (f : jsfunc) (locals escape : val) (include : option (nat * val)) : M val :=
  match fuel with
  | O => beyond OutOfFuel
  | S fuel' => call_with (call fuel') fuel' f locals escape include
  end.

(** ** [cpOptsInData] and [exports.render] (lines 178-184, 256-266) *)

Definition cpOptsInData (data : val) (opts : gmap string val) : gmap string val :=
  foldl (fun opts p =>
           if is_undefined (get (members data) p) then opts
           else <[p := get (members data) p]> opts)
        opts _OPTS.

(** The options [render] hands to [compile], for the list of its
    arguments. *)
Definition render_opts (args : list val) : val :=
  let data := or_else (nth 1 args VUndef) (VObj ∅) in
  let opts := or_else (nth 2 args VUndef) (VObj ∅) in
  if (length args =? 2)%nat then VObj (cpOptsInData data (members opts)) else opts.

Definition render (fuel : nat) (args : list val) : M val :=
  let template := nth 0 args VUndef in
  let data := or_else (nth 1 args VUndef) (VObj ∅) in
  fn <- compile fuel template (render_opts args) ;;
  call fuel fn data VUndef None.

(** The process as the module leaves it when it is loaded, with the given
    files and working directory. *)
Definition initial (fs : gmap string string) (dir : string) : World :=
  {| files := fs; cwd := dir;
     exports_delimiter := VUndef;
     exports_localsName := VStr _DEFAULT_LOCALS_NAME;
     cache := ∅; scopeOptionWarned := false; templates := []; compilations := 0 |}.

(** ** The examples' setting *)

Definition relative_include_error : exn :=
  newError "`include` use relative path requires the 'filename' option.".

(** The process with no files, in which the examples run. *)
Definition w0 : World := initial ∅ "/".

(** [generateSource] as a top-level compile with the options [o] calls
    it. *)
Definition generated (template : string) (o : val) : outcome string :=
  fst ((this <- new_Template (VStr template) o ;;
        t <- this_template this ;;
        match parseOptions (opts t) with
        | Some co =>
            update_template this (set_compiledOpts co) ;;;
            generateSource 1 this (VStr template) (Opts.filename (opts t))
        | None => beyond Unmodelled
        end) w0).

Definition rendered (template : string) (data : val) : outcome val :=
  fst (render 2 [VStr template; data] w0).

(** ** Reference functions for the statements *)

(** A greedy star over a character class, by recursion on the input: the
    class is consumed as far as it goes, and the rest of the pattern is
    tried from the longest run back to the empty one. *)
Fixpoint greedy_run {R} (p : ascii -> bool)
    (k : option ascii -> string -> caps -> option R)
    (prev : option ascii) (s : string) (c : caps) : option R :=
  match s with
  | String a s' =>
      if p a then
        match greedy_run p k (Some a) s' c with
        | Some x => Some x
        | None => k prev s c
        end
      else k prev s c
  | "" => k prev s c
  end.

(** The character before the point where the longest prefix of [s] in
    the class [p] ends. *)
Fixpoint skip_prev (p : ascii -> bool) (prev : option ascii) (s : string) : option ascii :=
  match s with
  | String a s' => if p a then skip_prev p (Some a) s' else prev
  | "" => prev
  end.



(** ** Relations between process states, for the statements *)

(** What source generation and rendering leave alone in a template object,
    and in the process. *)
Definition frame_of (t : Template) : val * string * Opts.t * option CompiledOpts * option jsfunc :=
  (templateText t, source t, opts t, compiledOpts t, renderFn t).

Definition frame (w : World) :=
  (files w, cwd w, exports_delimiter w, exports_localsName w,
   scopeOptionWarned w, compilations w, frame_of <$> templates w).

(** The path stacks of the template objects, and the stack of one. *)
Definition stacks (w : World) : list (list val) := pathStack <$> templates w.

Definition stack_of (this : nat) (w : World) : list val :=
  default [] (stacks w !! this).

(** The stacks are as they were; the stacks only have entries added. *)
Definition kept (w w' : World) : Prop :=
  frame w' = frame w /\ stacks w' = stacks w.

Definition grown (w w' : World) : Prop :=
  frame w' = frame w /\ Forall2 prefix (stacks w) (stacks w').

(** No template object is compiled for distribution. *)
Definition no_client (w : World) : Prop :=
  Forall (fun t => truthy (Opts.client (opts t)) = false) (templates w).

(** A computation that restores every path stack when it returns, and that
    otherwise leaves behind what it pushed. *)
Definition balanced {A} (c : M A) : Prop :=
  forall w, no_client w ->
    match c w with
    | (Done _, w') => kept w w'
    | (_, w') => grown w w'
    end.

(** A computation that takes no entry off a path stack, whatever its
    outcome. *)
Definition growing {A} (c : M A) : Prop :=
  forall w, no_client w -> grown w (snd (c w)).

(** The data an include hands to the included function (lines 420-423). *)
Definition include_locals (data includeData : val) : val :=
  VObj (if truthy includeData
        then shallowCopy (shallowCopy ∅ (members data)) (members includeData)
        else shallowCopy ∅ (members data)).

(** The filename [includeFile] pushes for [path] (line 615). *)
Definition include_filename (t : Template) (dir : string) (path : val) : result val :=
  if truthy (Opts.usePages (opts t)) then Ok path
  else bind_result (getIncludePath dir path (List.last (pathStack t) VUndef) (Opts.root (opts t)))
                   (fun f => Ok (VStr f)).

(** ** Settings of the include examples *)

(** A process with the file [/views/partial.ejs], and in it the template
    object of [/views/a.ejs], ready for source generation. *)
Definition views : gmap string string := {[ "/views/partial.ejs" := "hello" ]}.

Definition template_a (text : string) : World :=
  snd ((this <- new_Template (VStr text) (VObj {["filename" := VStr "/views/a.ejs"]}) ;;
        t <- this_template this ;;
        match parseOptions (opts t) with
        | Some co => update_template this (set_compiledOpts co)
        | None => ret ()
        end) (initial views "/")).

(** The process after [/views/a.ejs] with the given text was compiled, and
    the function that [compile] returned. *)
Definition compiled_a (text : string) : outcome jsfunc * World :=
  compile 3 (VStr text) (VObj {["filename" := VStr "/views/a.ejs"]}) (initial views "/").

(** A process in which [/views/b.ejs] includes a file that does not exist
    and catches the error, and in it [/views/a.ejs] with the given text,
    compiled. *)
Definition views_b : gmap string string :=
  {[ "/views/b.ejs" := "<% try { %><%- include('missing') %><% } catch (e) { } %>ok" ]}.

Definition compiled_with_b (text : string) : outcome jsfunc * World :=
  compile 4 (VStr text) (VObj {["filename" := VStr "/views/a.ejs"]}) (initial views_b "/").

(** What only [exports.compile] and the host change: the files, the
    working directory, the exported settings, the deprecation flag, and the
    count of compilations. *)
Definition ambient (w : World) :=
  (files w, cwd w, exports_delimiter w, exports_localsName w,
   scopeOptionWarned w, compilations w).

(** A computation that leaves them alone, whatever its outcome. *)
Definition quiet {A} (c : M A) : Prop :=
  forall w, ambient (snd (c w)) = ambient w.

(** The options of the cache example, and a counter test of the spec:
    compile the same file twice with the cache on. *)
Definition cached_opts : gmap string val :=
  {[ "filename" := VStr "/views/a.ejs"; "cache" := VBool true ]}.

(** Every character of [s] is in the class [p]. *)
Fixpoint all_chars (p : ascii -> bool) (s : string) : bool :=
  match s with
  | String a s' => p a && all_chars p s'
  | "" => true
  end.


(** ** Further reference definitions *)

(** [s] with each character [a] replaced by the text [g a]. *)
Fixpoint subst_chars (g : ascii -> string) (s : string) : string :=
  match s with
  | "" => ""
  | String a s' => g a +:+ subst_chars g s'
  end.

(** What the three replacements of lines 516-521 make of one character. *)
Definition escape_template_char (a : ascii) : string :=
  if Ascii.eqb a SQ || Ascii.eqb a BS then String BS (String a "")
  else if Ascii.eqb a LF then esc_n
  else if Ascii.eqb a CR then esc_r
  else String a "".

(** The text a piece stands for, and the text of a list of pieces. *)
Definition piece_text (f : found -> string) (p : piece) : string :=
  match p with Lit t => t | Hit x => f x end.

(** A text in which the default delimiter does not occur. *)
Definition no_percent (s : string) : bool :=
  all_chars (fun a => negb (Ascii.eqb a "%")) s.

(** The characters that [JSON.stringify] writes as themselves or with a
    one-letter escape. *)
Definition json_plain (a : ascii) : bool :=
  let n := nat_of_ascii a in
  ((32 <=? n) || (n =? 8) || (n =? 9) || (n =? 10) || (n =? 12) || (n =? 13))%nat.

Definition no_dollar (s : string) : bool :=
  all_chars (fun a => negb (Ascii.eqb a "$")) s.

(** Text with no tag and no replacement pattern in it: the default
    delimiter and the dollar sign do not occur. *)
Definition plain_text (s : string) : bool :=
  no_percent s && no_dollar s && all_chars json_plain s.

(** The options of a compile with no option given, and what [parseOptions]
    makes of them. *)
Definition default_opts : Opts.t := Template_opts w0 (VObj ∅).

Definition default_compiledOpts : CompiledOpts :=
  {| co_escape := VFun (FnHost "escapeXML");
     co_prepended :=
       "var __filename = __filename__;var __line = 1, __lines = __template__;" +:+ nl +:+
       "try { " +:+ nl +:+ "with(locals || {}) {" +:+ nl +:+ "var __output = '";
     co_globalPrepened := "";
     co_appended := "}" +:+ nl +:+ Loader.debug_epilogue;
     co_globalAppended := "";
     co_delimiter :=
       {| d_escaped := "<%="; d_raw := "<%-"; d_literalStart := "<%%"; d_literalEnd := "%%>";
          d_whitespaceSlurpingStart := "<%_"; d_whitespaceSlurpingEnd := "_%>";
          d_comment := "<%#"; d_scriptlet := "<%"; d_plainEnd := "%>"; d_rmNewLine := "-%>" |};
     co_regex := tag_regex "%" true;
     co_literalRegex := literal_regex "%";
     co_includeDirectiveRegexp := _INCLUDE_DIRECTIVE_REGEXP;
     co_includeFuncRegexp := _INCLUDE_FUNC_REGEXP |}.

(** The program for a text without tags, compiled with no option given. *)
Definition literal_source (text : string) : string :=
  "var __filename = undefined;var __line = 1, __lines = " +:+ json_quote text +:+ ";" +:+ nl +:+
  "try { " +:+ nl +:+ "with(locals || {}) {" +:+ nl +:+ "var __output = '" +:+
  escape_template false text +:+ "'}" +:+ nl +:+ Loader.debug_epilogue.

(** The template object and the process after a text without tags was
    compiled with no option given. *)
Definition literal_template (text : string) : Template :=
  {| templateText := VStr text;
     source := literal_source text;
     dependencies := [];
     pathStack := [VUndef];
     opts := default_opts;
     compiledOpts := Some default_compiledOpts;
     renderFn := Some (FnSource "locals, escape, include, rethrow" (literal_source text)) |}.

Definition literal_world (text : string) : World :=
  {| files := ∅; cwd := "/";
     exports_delimiter := VUndef;
     exports_localsName := VStr _DEFAULT_LOCALS_NAME;
     cache := ∅; scopeOptionWarned := false;
     templates := [literal_template text]; compilations := 1 |}.

(** Data that names no option and none of the program's own variables. *)
Definition plain_data (data : val) : bool :=
  forallb (fun p => is_undefined (get (members data) p)) _OPTS &&
  negb (shadows (members data) "locals").

(** The options of a compile with line tracking off, [compileDebug:
    false], and what [parseOptions] makes of them. *)
Definition nodebug_opts : Opts.t :=
  Template_opts w0 (VObj {["compileDebug" := VBool false]}).

Definition nodebug_compiledOpts : CompiledOpts :=
  {| co_escape := VFun (FnHost "escapeXML");
     co_prepended :=
       "var __filename = __filename__;with(locals || {}) {" +:+ nl +:+ "var __output = '";
     co_globalPrepened := "";
     co_appended := "}" +:+ nl;
     co_globalAppended := "";
     co_delimiter := co_delimiter default_compiledOpts;
     co_regex := tag_regex "%" false;
     co_literalRegex := literal_regex "%";
     co_includeDirectiveRegexp := _INCLUDE_DIRECTIVE_REGEXP;
     co_includeFuncRegexp := _INCLUDE_FUNC_REGEXP |}.

(** The program for a text without tags, compiled with line tracking off,
    and the template object and the process after that compilation. *)
Definition nodebug_source (text : string) : string :=
  "var __filename = undefined;with(locals || {}) {" +:+ nl +:+ "var __output = '" +:+
  escape_template false text +:+ "'}" +:+ nl.

Definition nodebug_template (text : string) : Template :=
  {| templateText := VStr text;
     source := nodebug_source text;
     dependencies := [];
     pathStack := [VUndef];
     opts := nodebug_opts;
     compiledOpts := Some nodebug_compiledOpts;
     renderFn := Some (FnSource "locals, escape, include, rethrow" (nodebug_source text)) |}.

Definition nodebug_world (text : string) : World :=
  {| files := ∅; cwd := "/";
     exports_delimiter := VUndef;
     exports_localsName := VStr _DEFAULT_LOCALS_NAME;
     cache := ∅; scopeOptionWarned := false;
     templates := [nodebug_template text]; compilations := 1 |}.

(** ** [exports.renderFile] (lines 281-312) *)

(** [args.shift()] and [args.pop()]: the element taken, [undefined] when
    there is none, and the elements left. *)
Definition shift (args : list val) : val * list val :=
  match args with
  | [] => (VUndef, [])
  | v :: l => (v, l)
  end.

Definition pop_last (args : list val) : val * list val :=
  (List.last args VUndef, removelast args).

(** The call [renderFile] makes to its callback: [cb(err)] or
    [cb(null, result)]. *)
Inductive callback_call :=
  | CbError (err : exn)
  | CbResult (result : val).

(** The options of lines 290-304, for the list of the arguments. *)
Definition renderFile_opts (arguments : list val) : gmap string val :=
  let '(filename, args) := shift arguments in
  let '(cb, args) := pop_last args in
  let '(d, args) := shift args in
  let data := or_else d (VObj ∅) in
  let '(o, _) := pop_last args in
  let opts := shallowCopy ∅ (members (or_else o (VObj ∅))) in
  let opts :=
    if (length arguments =? 3)%nat then
      let settings := get (members data) "settings" in
      if truthy settings && truthy (get (members settings) "view options")
      then cpOptsInData (get (members settings) "view options") opts
      else cpOptsInData data opts
    else opts in
  <["filename" := filename]> opts.

(** [renderFile(path, data, opts, cb)]; the value is the call made to the
    callback.  A callback that is not a function cannot be called. *)
Definition renderFile (fuel : nat) (arguments : list val) : M callback_call :=
  let '(filename, args) := shift arguments in
  let '(cb, args) := pop_last args in
  let '(d, args) := shift args in
  let data := or_else d (VObj ∅) in
  r <- catch (fn <- compile fuel VNull (VObj (renderFile_opts arguments)) ;;
              result <- call fuel fn data VUndef None ;;
              ret (CbResult result))
             (fun err => ret (CbError err)) ;;
  match cb with
  | VFun _ => ret r
  | _ => raise (newTypeError "cb is not a function")
  end.

(** Lines 309 and 311: [renderFile] returns what its call to the callback
    returns, and throws what that call throws; [cb] is what the callback
    does when it is called. *)
Definition renderFile_return {A} (cb : callback_call -> M A)
    (fuel : nat) (arguments : list val) : M A :=
  c <- renderFile fuel arguments ;; cb c.

(** What the callback receives for an outcome of [render]. *)
Definition delivered (r : outcome val * World) : outcome callback_call * World :=
  match r with
  | (Done v, w) => (Done (CbResult v), w)
  | (Raise e, w) => (Done (CbError e), w)
  | (Beyond why, w) => (Beyond why, w)
  end.

(** [s] without the whitespace at its end. *)
Fixpoint trim_end (s : string) : string :=
  match s with
  | "" => ""
  | String a s' => if all_chars is_space s then "" else String a (trim_end s')
  end.

(** The characters of the class [around]. *)
Definition around_char (a : ascii) : bool :=
  Ascii.eqb a "(" || Ascii.eqb a ")" || Ascii.eqb a BS ||
  Ascii.eqb a "r" || Ascii.eqb a "n" || is_space a.

(** The longest prefix of [s] in the class [p]. *)
Fixpoint take_while (p : ascii -> bool) (s : string) : string :=
  match s with
  | String a s' => if p a then String a (take_while p s') else ""
  | "" => ""
  end.

(** [s] does not start with a character of the class [p]. *)
Definition starts_not (p : ascii -> bool) (s : string) : Prop :=
  match s with String a _ => p a = false | "" => True end.

(** A tag with the default delimiter, one space on either side of its
    content, and [flag] after the opening delimiter. *)
Definition tag_text (flag content : string) : string :=
  "<%" +:+ flag +:+ " " +:+ content +:+ " %>".

(** The escaped line feeds of an escaped text, from left to right. *)
Fixpoint escaped_newlines (s : string) : nat :=
  match s with
  | String a s' =>
      match s' with
      | String b s'' =>
          if Ascii.eqb BS a && Ascii.eqb "n" b then S (escaped_newlines s'')
          else escaped_newlines s'
      | "" => O
      end
  | "" => O
  end.

(** The line the replacer has reached after the text [pre]. *)
Definition tag_line (pre : string) : Z :=
  1 + Z.of_nat (escaped_newlines (escape_template false pre)).

(** A string literal between single quotes. *)
Definition quoted (lit : string) : string := String SQ lit +:+ String SQ "".

(** What a string literal in an output tag may hold for the statements
    below: plain text without a quote, a backslash or a line break, in which
    [null] does not occur. *)
Definition simple_literal (lit : string) : bool :=
  plain_text lit &&
  all_chars (fun a => negb (Ascii.eqb a SQ) && negb (Ascii.eqb a BS) &&
                      negb (is_line_terminator a)) lit &&
  negb (contains "null" lit).

(** An output tag, escaped ([<%=]) or raw ([<%-]). *)
Definition output_tag (escaped : bool) (content : string) : string :=
  tag_text (if escaped then "=" else "-") content.

(** A scriptlet that throws an error with the message [msg]. *)
Definition throw_statement (msg : string) : string :=
  "throw new Error(" +:+ quoted msg +:+ ")".

(** The operand that lines 587 and 590 write for an output tag. *)
Definition operand_source (escaped : bool) (content : string) (line : Z) : string :=
  if escaped then "escape(" +:+ content +:+ ", __line = " +:+ pretty line +:+ ")"
  else "(__line = " +:+ pretty line +:+ ", " +:+ content +:+ ")".

(** The program of the default options for a text: [body] is what the
    replacer made of the escaped text. *)
Definition program_tail : string := "}" +:+ nl +:+ Loader.debug_epilogue.

Definition program_source (text body : string) : string :=
  "var __filename = undefined;var __line = 1, __lines = " +:+ json_quote text +:+ ";" +:+ nl +:+
  "try { " +:+ nl +:+ "with(locals || {}) {" +:+ nl +:+ "var __output = '" +:+
  body +:+ String SQ program_tail.

(** What lines 585-601 write for a tag with the default delimiter, without
    the text around it. *)
Definition tag_code (flag content : string) (line : Z) : string :=
  emit_tag (co_delimiter default_compiledOpts) true false line ("<%" +:+ flag) "" content "".

(** The program for a text with one tag, compiled with no option given. *)
Definition tag_source (flag pre content post : string) : string :=
  program_source (pre +:+ tag_text flag content +:+ post)
    (escape_template false pre +:+ tag_code flag content (tag_line pre) +:+
     escape_template false post).

(** The template object and the process after [text] was compiled to the
    program [src] with no option given. *)
Definition compiled_template (text src : string) : Template :=
  {| templateText := VStr text;
     source := src;
     dependencies := [];
     pathStack := [VUndef];
     opts := default_opts;
     compiledOpts := Some default_compiledOpts;
     renderFn := Some (FnSource "locals, escape, include, rethrow" src) |}.

Definition compiled_world (text src : string) : World :=
  {| files := ∅; cwd := "/";
     exports_delimiter := VUndef;
     exports_localsName := VStr _DEFAULT_LOCALS_NAME;
     cache := ∅; scopeOptionWarned := false;
     templates := [compiled_template text src]; compilations := 1 |}.

(** The match of the tag pattern at a tag: the text and the groups. *)
Definition tag_found (b flag C Y : string) (x : found) : Prop :=
  f_match x = b +:+ tag_text flag C +:+ take_while around_char Y /\
  f_rest x = drop_while around_char Y /\
  f_caps x = [(1%nat, b +:+ tag_text flag C +:+ take_while around_char Y);
              (6%nat, take_while around_char Y); (5%nat, "%>"); (4%nat, C);
              (3%nat, "<%" +:+ flag); (2%nat, b)].

(** A text that is empty or ends outside the class [around]. *)
Definition ends_clear (s : string) : Prop :=
  s = "" \/ exists v a1, s = v +:+ String a1 "" /\ around_char a1 = false.

(** The item an output tag becomes. *)
Definition output_item (escaped : bool) (lit : string) (line : Z) : Loader.item :=
  if escaped then Loader.IEscaped (Loader.EStr lit) (Some line)
  else Loader.IRaw (Some line) (Loader.EStr lit).

(** * Properties *)

(** ** The error reporter *)

Lemma length_split_on c s : (0 < length (split_on c s))%nat.
Proof.
  induction s as [|a s IH]; simpl; [lia|].
  destruct (Ascii.eqb a c); simpl; [lia|].
  destruct (split_on c s); simpl in *; lia.
Qed.

Lemma slice_nonneg {A} (l : list A) (a b : Z) :
  0 <= a -> 0 <= b -> b <= Z.of_nat (length l) ->
  slice l a b = take (Z.to_nat (b - a)) (drop (Z.to_nat a) l).
Proof.
  intros Ha Hb Hbl. unfold slice, rel_index.
  destruct (Z.ltb_spec a 0); [lia|]. destruct (Z.ltb_spec b 0); [lia|].
  rewrite (Z.min_l b) by lia.
  destruct (Z.le_gt_cases a (Z.of_nat (length l))) as [Hal|Hal].
  - by rewrite Z.min_l by lia.
  - rewrite Z.min_r by lia.
    rewrite !drop_ge by lia. by rewrite !take_nil.
Qed.

Lemma context_lines_length str lineno :
  1 <= lineno ->
  length (context_lines str lineno) =
  Z.to_nat (window_last (Z.of_nat (length (split_on LF str))) lineno - window_first lineno + 1).
Proof.
  intros HL. unfold context_lines, window_last, window_first.
  rewrite length_imap, slice_nonneg by lia.
  rewrite length_take, length_drop. lia.
Qed.

Lemma context_lines_lookup str lineno k :
  1 <= lineno ->
  window_first lineno <= k <= window_last (Z.of_nat (length (split_on LF str))) lineno ->
  exists line,
    split_on LF str !! Z.to_nat (k - 1) = Some line /\
    context_lines str lineno !! Z.to_nat (k - window_first lineno) =
      Some ((if k =? lineno then " >> " else "    ") +:+ pretty k +:+ "| " +:+ line).
Proof.
  intros HL [Hlo Hhi]. unfold window_last, window_first in *.
  destruct (lookup_lt_is_Some_2 (split_on LF str) (Z.to_nat (k - 1))) as [line Hline]; [lia|].
  exists line. split; [done|].
  unfold context_lines. rewrite list_lookup_imap, slice_nonneg by lia.
  rewrite lookup_take_lt by lia. rewrite lookup_drop.
  replace (Z.to_nat (Z.max (lineno - 3) 0) + Z.to_nat (k - (Z.max (lineno - 3) 0 + 1)))%nat
    with (Z.to_nat (k - 1)) by lia.
  rewrite Hline. simpl.
  replace (Z.of_nat (Z.to_nat (k - (Z.max (lineno - 3) 0 + 1))) + Z.max (lineno - 3) 0 + 1)
    with k by lia.
  done.
Qed.

(** C1 (amended). For a 1-based failing line [L] of a text of [n] lines the
    reporter shows the lines numbered [max (L - 3) 0 + 1] to [min n (L + 3)]:
    at most two lines before [L] and at most three after it, clamped to the
    text.  Each shown line carries its own number, the line [L] carries the
    marker, the [path] of the error is the filename that was passed, the
    message is the filename (or [ejs]), the line number, the window and the
    original message, and the reporter never returns normally. *)
Theorem rethrow_window (e : error_obj) (str : string) (filename : val) (lineno : Z) :
  1 <= lineno ->
  let n := Z.of_nat (length (split_on LF str)) in
  (exists e',
      @rethrow val (ExnError e) str filename lineno = Throw (ExnError e') /\
      err_path e' = filename /\
      err_message e' =
        to_string (or_else filename (VStr "ejs")) +:+ ":" +:+ pretty lineno +:+ nl +:+
        join nl (context_lines str lineno) +:+ nl +:+ nl +:+ err_message e) /\
  (forall err : exn, exists x, @rethrow val err str filename lineno = Throw x) /\
  lineno - 2 <= window_first lineno /\
  window_last n lineno <= lineno + 3 /\
  window_last n lineno <= n /\
  length (context_lines str lineno) =
    Z.to_nat (window_last n lineno - window_first lineno + 1) /\
  (forall k, window_first lineno <= k <= window_last n lineno ->
     exists line,
       split_on LF str !! Z.to_nat (k - 1) = Some line /\
       context_lines str lineno !! Z.to_nat (k - window_first lineno) =
         Some ((if k =? lineno then " >> " else "    ") +:+ pretty k +:+ "| " +:+ line)).
Proof.
  intros HL n. repeat split.
  - eexists. simpl. repeat split.
  - intros [e0|v]; simpl; [by eexists|]. destruct v; by eexists.
  - unfold window_first. lia.
  - unfold window_last. lia.
  - unfold window_last. lia.
  - by apply context_lines_length.
  - intros k Hk. by apply context_lines_lookup.
Qed.

Lemma rethrow_window_witness :
  1 <= 5 /\
  length (context_lines ten_lines 5) = 6%nat.
Proof.
  split; [lia|].
  destruct (rethrow_window (mkError "Error" "boom" VUndef) ten_lines (VStr "t.ejs") 5)
    as (_ & _ & _ & _ & _ & Hlen & _); [lia|].
  rewrite Hlen. reflexivity.
Defined.

(** C1 as stated fails: on line 5 of a 10-line text the window that is
    shown starts at line 3, not at line 2. *)
Lemma rethrow_line5_of_10 :
  context_lines ten_lines 5 =
    ["    3| l3"; "    4| l4"; " >> 5| l5"; "    6| l6"; "    7| l7"; "    8| l8"] /\
  spec_context_lines ten_lines 5 =
    ["    2| l2"; "    3| l3"; "    4| l4"; " >> 5| l5"; "    6| l6"; "    7| l7"; "    8| l8"] /\
  context_lines ten_lines 5 <> spec_context_lines ten_lines 5.
Proof. split; [|split]; [vm_compute; reflexivity ..|vm_compute; discriminate]. Qed.

(** ** Include-path resolution *)

(** C6. An include path that does not begin with [/] cannot be resolved
    when the enclosing filename is unknown: [getIncludePath] throws the
    configuration error, and [includeFile] passes it on to its caller at
    once, before it has touched the path stack, the dependency map or the
    cache. *)
Theorem relative_include_requires_filename
    (dir p : string) (filename root : val) :
  Path.is_char "/" (Path.char_at p 0) = false ->
  truthy filename = false ->
  getIncludePath dir (VStr p) filename root = Throw relative_include_error /\
  (forall (fuel this : nat) (t : Template) (w : World),
     templates w !! this = Some t ->
     List.last (pathStack t) VUndef = filename ->
     truthy (Opts.usePages (opts t)) = false ->
     Opts.root (opts t) = root ->
     cwd w = dir ->
     includeFile fuel this (VStr p) w = (Raise relative_include_error, w)).
Proof.
  intros Hrel Hfile.
  assert (Hget : getIncludePath dir (VStr p) filename root = Throw relative_include_error).
  { unfold getIncludePath. rewrite Hrel, Hfile. reflexivity. }
  split; [exact Hget|].
  intros fuel this t w Ht Hlast Hpages Hroot Hcwd.
  unfold includeFile, includeFile_with, include_target, bind, this_template, gets, lift.
  rewrite Ht, Hpages. cbn [negb]. rewrite Hcwd, Hlast, Hroot, Hget. reflexivity.
Qed.

Lemma relative_include_requires_filename_witness :
  let w := snd (new_Template (VStr "<% include partial %>") VUndef (initial ∅ "/srv")) in
  getIncludePath "/srv" (VStr "partial") VUndef VUndef = Throw relative_include_error /\
  includeFile 1 0 (VStr "partial") w = (Raise relative_include_error, w).
Proof.
  intros w.
  destruct (relative_include_requires_filename "/srv" "partial" VUndef VUndef
              eq_refl eq_refl) as [Hget Hinc].
  split; [exact Hget|].
  eapply Hinc; reflexivity.
Defined.

(** A template given as a string, with no [filename] option, that includes
    a relative path: the compilation raises the configuration error. *)
Example compile_relative_include_without_filename :
  fst (compile 2 (VStr "<% include partial %>") VUndef (initial ∅ "/srv")) =
    Raise relative_include_error.
Proof. vm_compute. reflexivity. Qed.

(** ** Options found in the data *)

Lemma cpOptsInData_fold (l : list string) (data : val) (opts : gmap string val) (p : string) :
  get (foldl (fun opts p =>
                if is_undefined (get (members data) p) then opts
                else <[p := get (members data) p]> opts) opts l) p =
  if bool_decide (p ∈ l) && negb (is_undefined (get (members data) p))
  then get (members data) p else get opts p.
Proof.
  revert opts. induction l as [|q l IH]; intros opts; simpl.
  - reflexivity.
  - rewrite IH. destruct (decide (p = q)) as [->|Hne].
    + rewrite (bool_decide_eq_true_2 (q ∈ q :: l)) by (apply elem_of_cons; by left).
      destruct (is_undefined (get (members data) q)) eqn:Hu; simpl.
      * by rewrite andb_false_r.
      * rewrite andb_true_r.
        destruct (bool_decide (q ∈ l)); [done|].
        unfold get at 1. by rewrite lookup_insert_eq.
    + assert (Hmem : bool_decide (p ∈ q :: l) = bool_decide (p ∈ l))
        by (apply bool_decide_ext; rewrite elem_of_cons; tauto).
      rewrite Hmem.
      destruct (bool_decide (p ∈ l) && negb (is_undefined (get (members data) p))); [done|].
      destruct (is_undefined (get (members data) q)); [done|].
      unfold get. by rewrite lookup_insert_ne.
Qed.

Lemma cpOptsInData_get (data : val) (p : string) :
  get (cpOptsInData data ∅) p = if bool_decide (p ∈ _OPTS) then get (members data) p else VUndef.
Proof.
  unfold cpOptsInData. rewrite cpOptsInData_fold.
  destruct (bool_decide (p ∈ _OPTS)); simpl; [|done].
  destruct (get (members data) p) eqn:E; simpl; try done.
Qed.

Lemma render_opts_two (template d : val) :
  render_opts [template; d] = VObj (cpOptsInData (or_else d (VObj ∅)) ∅).
Proof. unfold render_opts. simpl. by destruct (truthy (VObj ∅)). Qed.

(** ** Source generation on particular templates *)

(** C4 (the code at the failing input). The replacer returns the empty
    string for the whole match of a comment tag, and the match includes the
    run of whitespace, parentheses, backslashes and letters [r] and [n] on
    either side of the tag. *)
Theorem comment_tag_drops_adjacent_text :
  rendered "a<%# x %>b" VUndef = Done (VStr "ab") /\
  rendered "a <%# x %> b" VUndef = Done (VStr "ab") /\
  rendered "burn<%# x %>now" VUndef = Done (VStr "buow") /\
  rendered "a <% 'x' %> b" VUndef = Done (VStr "a  b").
Proof. repeat split; vm_compute; reflexivity. Qed.

(** C5 (the code at the failing input). After [-%>] the first line break of
    the captured text is removed even when it does not follow the tag at
    once; after [_%>] only leading whitespace and one line break go. *)
Theorem newline_slurp_is_not_anchored :
  rendered ("a<% -%>" +:+ nl +:+ "b") VUndef = Done (VStr "ab") /\
  rendered ("a<% -%> " +:+ nl +:+ "b") VUndef = Done (VStr "a b") /\
  rendered ("a<% -%>n" +:+ nl +:+ "b") VUndef = Done (VStr "anb") /\
  rendered ("a<% _%> " +:+ nl +:+ nl +:+ "b") VUndef = Done (VStr ("a" +:+ nl +:+ "b")) /\
  rendered "  <%_ 'x' _%>  " VUndef = Done (VStr "") /\
  rendered "a  <%_ 'x' %>  b" VUndef = Done (VStr "a  b") /\
  rendered "<% 'x' %>  <%_ 'y' %>b" VUndef = Done (VStr "  b").
Proof. repeat split; vm_compute; reflexivity. Qed.

(** C9 (the code at the failing input). The template [$'] has no tag, but
    line 509 passes its JSON text to [replace] as a replacement pattern:
    [$'] stands for the text after the match, the string literal of
    [__lines] is cut by a line break, and the host refuses the program. *)
Theorem literal_template_with_replacement_pattern :
  generated "$'" VUndef =
    Done ("var __filename = undefined;var __line = 1, __lines = " +:+ dq +:+ ";" +:+ nl +:+
          "try { " +:+ nl +:+
          "with(locals || {}) {" +:+ nl +:+
          "var __output = '" +:+ dq +:+ ";" +:+ nl +:+
          "try { " +:+ nl +:+
          "with(locals || {}) {" +:+ nl +:+
          "var __output = '$\''}" +:+ nl +:+
          Loader.debug_epilogue) /\
  (exists e, rendered "$'" VUndef = Raise (ExnError e) /\ err_name e = "SyntaxError") /\
  rendered "it's 100% $ \ literal" VUndef = Done (VStr "it's 100% $ \ literal").
Proof.
  split; [vm_compute; reflexivity|]. split; [|vm_compute; reflexivity].
  eexists. split; [vm_compute; reflexivity|reflexivity].
Qed.

(** ** Regular expressions: stars over a character class *)

Lemma star_loop_greedy_chr {R} (p : ascii -> bool) fuel prev s c
    (k : option ascii -> string -> caps -> option R) :
  (String.length s < fuel)%nat ->
  star_loop (m R (Chr p)) true k fuel prev s c = greedy_run p k prev s c.
Proof.
  revert prev s. induction fuel as [|fuel IH]; intros prev s Hlen; [lia|].
  destruct s as [|a s]; [reflexivity|].
  cbn [star_loop m greedy_run]. destruct (p a) eqn:Hp; [|reflexivity].
  replace (String.length s <? String.length (String a s))%nat with true
    by (symmetry; apply Nat.ltb_lt; simpl; lia).
  rewrite IH by (simpl in Hlen; lia). reflexivity.
Qed.

Lemma m_star_greedy_chr {R} (p : ascii -> bool) prev s c
    (k : option ascii -> string -> caps -> option R) :
  m R (Star true (Chr p)) prev s c k = greedy_run p k prev s c.
Proof. cbn [m]. apply star_loop_greedy_chr. lia. Qed.

Lemma greedy_run_total {R} (p : ascii -> bool) prev s c
    (k : option ascii -> string -> caps -> option R) :
  (forall prev' s' c', is_Some (k prev' s' c')) ->
  greedy_run p k prev s c = k (skip_prev p prev s) (drop_while p s) c.
Proof.
  intros Hk. revert prev. induction s as [|a s IH]; intros prev; [reflexivity|].
  cbn [greedy_run drop_while skip_prev]. destruct (p a); [|reflexivity].
  rewrite IH. by destruct (Hk (skip_prev p (Some a) s) (drop_while p s) c) as [x ->].
Qed.

Lemma search_here r prev s f :
  exec_at r prev s = Some f -> search r prev s = Some ("", f).
Proof. intros H. destruct s; simpl; by rewrite H. Qed.

Lemma drop_while_no_prefix p s : match drop_while p s with String a _ => p a = false | "" => True end.
Proof.
  induction s as [|a s IH]; simpl; [done|].
  destruct (p a) eqn:Hp; [exact IH|]. simpl. exact Hp.
Qed.

(** ** Include-path resolution: the two branches *)






(** ** Paths: the extension of a resolved path *)

Lemma append_cons (a : ascii) (s t : string) : String a s +:+ t = String a (s +:+ t).
Proof. reflexivity. Qed.

Lemma append_nil_r (s : string) : s +:+ "" = s.
Proof. induction s as [|a s IH]; [reflexivity|]. by rewrite append_cons, IH. Qed.

Lemma append_assoc (x y z : string) : (x +:+ y) +:+ z = x +:+ (y +:+ z).
Proof. induction x as [|a x IH]; [reflexivity|]. by rewrite !append_cons, IH. Qed.





Lemma all_chars_app p (x y : string) :
  all_chars p (x +:+ y) = all_chars p x && all_chars p y.
Proof.
  induction x as [|a x IH]; [reflexivity|].
  rewrite append_cons. cbn [all_chars]. by rewrite IH, andb_assoc.
Qed.























(** The declarative [extname] is the loop of the source, on every path of
    at most seven characters over a name character, the dot and the slash. *)
Lemma extname_loop_agrees :
  forallb (fun s => String.eqb (Path.extname_loop s) (Path.extname s))
    (Path.all_strings ["a"; "."; "/"]%char 7) = true.
Proof. vm_compute. reflexivity. Qed.



(** ** Checks by evaluation *)

Lemma Done_check {A} (o : outcome A) :
  match o with Done _ => true | _ => false end = true -> exists a, o = Done a.
Proof. destruct o; [by eexists|done..]. Qed.

Lemma Raise_check {A} (o : outcome A) :
  match o with Raise _ => true | _ => false end = true -> exists e, o = Raise e.
Proof. destruct o; [done|by eexists|done]. Qed.

Lemma lookup_default {A} (l : list A) (i : nat) (d : A) :
  (i <? length l)%nat = true -> l !! i = Some (default d (l !! i)).
Proof.
  intros H%Nat.ltb_lt. destruct (lookup_lt_is_Some_2 l i H) as [x ->]. reflexivity.
Qed.

Lemma no_client_check (w : World) :
  forallb (fun t => negb (truthy (Opts.client (opts t)))) (templates w) = true ->
  no_client w.
Proof.
  unfold no_client. induction (templates w) as [|t l IH]; [constructor|].
  cbn [forallb]. intros [Ht Hl]%andb_true_iff. constructor; [|by apply IH].
  by apply negb_true_iff.
Qed.

(** ** Path stacks: the rules of the monad *)

Lemma kept_refl w : kept w w.
Proof. by split. Qed.

Lemma kept_grown w w' : kept w w' -> grown w w'.
Proof.
  intros [Hf Hs]. split; [done|]. rewrite Hs.
  induction (stacks w); constructor; done.
Qed.

Lemma kept_trans w1 w2 w3 : kept w1 w2 -> kept w2 w3 -> kept w1 w3.
Proof. intros [Hf1 Hs1] [Hf2 Hs2]. split; congruence. Qed.

Lemma grown_trans w1 w2 w3 : grown w1 w2 -> grown w2 w3 -> grown w1 w3.
Proof.
  intros [Hf1 Hs1] [Hf2 Hs2]. split; [congruence|].
  eapply Forall2_trans; [|exact Hs1|exact Hs2].
  intros x y z. apply transitivity.
Qed.

Lemma no_client_frame w w' : frame w' = frame w -> no_client w -> no_client w'.
Proof.
  intros Hf Hc.
  assert (Ho : opts <$> templates w' = opts <$> templates w).
  { assert (H : frame_of <$> templates w' = frame_of <$> templates w)
      by (unfold frame in Hf; congruence).
    apply (f_equal (fmap (fun x : val * string * Opts.t * option CompiledOpts * option jsfunc =>
                            x.1.1.2))) in H.
    by rewrite <- !list_fmap_compose in H. }
  unfold no_client in *.
  assert (H : Forall (fun o => truthy (Opts.client o) = false) (opts <$> templates w))
    by (apply Forall_fmap; exact Hc).
  rewrite <- Ho in H. apply Forall_fmap in H. exact H.
Qed.

Lemma no_client_kept w w' : kept w w' -> no_client w -> no_client w'.
Proof. intros [Hf _]. by apply no_client_frame. Qed.

Lemma balanced_ret {A} (a : A) : balanced (ret a).
Proof. intros w _. apply kept_refl. Qed.

Lemma balanced_raise {A} (e : exn) : balanced (@raise A e).
Proof. intros w _. apply kept_grown, kept_refl. Qed.

Lemma balanced_beyond {A} (why : limit) : balanced (@beyond A why).
Proof. intros w _. apply kept_grown, kept_refl. Qed.

Lemma balanced_lift {A} (r : result A) : balanced (lift r).
Proof. intros w _. destruct r; [apply kept_refl|apply kept_grown, kept_refl]. Qed.

Lemma balanced_gets {A} (f : World -> A) : balanced (gets f).
Proof. intros w _. apply kept_refl. Qed.

Lemma balanced_modify (f : World -> World) :
  (forall w, kept w (f w)) -> balanced (modify f).
Proof. intros H w _. apply H. Qed.

Lemma balanced_bind {A B} (c : M A) (k : A -> M B) :
  balanced c -> (forall a, balanced (k a)) -> balanced (bind c k).
Proof.
  intros Hc Hk w Hw. unfold bind. specialize (Hc w Hw).
  destruct (c w) as [[a|e|why] w1]; [|done..].
  specialize (Hk a w1 (no_client_kept _ _ Hc Hw)).
  destruct (k a w1) as [[b|e|why] w2].
  - by eapply kept_trans.
  - eapply grown_trans; [by apply kept_grown|done].
  - eapply grown_trans; [by apply kept_grown|done].
Qed.

(** A handler that throws again, as every handler of the module does. *)
Lemma balanced_catch {A} (c : M A) (h : exn -> M A) :
  balanced c ->
  (forall e w, exists e', h e w = (Raise e', w)) ->
  balanced (catch c h).
Proof.
  intros Hc Hh w Hw. unfold catch. specialize (Hc w Hw).
  destruct (c w) as [[a|e|why] w1]; [done| |done].
  destruct (Hh e w1) as [e' ->]. done.
Qed.

Lemma balanced_this_template this : balanced (this_template this).
Proof.
  intros w _. unfold this_template.
  destruct (templates w !! this); [apply kept_refl|apply kept_grown, kept_refl].
Qed.

Lemma balanced_readFile filename : balanced (readFile filename).
Proof.
  intros w _. unfold readFile. destruct filename; try (apply kept_grown, kept_refl).
  destruct (files w !! s); [apply kept_refl|apply kept_grown, kept_refl].
Qed.

Lemma balanced_cache_get filename : balanced (cache_get filename).
Proof. apply balanced_gets. Qed.

Lemma balanced_cache_set filename f : balanced (cache_set filename f).
Proof. apply balanced_modify. intros w. by split. Qed.

(** The equations of the monad. *)
Lemma bind_ret {A B} (a : A) (k : A -> M B) w : bind (ret a) k w = k a w.
Proof. reflexivity. Qed.

Lemma bind_assoc {A B C} (c : M A) (k : A -> M B) (h : B -> M C) w :
  bind (bind c k) h w = bind c (fun a => bind (k a) h) w.
Proof. unfold bind. destruct (c w) as [[a|e|why] w1]; reflexivity. Qed.

Lemma bind_gets {A B} (f : World -> A) (k : A -> M B) w : bind (gets f) k w = k (f w) w.
Proof. reflexivity. Qed.

Lemma bind_lift_Ok {A B} (a : A) (k : A -> M B) w : bind (lift (Ok a)) k w = k a w.
Proof. reflexivity. Qed.

Lemma bind_lift_Throw {A B} (e : exn) (k : A -> M B) w :
  bind (lift (Throw e)) k w = (Raise e, w).
Proof. reflexivity. Qed.

Lemma bind_this_template {B} this (k : Template -> M B) w t :
  templates w !! this = Some t -> bind (this_template this) k w = k t w.
Proof. intros H. unfold bind, this_template. by rewrite H. Qed.

Lemma bind_this_template_None {B} this (k : Template -> M B) w :
  templates w !! this = None ->
  bind (this_template this) k w = (Raise (newTypeError "no such template object"), w).
Proof. intros H. unfold bind, this_template. by rewrite H. Qed.

Lemma update_template_spec this (f : Template -> Template) (g : list val -> list val) w :
  (forall t, frame_of (f t) = frame_of t) ->
  (forall t, pathStack (f t) = g (pathStack t)) ->
  exists w', update_template this f w = (Done (), w') /\
             frame w' = frame w /\ stacks w' = alter g this (stacks w).
Proof.
  intros Hf Hg. eexists. split; [reflexivity|]. split.
  - unfold frame. cbn. f_equal.
    rewrite (list_fmap_alter frame_of f id) by (apply Forall_forall; intros; apply Hf).
    by apply list_alter_id.
  - unfold stacks. cbn. apply list_fmap_alter. apply Forall_forall; intros; apply Hg.
Qed.

Lemma balanced_update_template this (f : Template -> Template) :
  (forall t, frame_of (f t) = frame_of t) ->
  (forall t, pathStack (f t) = pathStack t) ->
  balanced (update_template this f).
Proof.
  intros Hf Hg w _.
  destruct (update_template_spec this f id w Hf Hg) as (w' & -> & Hfr & Hst).
  split; [done|]. rewrite Hst. by apply list_alter_id.
Qed.

Lemma balanced_with_this {B} this (k : Template -> M B) :
  (forall t, truthy (Opts.client (opts t)) = false -> balanced (k t)) ->
  balanced (bind (this_template this) k).
Proof.
  intros Hk w Hw. unfold bind, this_template.
  destruct (templates w !! this) as [t|] eqn:Ht; [|apply kept_grown, kept_refl].
  apply Hk; [|done].
  unfold no_client in Hw. rewrite Forall_lookup in Hw. by eapply Hw.
Qed.

Lemma balanced_if {A} (b : bool) (c1 c2 : M A) :
  balanced c1 -> balanced c2 -> balanced (if b then c1 else c2).
Proof. by destruct b. Qed.

(** ** Path stacks: the include methods *)

Section Includes.

Variable gen : val -> val -> M string.
Hypothesis balanced_gen : forall template filename, balanced (gen template filename).

Lemma balanced_include_fetch this path o filename key depFunc :
  balanced (include_fetch gen this path o filename key depFunc).
Proof.
  unfold include_fetch.
  apply balanced_bind; [destruct depFunc; first [apply balanced_ret|apply balanced_beyond]|].
  clear depFunc. intros depFunc.
  apply balanced_bind.
  { destruct depFunc; [apply balanced_ret|].
    apply balanced_if; [|apply balanced_ret].
    apply balanced_bind; [apply balanced_cache_get|intros; apply balanced_ret]. }
  intros found. apply balanced_bind.
  { destruct (found.1); [apply balanced_ret|].
    apply balanced_bind.
    - apply balanced_if; [apply balanced_lift|].
      apply balanced_bind; [apply balanced_readFile|intros; apply balanced_ret].
    - intros template. apply balanced_bind; [apply balanced_gen|intros; apply balanced_lift]. }
  intros func. apply balanced_bind.
  { destruct depFunc; [apply balanced_ret|].
    apply balanced_if; [|apply balanced_ret].
    by apply balanced_update_template. }
  intros _. apply balanced_bind; [|intros; apply balanced_ret].
  apply balanced_if; [apply balanced_cache_set|apply balanced_ret].
Qed.

(** [includeFile] either fails while it resolves the path, and then
    changes nothing, or pushes the filename of the include; what follows
    the push is balanced. *)
Lemma includeFile_with_no_template this path w :
  templates w !! this = None ->
  includeFile_with gen this path w = (Raise (newTypeError "no such template object"), w).
Proof.
  intros Ht. unfold includeFile_with, include_target.
  by rewrite bind_assoc, (bind_this_template_None _ _ _ Ht).
Qed.

Lemma includeFile_with_spec this path w t :
  no_client w ->
  templates w !! this = Some t ->
  match include_filename t (cwd w) path with
  | Throw e => includeFile_with gen this path w = (Raise e, w)
  | Ok v =>
      match includeFile_with gen this path w with
      | (Done _, w') =>
          frame w' = frame w /\ stacks w' = alter (push v) this (stacks w)
      | (_, w') =>
          frame w' = frame w /\
          Forall2 prefix (alter (push v) this (stacks w)) (stacks w')
      end
  end.
Proof.
  intros Hw Ht.
  assert (Hclient : truthy (Opts.client (opts t)) = false).
  { unfold no_client in Hw. rewrite Forall_lookup in Hw. by eapply Hw. }
  destruct (include_filename t (cwd w) path) as [v|e] eqn:Hres.
  - assert (Htarget : include_target this path w =
                      (Done (v, to_string v, dep_get (dependencies t) (to_string v)), w)).
    { unfold include_target. rewrite (bind_this_template _ _ _ _ Ht), bind_gets.
      unfold include_filename in Hres. rewrite Hclient.
      destruct (truthy (Opts.usePages (opts t))).
      - injection Hres as <-. by rewrite !bind_ret.
      - destruct (getIncludePath _ _ _ _) as [f|e]; [|done].
        injection Hres as <-. by rewrite bind_assoc, bind_lift_Ok, !bind_ret. }
    unfold includeFile_with. unfold bind at 1. rewrite Htarget.
    rewrite (bind_this_template _ _ _ _ Ht). cbn [fst snd].
    destruct (update_template_spec this
                (fun t0 => set_pathStack (push v (pathStack t0)) t0) (push v) w)
      as (w1 & Hup & Hf1 & Hs1); [done..|].
    unfold bind. rewrite Hup.
    pose proof (balanced_include_fetch this path (opts t) v (to_string v)
                  (dep_get (dependencies t) (to_string v)) w1
                  (no_client_frame _ _ Hf1 Hw)) as Hfetch.
    destruct (include_fetch _ _ _ _ _ _ _ w1) as [[f'|e|why] w2];
      destruct Hfetch as [Hf2 Hs2]; (split; [congruence|]); rewrite <- Hs1; done.
  - unfold includeFile_with, include_target.
    rewrite bind_assoc, (bind_this_template _ _ _ _ Ht), bind_assoc, bind_gets.
    unfold include_filename in Hres.
    destruct (truthy (Opts.usePages (opts t))); [done|].
    destruct (getIncludePath _ _ _ _) as [f|e']; [done|].
    injection Hres as <-. by rewrite !bind_assoc, bind_lift_Throw.
Qed.

End Includes.

Lemma prefix_alter_push (l : list (list val)) (v : val) (i : nat) :
  Forall2 prefix l (alter (push v) i l).
Proof.
  revert i. induction l as [|x l IH]; intros i; [constructor|].
  destruct i as [|i]; simpl; constructor.
  - by apply prefix_app_r.
  - induction l; constructor; done.
  - done.
  - apply IH.
Qed.

Lemma alter_pop_push (l : list (list val)) (v : val) (i : nat) :
  alter pop i (alter (push v) i l) = l.
Proof.
  rewrite list_alter_alter_eq. apply list_alter_id.
  intros ps. unfold pop, push. simpl. apply removelast_last.
Qed.

Section Generate.

Variable gen : val -> val -> M string.
Hypothesis balanced_gen : forall template filename, balanced (gen template filename).

Lemma includeSource_with_spec this path w t :
  no_client w ->
  templates w !! this = Some t ->
  match include_filename t (cwd w) path with
  | Throw e =>
      includeSource_with (includeFile_with gen this) this path w = (Raise e, w)
  | Ok v =>
      match includeSource_with (includeFile_with gen this) this path w with
      | (Done _, w') => kept w w'
      | (_, w') =>
          frame w' = frame w /\
          Forall2 prefix (alter (push v) this (stacks w)) (stacks w')
      end
  end.
Proof.
  intros Hw Ht. pose proof (includeFile_with_spec gen balanced_gen this path w t Hw Ht) as Hspec.
  destruct (include_filename t (cwd w) path) as [v|e];
    unfold includeSource_with; unfold bind at 1; [|by rewrite Hspec].
  destruct (includeFile_with gen this path w) as [[f|e|why] w1]; [|done..].
  destruct Hspec as [Hf1 Hs1].
  destruct (update_template_spec this
              (fun t0 => set_pathStack (pop (pathStack t0)) t0) pop w1)
    as (w2 & Hup & Hf2 & Hs2); [done..|].
  unfold bind. rewrite Hup. cbn. split; [congruence|].
  rewrite Hs2, Hs1. apply alter_pop_push.
Qed.

Lemma balanced_includeSource_with this path :
  balanced (includeSource_with (includeFile_with gen this) this path).
Proof.
  intros w Hw. destruct (templates w !! this) as [t|] eqn:Ht.
  - pose proof (includeSource_with_spec this path w t Hw Ht) as Hspec.
    destruct (include_filename t (cwd w) path) as [v|e].
    + destruct (includeSource_with _ _ _ w) as [[f|e|why] w1]; [done|..];
        (destruct Hspec as [Hf1 Hs1]; split; [done|];
         eapply Forall2_trans; [|apply prefix_alter_push|exact Hs1];
         intros x y z; apply transitivity).
    + rewrite Hspec. apply kept_grown, kept_refl.
  - unfold includeSource_with. unfold bind at 1.
    rewrite (includeFile_with_no_template gen this path w Ht).
    apply kept_grown, kept_refl.
Qed.

Lemma balanced_replacer_with this o co incF x line :
  truthy (Opts.client o) = false ->
  balanced (replacer o co (includeSource_with (includeFile_with gen this) this) incF x line).
Proof.
  intros Hclient. unfold replacer.
  destruct (Opts.compileDebug o && String.eqb (f_match x) esc_n); [apply balanced_ret|].
  destruct (String.eqb (capd (f_caps x) 3) (d_comment (co_delimiter co))); [apply balanced_ret|].
  apply balanced_bind.
  - destruct (search (co_includeDirectiveRegexp co) None _) as [[skipped includeMatch]|].
    + apply balanced_bind; [apply balanced_includeSource_with|intros; apply balanced_ret].
    + rewrite Hclient. apply balanced_ret.
  - intros [content included]. apply balanced_ret.
Qed.

Lemma balanced_replace_tags (f : found -> Z -> M (string * Z)) ps line :
  (forall x line, balanced (f x line)) ->
  balanced (replace_tags f ps line).
Proof.
  intros Hf. revert line. induction ps as [|[t|x] ps IH]; intros line; cbn [replace_tags].
  - apply balanced_ret.
  - apply balanced_bind; [apply IH|intros; apply balanced_ret].
  - apply balanced_bind; [apply Hf|]. intros r.
    apply balanced_bind; [apply IH|intros; apply balanced_ret].
Qed.

Lemma balanced_generateSource_with this incF template filename :
  balanced (generateSource_with (includeSource_with (includeFile_with gen this) this)
                                incF this template filename).
Proof.
  unfold generateSource_with. apply balanced_with_this. intros t Hclient.
  destruct (compiledOpts t) as [co|]; [|apply balanced_raise].
  destruct (json_stringify filename); [|apply balanced_beyond].
  destruct (if Opts.compileDebug (opts t) then _ else _); [|apply balanced_beyond].
  destruct template; try apply balanced_raise.
  apply balanced_bind; [|intros; apply balanced_ret].
  apply balanced_replace_tags. intros x line. by apply balanced_replacer_with.
Qed.

End Generate.

(** Source generation restores the path stacks when it returns. *)
Lemma balanced_generateSource fuel this template filename :
  balanced (generateSource fuel this template filename).
Proof.
  revert template filename. induction fuel as [|fuel IH]; intros template filename.
  - apply balanced_beyond.
  - cbn [generateSource]. apply balanced_generateSource_with. exact IH.
Qed.

Lemma balanced_includeSource fuel this path :
  balanced (includeSource fuel this path).
Proof. apply balanced_includeSource_with, balanced_generateSource. Qed.

Lemma includeFile_spec fuel this path w t :
  no_client w ->
  templates w !! this = Some t ->
  match include_filename t (cwd w) path with
  | Throw e => includeFile fuel this path w = (Raise e, w)
  | Ok v =>
      match includeFile fuel this path w with
      | (Done _, w') =>
          frame w' = frame w /\ stacks w' = alter (push v) this (stacks w)
      | (_, w') =>
          frame w' = frame w /\
          Forall2 prefix (alter (push v) this (stacks w)) (stacks w')
      end
  end.
Proof. apply includeFile_with_spec, balanced_generateSource. Qed.

Lemma includeSource_spec fuel this path w t :
  no_client w ->
  templates w !! this = Some t ->
  match include_filename t (cwd w) path with
  | Throw e => includeSource fuel this path w = (Raise e, w)
  | Ok v =>
      match includeSource fuel this path w with
      | (Done _, w') => kept w w'
      | (_, w') =>
          frame w' = frame w /\
          Forall2 prefix (alter (push v) this (stacks w)) (stacks w')
      end
  end.
Proof. apply includeSource_with_spec, balanced_generateSource. Qed.

(** ** Path stacks: running a compiled template *)

Lemma rethrow_throws {A} (err : exn) (str : string) (filename : val) (lineno : Z) :
  exists e', @rethrow A err str filename lineno = Throw e'.
Proof. destruct err as [e|v]; simpl; [by eexists|]. destruct v; by eexists. Qed.

(** The program of a template may catch the error of an include, so a run
    that returns need not have restored the path stacks; but no run takes
    an entry off that it did not push. *)
Lemma grown_refl w : grown w w.
Proof. apply kept_grown, kept_refl. Qed.

Lemma no_client_grown w w' : grown w w' -> no_client w -> no_client w'.
Proof. intros [Hf _]. by apply no_client_frame. Qed.

Lemma balanced_growing {A} (c : M A) : balanced c -> growing c.
Proof.
  intros H w Hw. specialize (H w Hw).
  destruct (c w) as [[a|e|why] w']; [by apply kept_grown|done..].
Qed.

Lemma growing_bind {A B} (c : M A) (k : A -> M B) :
  growing c -> (forall a, growing (k a)) -> growing (bind c k).
Proof.
  intros Hc Hk w Hw. unfold bind. specialize (Hc w Hw).
  destruct (c w) as [[a|e|why] w1]; cbn [snd] in *; [|done..].
  eapply grown_trans; [exact Hc|]. apply Hk. by eapply no_client_grown.
Qed.

Lemma growing_catch {A} (c : M A) (h : exn -> M A) :
  growing c -> (forall e, growing (h e)) -> growing (catch c h).
Proof.
  intros Hc Hh w Hw. unfold catch. specialize (Hc w Hw).
  destruct (c w) as [[a|e|why] w1]; cbn [snd] in *; [done| |done].
  eapply grown_trans; [exact Hc|]. apply Hh. by eapply no_client_grown.
Qed.

(** Popping the entry that an include pushed, from stacks that were only
    pushed on since. *)
Lemma prefix_alter_pop (l l2 : list (list val)) (v : val) (i : nat) :
  Forall2 prefix (alter (push v) i l) l2 ->
  Forall2 prefix l (alter pop i l2).
Proof.
  revert i l2. induction l as [|ps l IH]; intros i l2 H.
  - destruct i; cbn in H; inversion H; subst; constructor.
  - destruct i as [|i]; cbn in H; inversion H as [|x ps2 l' l2' Hp Hl]; subst; cbn; constructor.
    + destruct Hp as [k ->]. unfold pop, push.
      rewrite <- app_assoc. rewrite removelast_app by done.
      by apply prefix_app_r.
    + done.
    + done.
    + by apply IH.
Qed.

Lemma removelast_nil_inv {A} (x : A) (k : list A) : removelast (x :: k) = [] -> k = [].
Proof. destruct k; [done|]. cbn. discriminate. Qed.

Lemma pop_restores (l l2 : list (list val)) (v : val) (i : nat) :
  Forall2 prefix (alter (push v) i l) l2 ->
  alter pop i l2 = l <-> l2 = alter (push v) i l.
Proof.
  intros H. split; [|intros ->; apply alter_pop_push].
  revert i l2 H. induction l as [|ps l IH]; intros i l2 H E.
  - destruct i; cbn in H; inversion H; subst; reflexivity.
  - destruct i as [|i]; cbn in H; inversion H as [|x ps2 l' l2' Hp Hl]; subst; cbn in E |- *.
    + injection E as E ->. f_equal.
      destruct Hp as [k ->]. unfold pop, push in *.
      rewrite <- app_assoc in E. rewrite removelast_app in E by done.
      rewrite <- (app_nil_r ps) in E at 2. apply app_inv_head in E.
      cbn [app] in E. apply removelast_nil_inv in E. subst k. by rewrite app_nil_r.
    + injection E as -> E. f_equal. by apply IH.
Qed.

Section Running.

Variable call_rec : jsfunc -> val -> val -> option (nat * val) -> M val.
Variable fuel : nat.
Hypothesis growing_call_rec :
  forall f locals escape include, growing (call_rec f locals escape include).

(** The closure [include]: an error while the path is resolved changes
    nothing; otherwise the filename is pushed, and when the included
    function returns, one entry is popped from the stack as that function
    left it. *)
Lemma runtime_include_spec this data path includeData w t :
  no_client w ->
  templates w !! this = Some t ->
  match include_filename t (cwd w) path with
  | Throw e =>
      runtime_include call_rec fuel this data path includeData w = (Raise e, w)
  | Ok v =>
      match runtime_include call_rec fuel this data path includeData w with
      | (Done r, w') =>
          frame w' = frame w /\
          exists func w1 w2,
            includeFile fuel this path w = (Done func, w1) /\
            stacks w1 = alter (push v) this (stacks w) /\
            call_rec func (include_locals data includeData) (Opts.escapeFunction (opts t))
                     (Some (this, data)) w1 = (Done r, w2) /\
            Forall2 prefix (stacks w1) (stacks w2) /\
            stacks w' = alter pop this (stacks w2)
      | (_, w') =>
          frame w' = frame w /\
          Forall2 prefix (alter (push v) this (stacks w)) (stacks w')
      end
  end.
Proof.
  intros Hw Ht. pose proof (includeFile_spec fuel this path w t Hw Ht) as Hspec.
  destruct (include_filename t (cwd w) path) as [v|e];
    unfold runtime_include; rewrite (bind_this_template _ _ _ _ Ht); unfold bind at 1;
    [|by rewrite Hspec].
  destruct (includeFile fuel this path w) as [[f|e|why] w1]; [|done..].
  destruct Hspec as [Hf1 Hs1]. unfold bind at 1.
  pose proof (growing_call_rec f (include_locals data includeData)
                (Opts.escapeFunction (opts t)) (Some (this, data)) w1
                (no_client_frame _ _ Hf1 Hw)) as Hcall.
  fold (include_locals data includeData).
  destruct (call_rec _ _ _ _ w1) as [[r|e|why] w2] eqn:Ecall;
    cbn [snd] in Hcall; destruct Hcall as [Hf2 Hs2].
  - destruct (update_template_spec this
                (fun t0 => set_pathStack (pop (pathStack t0)) t0) pop w2)
      as (w3 & Hup & Hf3 & Hs3); [done..|].
    unfold bind. rewrite Hup. cbn. split; [congruence|].
    exists f, w1, w2. done.
  - split; [congruence|]. by rewrite <- Hs1.
  - split; [congruence|]. by rewrite <- Hs1.
Qed.

Lemma growing_runtime_include this data path includeData :
  growing (runtime_include call_rec fuel this data path includeData).
Proof.
  intros w Hw. destruct (templates w !! this) as [t|] eqn:Ht.
  - pose proof (runtime_include_spec this data path includeData w t Hw Ht) as Hspec.
    destruct (include_filename t (cwd w) path) as [v|e].
    + destruct (runtime_include _ _ _ _ _ _ w) as [[r|e|why] w']; cbn [snd].
      * destruct Hspec as (Hf & func & w1 & w2 & _ & Hs1 & _ & Hs2 & Hs3).
        split; [done|]. rewrite Hs3. apply (prefix_alter_pop _ _ v). by rewrite <- Hs1.
      * destruct Hspec as [Hf1 Hs1]. split; [done|].
        eapply Forall2_trans; [|apply prefix_alter_push|exact Hs1].
        intros x y z; apply transitivity.
      * destruct Hspec as [Hf1 Hs1]. split; [done|].
        eapply Forall2_trans; [|apply prefix_alter_push|exact Hs1].
        intros x y z; apply transitivity.
    + rewrite Hspec. apply grown_refl.
  - unfold runtime_include. rewrite (bind_this_template_None _ _ _ Ht).
    apply grown_refl.
Qed.

Lemma growing_eval_expr include e :
  growing (eval_expr call_rec fuel include e).
Proof.
  induction e as [s|arg IH]; cbn [eval_expr]; [apply balanced_growing, balanced_ret|].
  apply growing_bind; [exact IH|]. intros path.
  destruct include as [[this data]|];
    [apply growing_runtime_include|apply balanced_growing, balanced_raise].
Qed.

Lemma growing_exec_stmt include st :
  growing (exec_stmt call_rec fuel include st).
Proof.
  destruct st as [|e|e|e| |]; cbn [exec_stmt].
  - apply balanced_growing, balanced_ret.
  - apply growing_bind; [apply growing_eval_expr|intros; apply balanced_growing, balanced_ret].
  - apply growing_bind; [apply growing_eval_expr|intros; apply balanced_growing, balanced_raise].
  - apply growing_catch; [|intros; apply balanced_growing, balanced_ret].
    apply growing_bind; [apply growing_eval_expr|intros; apply balanced_growing, balanced_ret].
  - apply balanced_growing, balanced_ret.
  - apply balanced_growing, balanced_ret.
Qed.

Lemma balanced_call_escape escape v : balanced (call_escape escape v).
Proof.
  unfold call_escape. destruct escape; try apply balanced_raise.
  destruct f; try apply balanced_beyond.
  repeat (match goal with |- context [match ?x with _ => _ end] => destruct x end);
    first [apply balanced_ret|apply balanced_beyond].
Qed.

Lemma growing_guarded {A} p line (c : M A) :
  growing c -> growing (guarded p line c).
Proof.
  intros Hc. unfold guarded. destruct (Loader.p_lines p) as [lines|]; [|done].
  apply growing_catch; [done|]. intros e. apply balanced_growing, balanced_lift.
Qed.

Lemma growing_protect {A} p depth line (c : M A) (caught : M string) (k : A -> M string) :
  growing c -> growing caught -> (forall x, growing (k x)) ->
  growing (protect p depth line c caught k).
Proof.
  intros Hc Hcaught Hk. destruct depth as [|d]; cbn [protect].
  - apply growing_bind; [by apply growing_guarded|exact Hk].
  - intros w Hw. specialize (Hc w Hw). destruct (c w) as [[x|e|why] w1]; cbn [snd] in *.
    + eapply grown_trans; [exact Hc|]. apply Hk. by eapply no_client_grown.
    + eapply grown_trans; [exact Hc|]. apply Hcaught. by eapply no_client_grown.
    + exact Hc.
Qed.

Lemma growing_run_items p escape include items st :
  growing (run_items call_rec fuel p escape include items st).
Proof.
  revert st. induction items as [|i items IH]; intros st; cbn [run_items].
  - destruct (r_depth st), (r_skip st);
      first [apply balanced_growing, balanced_ret|apply balanced_growing, balanced_beyond].
  - destruct st as [committed output line depth skip]. destruct skip as [d|].
    + destruct i as [s|e mark|mark e|mark [ |e|e|e| | ]]; try apply IH.
      destruct d; apply IH.
    + destruct i as [s|e mark|mark e|mark stm].
      * apply IH.
      * apply growing_protect; [apply growing_eval_expr|apply IH|]. intros v.
        apply growing_protect;
          [apply balanced_growing, balanced_call_escape|apply IH|intros; apply IH].
      * apply growing_protect; [apply growing_eval_expr|apply IH|intros; apply IH].
      * destruct stm;
          try (apply growing_protect; [apply growing_exec_stmt|apply IH|intros; apply IH]).
        -- apply IH.
        -- destruct depth; [apply balanced_growing, balanced_beyond|apply IH].
Qed.

Lemma growing_call_with f locals escape include :
  growing (call_with call_rec fuel f locals escape include).
Proof.
  destruct f as [params body|this|name]; cbn [call_with].
  - destruct (Loader.parse_program _ _) as [p rest| |];
      try apply balanced_growing, balanced_beyond.
    unfold run_program. destruct (_ || _); [apply balanced_growing, balanced_beyond|].
    apply growing_bind; [apply growing_run_items|intros; apply balanced_growing, balanced_ret].
  - apply growing_bind; [apply balanced_growing, balanced_this_template|]. intros t.
    destruct (renderFn t); [apply growing_call_rec|apply balanced_growing, balanced_raise].
  - apply balanced_growing, balanced_beyond.
Qed.

End Running.

(** Running a compiled template takes no entry off a path stack. *)
Lemma growing_call fuel f locals escape include :
  growing (call fuel f locals escape include).
Proof.
  revert f locals escape include. induction fuel as [|fuel IH]; intros f locals escape include.
  - apply balanced_growing, balanced_beyond.
  - cbn [call]. apply growing_call_with. exact IH.
Qed.

(** ** Path stacks: what an include leaves behind *)

Lemma prefix_at_pushed (l l' : list (list val)) (v : val) (this : nat) (ps : list val) :
  Forall2 prefix (alter (push v) this l) l' ->
  l !! this = Some ps ->
  exists ps' : list val, l' !! this = Some ps' /\ push v ps `prefix_of` ps'.
Proof.
  intros H Hps.
  assert (Ha : alter (push v) this l !! this = Some (push v ps))
    by (by rewrite list_lookup_alter_eq, Hps).
  destruct (Forall2_lookup_l _ _ _ _ _ H Ha) as (ps' & Hps' & Hpre). eauto.
Qed.

Lemma stack_of_pushed (w w' : World) (t : Template) (v : val) (this : nat) :
  templates w !! this = Some t ->
  Forall2 prefix (alter (push v) this (stacks w)) (stacks w') ->
  push v (stack_of this w) `prefix_of` stack_of this w'.
Proof.
  intros Ht H.
  assert (Hs : stacks w !! this = Some (pathStack t))
    by (unfold stacks; by rewrite list_lookup_fmap, Ht).
  destruct (prefix_at_pushed _ _ _ _ _ H Hs) as (ps' & Hps' & Hpre).
  unfold stack_of. by rewrite Hs, Hps'.
Qed.

Lemma pushed_differs (l l' : list val) (v : val) :
  push v l `prefix_of` l' -> l' <> l.
Proof. intros H ->. by apply (prefix_snoc_not l v). Qed.

(** C2 (amended). Outside the distribution mode, an [include <path>]
    directive that completes without an error leaves every path stack as it
    was before the include.  A runtime [include(path, data)] call that
    returns has pushed its filename and popped once, from the stack as the
    included function left it: no entry that was on a stack before the
    include is lost, and the stacks are as they were before the include
    exactly when the included function left them as it found them.
    (A function that catches the error of an include of its own leaves the
    entry of that include behind, and the pop then takes that entry.)  No
    exit path but the normal one pops: when the path is resolved and the
    fetch, the compilation or the execution of the include then raises, the
    stack still begins with its former entries followed by the entry of the
    include, so it differs from its former value.  An error raised while the
    path is resolved comes before the push and changes nothing. *)
Theorem include_pops_on_success_only
    (fuel this : nat) (path : val) (w : World) (t : Template) :
  no_client w ->
  templates w !! this = Some t ->
  (forall s w',
     includeSource fuel this path w = (Done s, w') -> stacks w' = stacks w) /\
  (forall data includeData r w',
     runtime_include (call fuel) fuel this data path includeData w = (Done r, w') ->
     exists v func w1 w2,
       include_filename t (cwd w) path = Ok v /\
       includeFile fuel this path w = (Done func, w1) /\
       stacks w1 = alter (push v) this (stacks w) /\
       call fuel func (include_locals data includeData) (Opts.escapeFunction (opts t))
            (Some (this, data)) w1 = (Done r, w2) /\
       Forall2 prefix (stacks w1) (stacks w2) /\
       stacks w' = alter pop this (stacks w2) /\
       Forall2 prefix (stacks w) (stacks w') /\
       (stacks w' = stacks w <-> stacks w2 = stacks w1)) /\
  (forall v, include_filename t (cwd w) path = Ok v ->
     (forall e w',
        includeSource fuel this path w = (Raise e, w') ->
        push v (stack_of this w) `prefix_of` stack_of this w' /\
        stack_of this w' <> stack_of this w) /\
     (forall data includeData e w',
        runtime_include (call fuel) fuel this data path includeData w = (Raise e, w') ->
        push v (stack_of this w) `prefix_of` stack_of this w' /\
        stack_of this w' <> stack_of this w)) /\
  (forall e, include_filename t (cwd w) path = Throw e ->
     includeSource fuel this path w = (Raise e, w) /\
     (forall data includeData,
        runtime_include (call fuel) fuel this data path includeData w = (Raise e, w))).
Proof.
  intros Hw Ht.
  pose proof (includeSource_spec fuel this path w t Hw Ht) as HS.
  pose proof (fun data includeData =>
                runtime_include_spec (call fuel) fuel (growing_call fuel)
                  this data path includeData w t Hw Ht) as HR.
  split; [|split; [|split]].
  - intros s w' E. rewrite E in HS.
    destruct (include_filename t (cwd w) path); [apply HS|done].
  - intros data includeData r w' E. specialize (HR data includeData). rewrite E in HR.
    destruct (include_filename t (cwd w) path) as [v|e]; [|done].
    destruct HR as (_ & func & w1 & w2 & Hinc & Hs1 & Hcall & Hs2 & Hs3).
    exists v, func, w1, w2. repeat (split; [done|]). split.
    + rewrite Hs3. apply (prefix_alter_pop _ _ v). by rewrite <- Hs1.
    + rewrite Hs3, Hs1. apply pop_restores. by rewrite <- Hs1.
  - intros v Hv. rewrite Hv in HS. split.
    + intros e w' E. rewrite E in HS.
      assert (Hpre : push v (stack_of this w) `prefix_of` stack_of this w')
        by (by eapply stack_of_pushed, HS).
      split; [exact Hpre|by eapply pushed_differs].
    + intros data includeData e w' E. specialize (HR data includeData).
      rewrite Hv, E in HR.
      assert (Hpre : push v (stack_of this w) `prefix_of` stack_of this w')
        by (by eapply stack_of_pushed, HR).
      split; [exact Hpre|by eapply pushed_differs].
  - intros e He. rewrite He in HS. split; [exact HS|].
    intros data includeData. specialize (HR data includeData). by rewrite He in HR.
Qed.

Lemma include_pops_on_success_only_witness :
  let w := template_a "<% include partial %>" in
  let w1 := snd (compiled_a "<%- include('partial') %>") in
  no_client w /\
  stacks (snd (includeSource 2 0 (VStr "partial") w)) = stacks w /\
  no_client w1 /\
  stacks (snd (runtime_include (call 2) 2 0 VUndef (VStr "partial") VUndef w1)) = stacks w1.
Proof.
  intros w w1.
  pose (t := default (literal_template "") (templates w !! 0%nat)).
  pose (t1 := default (literal_template "") (templates w1 !! 0%nat)).
  assert (Hw : no_client w) by (apply no_client_check; vm_compute; reflexivity).
  assert (Hw1 : no_client w1) by (apply no_client_check; vm_compute; reflexivity).
  assert (Ht : templates w !! 0%nat = Some t)
    by (apply lookup_default; vm_compute; reflexivity).
  assert (Ht1 : templates w1 !! 0%nat = Some t1)
    by (apply lookup_default; vm_compute; reflexivity).
  assert (E : exists s, fst (includeSource 2 0 (VStr "partial") w) = Done s)
    by (apply Done_check; vm_compute; reflexivity).
  assert (E1 : exists r,
            fst (runtime_include (call 2) 2 0 VUndef (VStr "partial") VUndef w1) = Done r)
    by (apply Done_check; vm_compute; reflexivity).
  destruct E as [s E], E1 as [r E1].
  split; [exact Hw|]. split; [|split; [exact Hw1|]].
  - destruct (include_pops_on_success_only 2 0 (VStr "partial") w t Hw Ht) as (Hdone & _).
    pose proof (surjective_pairing (includeSource 2 0 (VStr "partial") w)) as Erun.
    rewrite E in Erun. exact (Hdone s _ Erun).
  - destruct (include_pops_on_success_only 2 0 (VStr "partial") w1 t1 Hw1 Ht1)
      as (_ & Hdone & _).
    pose proof (surjective_pairing
                  (runtime_include (call 2) 2 0 VUndef (VStr "partial") VUndef w1)) as Erun.
    rewrite E1 in Erun.
    destruct (Hdone VUndef VUndef r _ Erun)
      as (v & func & wa & wb & _ & Hinc & _ & Hcall & _ & _ & _ & Hiff).
    apply Hiff.
    assert (Hwa : wa = snd (includeFile 2 0 (VStr "partial") w1)) by (by rewrite Hinc).
    assert (Hfunc : func = match fst (includeFile 2 0 (VStr "partial") w1) with
                           | Done f => f
                           | _ => FnHost ""
                           end) by (by rewrite Hinc).
    assert (Hwb : wb = snd (call 2 func (include_locals VUndef VUndef)
                              (Opts.escapeFunction (opts t1)) (Some (0%nat, VUndef)) wa))
      by (by rewrite Hcall).
    rewrite Hwb, Hfunc, Hwa. vm_compute. reflexivity.
Defined.

(** C2 as stated fails: the include of a file that cannot be read raises,
    and the entry that was pushed for it stays on the path stack, at compile
    time and in the closure that renders.  When the included template
    catches such an error of an include of its own, its include returns,
    and still the stack is not as it was: the one pop takes the entry that
    was left behind, and the entry of the include stays. *)
Lemma include_error_keeps_entry :
  (let w := template_a "<% include missing %>" in
   stack_of 0 w = [VStr "/views/a.ejs"] /\
   (exists e, fst (includeSource 1 0 (VStr "missing") w) = Raise e) /\
   stack_of 0 (snd (includeSource 1 0 (VStr "missing") w)) =
     [VStr "/views/a.ejs"; VStr "/views/missing.ejs"]) /\
  (let w1 := snd (compiled_a "<%- include('missing') %>") in
   fst (compiled_a "<%- include('missing') %>") = Done (FnTemplate 0) /\
   stack_of 0 w1 = [VStr "/views/a.ejs"] /\
   (exists e, fst (call 3 (FnTemplate 0) VUndef VUndef None w1) = Raise e) /\
   stack_of 0 (snd (call 3 (FnTemplate 0) VUndef VUndef None w1)) =
     [VStr "/views/a.ejs"; VStr "/views/missing.ejs"]) /\
  (let w1 := snd (compiled_with_b "<%- include('b') %>") in
   fst (compiled_with_b "<%- include('b') %>") = Done (FnTemplate 0) /\
   stack_of 0 w1 = [VStr "/views/a.ejs"] /\
   fst (call 4 (FnTemplate 0) VUndef VUndef None w1) = Done (VStr "ok") /\
   stack_of 0 (snd (call 4 (FnTemplate 0) VUndef VUndef None w1)) =
     [VStr "/views/a.ejs"; VStr "/views/b.ejs"]).
Proof.
  split; [|split].
  - cbv zeta. split; [vm_compute; reflexivity|].
    split; [apply Raise_check|]; vm_compute; reflexivity.
  - cbv zeta. split; [vm_compute; reflexivity|]. split; [vm_compute; reflexivity|].
    split; [apply Raise_check|]; vm_compute; reflexivity.
  - cbv zeta. split; [vm_compute; reflexivity|]. split; [vm_compute; reflexivity|].
    split; vm_compute; reflexivity.
Qed.

(** ** The cache: what source generation and rendering leave alone *)

Lemma quiet_ret {A} (a : A) : quiet (ret a).
Proof. by intros w. Qed.

Lemma quiet_raise {A} (e : exn) : quiet (@raise A e).
Proof. by intros w. Qed.

Lemma quiet_beyond {A} (why : limit) : quiet (@beyond A why).
Proof. by intros w. Qed.

Lemma quiet_lift {A} (r : result A) : quiet (lift r).
Proof. by intros w. Qed.

Lemma quiet_gets {A} (f : World -> A) : quiet (gets f).
Proof. by intros w. Qed.

Lemma quiet_bind {A B} (c : M A) (k : A -> M B) :
  quiet c -> (forall a, quiet (k a)) -> quiet (bind c k).
Proof.
  intros Hc Hk w. unfold bind. specialize (Hc w).
  destruct (c w) as [[a|e|why] w1]; [|done..].
  rewrite <- Hc. apply Hk.
Qed.

Lemma quiet_catch {A} (c : M A) (h : exn -> M A) :
  quiet c -> (forall e, quiet (h e)) -> quiet (catch c h).
Proof.
  intros Hc Hh w. unfold catch. specialize (Hc w).
  destruct (c w) as [[a|e|why] w1]; [done| |done].
  rewrite <- Hc. apply Hh.
Qed.

Lemma quiet_this_template this : quiet (this_template this).
Proof. intros w. unfold this_template. by destruct (templates w !! this). Qed.

Lemma quiet_update_template this f : quiet (update_template this f).
Proof. by intros w. Qed.

Lemma quiet_readFile filename : quiet (readFile filename).
Proof.
  intros w. unfold readFile. destruct filename; try done.
  by destruct (files w !! s).
Qed.

Lemma quiet_cache_get filename : quiet (cache_get filename).
Proof. by intros w. Qed.

Lemma quiet_cache_set filename f : quiet (cache_set filename f).
Proof. by intros w. Qed.

(** One step of a proof that a computation is quiet: the rule for the head
    of the computation, or a case analysis on what it branches on. *)
Ltac quiet_step :=
  lazymatch goal with
  | |- quiet (bind _ _) => apply quiet_bind; [|intros ?]
  | |- quiet (ret _) => apply quiet_ret
  | |- quiet (raise _) => apply quiet_raise
  | |- quiet (beyond _) => apply quiet_beyond
  | |- quiet (lift _) => apply quiet_lift
  | |- quiet (gets _) => apply quiet_gets
  | |- quiet (this_template _) => apply quiet_this_template
  | |- quiet (update_template _ _) => apply quiet_update_template
  | |- quiet (readFile _) => apply quiet_readFile
  | |- quiet (cache_get _) => apply quiet_cache_get
  | |- quiet (cache_set _ _) => apply quiet_cache_set
  | |- quiet (catch _ _) => apply quiet_catch; [|intros ?]
  | |- quiet (if ?b then _ else _) => destruct b
  | |- quiet (match ?x with _ => _ end) => destruct x
  | |- quiet (let '(_, _) := ?x in _) => destruct x
  end.

Ltac quiet_auto := repeat quiet_step; try assumption; try done.

Section QuietGenerate.

Variable gen : val -> val -> M string.
Hypothesis quiet_gen : forall template filename, quiet (gen template filename).

Lemma quiet_include_target this path : quiet (include_target this path).
Proof. unfold include_target. quiet_auto. Qed.

Lemma quiet_include_fetch this path o filename key depFunc :
  quiet (include_fetch gen this path o filename key depFunc).
Proof.
  unfold include_fetch. apply quiet_bind; [unfold dep_function; quiet_auto|].
  clear depFunc. intros depFunc. quiet_auto; apply quiet_gen.
Qed.

Lemma quiet_includeFile_with this path : quiet (includeFile_with gen this path).
Proof.
  unfold includeFile_with. quiet_auto;
    first [apply quiet_include_target|apply quiet_include_fetch].
Qed.

Lemma quiet_includeSource_with this path :
  quiet (includeSource_with (includeFile_with gen this) this path).
Proof. unfold includeSource_with. quiet_auto. apply quiet_includeFile_with. Qed.

Lemma quiet_replacer this o co x line :
  quiet (replacer o co (includeSource_with (includeFile_with gen this) this)
                  (includeFile_with gen this) x line).
Proof.
  unfold replacer. quiet_auto;
    first [apply quiet_includeSource_with|apply quiet_includeFile_with].
Qed.

Lemma quiet_replace_tags (f : found -> Z -> M (string * Z)) ps line :
  (forall x line, quiet (f x line)) -> quiet (replace_tags f ps line).
Proof.
  intros Hf. revert line. induction ps as [|[t|x] ps IH]; intros line; cbn [replace_tags].
  - apply quiet_ret.
  - apply quiet_bind; [apply IH|intros; apply quiet_ret].
  - apply quiet_bind; [apply Hf|]. intros r.
    apply quiet_bind; [apply IH|intros; apply quiet_ret].
Qed.

Lemma quiet_generateSource_with this template filename :
  quiet (generateSource_with (includeSource_with (includeFile_with gen this) this)
                             (includeFile_with gen this) this template filename).
Proof.
  unfold generateSource_with. quiet_auto.
  all: apply quiet_replace_tags; intros; apply quiet_replacer.
Qed.

End QuietGenerate.

Lemma quiet_generateSource fuel this template filename :
  quiet (generateSource fuel this template filename).
Proof.
  revert template filename. induction fuel as [|fuel IH]; intros template filename.
  - apply quiet_beyond.
  - cbn [generateSource]. apply quiet_generateSource_with. exact IH.
Qed.

Lemma quiet_includeFile fuel this path : quiet (includeFile fuel this path).
Proof. apply quiet_includeFile_with, quiet_generateSource. Qed.

Lemma quiet_precompile_all (f : val -> M jsfunc) l :
  (forall p, quiet (f p)) -> quiet (precompile_all f l).
Proof.
  intros Hf. induction l as [|p l IH]; cbn [precompile_all]; [apply quiet_ret|].
  apply quiet_bind; [apply Hf|intros; apply IH].
Qed.

Lemma bind_Done_inv {A B} (c : M A) (k : A -> M B) w b w' :
  bind c k w = (Done b, w') ->
  exists a w1, c w = (Done a, w1) /\ k a w1 = (Done b, w').
Proof.
  unfold bind. destruct (c w) as [[a|e|why] w1]; [|done..]. intros H. by exists a, w1.
Qed.

Lemma Template_compile_ambient fuel this w :
  ambient (snd (Template_compile fuel this w)) = ambient (count_compilation w).
Proof.
  unfold Template_compile. unfold bind at 1, modify at 1.
  match goal with |- ambient (snd (?c (count_compilation w))) = _ =>
    assert (Hq : quiet c); [|apply Hq] end.
  quiet_auto.
  - apply quiet_generateSource.
  - apply quiet_precompile_all. intros. apply quiet_includeFile.
Qed.

Lemma scope_compat_spec (o : gmap string val) (w : World) :
  exists o',
    scope_compat (VObj o) w =
      (Done (VObj o'), if truthy (get o "scope") then set_scopeOptionWarned true w else w) /\
    (forall p, p <> "scope" -> p <> "context" -> get o' p = get o p).
Proof.
  unfold scope_compat. cbn [truthy members andb].
  destruct (truthy (get o "scope")).
  - eexists. split; [reflexivity|]. intros p Hs Hc. unfold get.
    rewrite lookup_delete_ne by done.
    destruct (truthy (default VUndef (o !! "context"))); [done|].
    by rewrite lookup_insert_ne.
  - exists o. by split.
Qed.

Lemma set_scopeOptionWarned_id (w : World) :
  scopeOptionWarned w = true -> set_scopeOptionWarned true w = w.
Proof. destruct w. cbn. by intros ->. Qed.

(** A compile that finds the function in the cache returns it and changes
    nothing but, at most, the deprecation flag. *)
Lemma compile_hit fuel template (o : gmap string val) fn w :
  truthy (get o "cache") = true ->
  truthy (get o "filename") = true ->
  truthy (get o "usePages") = false ->
  cache w !! to_string (get o "filename") = Some fn ->
  compile fuel template (VObj o) w =
    (Done fn, if truthy (get o "scope") then set_scopeOptionWarned true w else w).
Proof.
  intros Hcache Hfile Hpages Hhit.
  destruct (scope_compat_spec o w) as (o' & Hsc & Hget).
  unfold compile. unfold bind at 1. rewrite Hsc. cbn [members truthy andb].
  rewrite (Hget "usePages"), (Hget "cache"), (Hget "filename") by done.
  rewrite Hpages, Hcache, Hfile. cbn [negb andb].
  unfold bind at 1, cache_get, gets.
  replace (cache (if truthy (get o "scope") then set_scopeOptionWarned true w else w))
    with (cache w) by (by destruct (truthy (get o "scope"))).
  by rewrite Hhit.
Qed.

(** C8. When a compile with the cache enabled, a filename and no static
    page map returns, the function it returns is in the cache under that
    filename; a second compile with the same options finds it there,
    returns that very function and compiles nothing, so the two compiles
    together run the template compilation at most once, and exactly once
    when the filename was not cached before. *)
Theorem compile_twice_compiles_once
    (fuel fuel' : nat) (template template' : val) (o : gmap string val)
    (fn : jsfunc) (w w1 : World) :
  truthy (get o "cache") = true ->
  truthy (get o "filename") = true ->
  truthy (get o "usePages") = false ->
  compile fuel template (VObj o) w = (Done fn, w1) ->
  cache w1 !! to_string (get o "filename") = Some fn /\
  compile fuel' template' (VObj o) w1 = (Done fn, w1) /\
  (compilations w1 <= S (compilations w))%nat /\
  (cache w !! to_string (get o "filename") = None ->
   compilations w1 = S (compilations w)).
Proof.
  intros Hcache Hfile Hpages H.
  set (wf := if truthy (get o "scope") then set_scopeOptionWarned true w else w).
  assert (Hwf : scopeOptionWarned wf = true \/ truthy (get o "scope") = false).
  { subst wf. destruct (truthy (get o "scope")); [by left|by right]. }
  assert (Hcf : cache wf = cache w) by (subst wf; by destruct (truthy (get o "scope"))).
  assert (Hnf : compilations wf = compilations w)
    by (subst wf; by destruct (truthy (get o "scope"))).
  assert (Hagain : forall w2, scopeOptionWarned w2 = scopeOptionWarned wf ->
            (if truthy (get o "scope") then set_scopeOptionWarned true w2 else w2) = w2).
  { intros w2 Hflag. destruct Hwf as [Hwf|Hwf]; [|by rewrite Hwf].
    destruct (truthy (get o "scope")); [|done].
    apply set_scopeOptionWarned_id. congruence. }
  destruct (cache w !! to_string (get o "filename")) as [fn0|] eqn:Hc.
  - rewrite (compile_hit fuel template o fn0 w Hcache Hfile Hpages Hc) in H.
    fold wf in H. injection H as <- <-.
    assert (Hc' : cache wf !! to_string (get o "filename") = Some fn0) by congruence.
    split; [exact Hc'|]. split; [|split; [lia|done]].
    rewrite (compile_hit fuel' template' o fn0 wf Hcache Hfile Hpages Hc').
    by rewrite Hagain.
  - destruct (scope_compat_spec o w) as (o' & Hsc & Hget).
    unfold compile in H. apply bind_Done_inv in H as (opts' & w0 & H0 & H).
    rewrite Hsc in H0. injection H0 as <- <-. fold wf in H.
    cbn [members truthy andb] in H.
    rewrite (Hget "usePages"), (Hget "cache"), (Hget "filename") in H by done.
    rewrite Hpages, Hcache, Hfile in H. cbn [negb andb] in H.
    apply bind_Done_inv in H as (cached & w0 & H0 & H).
    unfold cache_get, gets in H0. injection H0 as <- <-. rewrite Hcf, Hc in H.
    apply bind_Done_inv in H as (tpl & wa & Ha & H).
    apply bind_Done_inv in H as (this & wb & Hb & H).
    apply bind_Done_inv in H as (fn' & wc & Hcomp & H).
    apply bind_Done_inv in H as (u & wd & Hd & H).
    injection H as <- <-.
    unfold cache_set, modify in Hd. injection Hd as _ <-.
    assert (Hqa : ambient wa = ambient wf).
    { match type of Ha with
      | ?c wf = _ => assert (Hq : quiet c) by quiet_auto; specialize (Hq wf)
      end.
      by rewrite Ha in Hq. }
    assert (Hqb : ambient wb = ambient wa).
    { unfold new_Template in Hb. by injection Hb as _ <-. }
    pose proof (Template_compile_ambient fuel this wb) as Hqc. rewrite Hcomp in Hqc.
    cbn [snd] in Hqc.
    assert (Hflag : scopeOptionWarned wc = scopeOptionWarned wf).
    { unfold ambient in *. cbn in Hqc. congruence. }
    assert (Hcount : compilations wc = S (compilations w)).
    { unfold ambient in *. cbn in Hqc. congruence. }
    assert (Hc1 : cache (set_cache (<[to_string (get o "filename") := fn']> (cache wc)) wc)
                    !! to_string (get o "filename") = Some fn')
      by (cbn; apply lookup_insert_eq).
    split; [exact Hc1|]. split; [|split; [cbn; lia|intros _; exact Hcount]].
    rewrite (compile_hit fuel' template' o fn' _ Hcache Hfile Hpages Hc1).
    by rewrite Hagain.
Qed.

Lemma compile_twice_compiles_once_witness :
  exists fn w1,
    compile 2 (VStr "hello") (VObj cached_opts) w0 = (Done fn, w1) /\
    compile 2 VUndef (VObj cached_opts) w1 = (Done fn, w1) /\
    compilations w1 = 1%nat.
Proof.
  destruct (compile 2 (VStr "hello") (VObj cached_opts) w0) as [[fn|e|why] w1] eqn:E;
    [|vm_compute in E; discriminate E..].
  exists fn, w1. split; [reflexivity|].
  destruct (compile_twice_compiles_once 2 2 (VStr "hello") VUndef cached_opts fn w0 w1)
    as (_ & Hsecond & _ & Hcount); [vm_compute; reflexivity..|exact E|].
  split; [exact Hsecond|]. apply Hcount. vm_compute. reflexivity.
Defined.

(** ** Regular expressions: literals, and stars before a literal *)

Lemma m_str {R} (lit : string) prev s c
    (k : option ascii -> string -> caps -> option R) :
  m R (str lit) prev s c k =
  match Loader.expect lit s with
  | Some rest => k (skip_prev (fun _ => true) prev lit) rest c
  | None => None
  end.
Proof.
  revert prev s. induction lit as [|a lit IH]; intros prev s; [reflexivity|].
  cbn [str m Loader.expect skip_prev]. destruct s as [|b s]; [reflexivity|].
  destruct (Ascii.eqb_spec a b) as [<-|]; [apply IH|reflexivity].
Qed.

(** When the rest of the pattern cannot start with a character of the
    class, only the longest run of the star can be followed by it. *)
Lemma greedy_run_longest {R} (p : ascii -> bool) prev s c
    (k : option ascii -> string -> caps -> option R) :
  (forall prev' a s' c', p a = true -> k prev' (String a s') c' = None) ->
  greedy_run p k prev s c = k (skip_prev p prev s) (drop_while p s) c.
Proof.
  intros Hk. revert prev. induction s as [|a s IH]; intros prev; [reflexivity|].
  cbn [greedy_run drop_while skip_prev]. destruct (p a) eqn:Hp; [|reflexivity].
  rewrite IH. destruct (k _ (drop_while p s) c); [reflexivity|]. by apply Hk.
Qed.

Lemma expect_starts_with (lit s : string) :
  Text.starts_with lit s = match Loader.expect lit s with Some _ => true | None => false end.
Proof.
  revert s. induction lit as [|a lit IH]; intros s; [reflexivity|].
  destruct s as [|b s]; [reflexivity|]. cbn [Text.starts_with Loader.expect].
  destruct (Ascii.eqb a b); [apply IH|reflexivity].
Qed.

(** The equations of the matcher. *)
Lemma m_Seq {R} r1 r2 prev s c (k : option ascii -> string -> caps -> option R) :
  m R (Seq r1 r2) prev s c k = m R r1 prev s c (fun prev' s' c' => m R r2 prev' s' c' k).
Proof. reflexivity. Qed.

Lemma m_Alt {R} r1 r2 prev s c (k : option ascii -> string -> caps -> option R) :
  m R (Alt r1 r2) prev s c k =
  match m R r1 prev s c k with Some x => Some x | None => m R r2 prev s c k end.
Proof. reflexivity. Qed.

Lemma m_Group {R} i r prev s c (k : option ascii -> string -> caps -> option R) :
  m R (Group i r) prev s c k =
  m R r prev s c (fun prev' s' c' => k prev' s' ((i, consumed s s') :: c')).
Proof. reflexivity. Qed.

Lemma m_Bol {R} ml prev s c (k : option ascii -> string -> caps -> option R) :
  m R (Bol ml) prev s c k = if at_bol ml prev then k prev s c else None.
Proof. reflexivity. Qed.

(** ** Line 580, for every content *)

Lemma exec_undefined_or_null (prev : option ascii) (s : string) :
  match exec_at undefined_or_null prev s with
  | Some _ => true
  | None => false
  end =
  (match prev with None => Text.starts_with "undefined" (drop_while is_space s) | Some _ => false end)
  || Text.starts_with "null" s.
Proof.
  unfold exec_at, undefined_or_null.
  change (seq [Bol false; Star true ws; Group 1 (str "undefined")])
    with (Seq (Bol false) (Seq (Star true (Chr is_space)) (Group 1 (str "undefined")))).
  change (seq [Group 2 (str "null"); Star true ws])
    with (Seq (Group 2 (str "null")) (Star true (Chr is_space))).
  rewrite m_Alt, !m_Seq, m_Bol, m_Group. cbv beta.
  assert (Hnull :
            match m found (str "null") prev s []
                    (fun prev' s' c' =>
                       m found (Star true (Chr is_space)) prev' s' ((2%nat, consumed s s') :: c')
                         (fun prev'' s'' c'' => Some (mkFound (consumed s s'') c'' prev'' s'')))
            with Some _ => true | None => false end = Text.starts_with "null" s).
  { rewrite m_str, expect_starts_with.
    destruct (Loader.expect "null" s) as [rest|]; [|reflexivity].
    rewrite m_star_greedy_chr. by rewrite greedy_run_total by (intros; by eexists). }
  destruct prev as [a|]; cbn [at_bol andb is_line_terminator orb].
  - exact Hnull.
  - rewrite m_Seq, m_star_greedy_chr, greedy_run_longest.
    + rewrite m_Group, m_str. rewrite (expect_starts_with "undefined").
      destruct (Loader.expect "undefined" (drop_while is_space s)); [reflexivity|].
      cbn [orb]. exact Hnull.
    + intros prev' a s' c' Ha. rewrite m_Group, m_str.
      cbn [Loader.expect]. destruct (Ascii.eqb_spec "u" a) as [<-|]; [discriminate Ha|reflexivity].
Qed.

Lemma search_undefined_or_null (a : ascii) (s : string) :
  match search undefined_or_null (Some a) s with
  | Some _ => true
  | None => false
  end = Text.contains "null" s.
Proof.
  revert a. induction s as [|b s IH]; intros a.
  - pose proof (exec_undefined_or_null (Some a) "") as H.
    cbn [search]. by destruct (exec_at undefined_or_null (Some a) "").
  - pose proof (exec_undefined_or_null (Some a) (String b s)) as H.
    cbn [search Text.contains].
    destruct (exec_at undefined_or_null (Some a) (String b s)).
    + cbn [orb] in H. by rewrite <- H.
    + cbn [orb] in H. rewrite <- H. cbn [orb]. rewrite <- (IH b).
      by destruct (search undefined_or_null (Some b) s) as [[? ?]|].
Qed.

(** What line 580 decides: the content is rewritten to the empty string
    literal when, after leading whitespace, it starts with [undefined], or
    when [null] occurs anywhere in it. *)
Lemma test_undefined_or_null (content : string) :
  test undefined_or_null content =
  Text.starts_with "undefined" (drop_while is_space content) || Text.contains "null" content.
Proof.
  destruct content as [|b s]; [vm_compute; reflexivity|].
  unfold test. pose proof (exec_undefined_or_null None (String b s)) as H.
  cbn [search Text.contains].
  - destruct (exec_at undefined_or_null None (String b s)).
    + symmetry in H. apply orb_true_iff in H as [->| ->]; [reflexivity|].
      by rewrite orb_true_r.
    + symmetry in H. apply orb_false_iff in H as [-> ->]. cbn [orb].
      rewrite <- (search_undefined_or_null b s).
      by destruct (search undefined_or_null (Some b) s) as [[? ?]|].
Qed.

Lemma normalize_content_spec (content : string) :
  normalize_content content =
  if Text.starts_with "undefined" (drop_while is_space content) || Text.contains "null" content
  then String SQ (String SQ "") else content.
Proof. unfold normalize_content. by rewrite test_undefined_or_null. Qed.

(** C3 (the code, for every content and at the failing input). Line 580
    rewrites a fragment to the empty string literal when its content
    starts, after leading whitespace, with [undefined], or holds [null]
    anywhere, and leaves every other content as it is.  The content
    [nullable] is neither [undefined] nor [null], yet it is rewritten, and
    the value of [nullable] in the data is not printed. *)
Theorem undefined_null_rewrites_nullable :
  (forall content,
     normalize_content content =
       if Text.starts_with "undefined" (drop_while is_space content)
          || Text.contains "null" content
       then String SQ (String SQ "") else content) /\
  test undefined_or_null "nullable" = true /\
  normalize_content "nullable" = String SQ (String SQ "") /\
  normalize_content "undefinedValue" = String SQ (String SQ "") /\
  normalize_content "user.name" = "user.name" /\
  rendered "<%= nullable %>" (VObj {["nullable" := VStr "yes"]}) = Done (VStr "").
Proof.
  split; [exact normalize_content_spec|].
  repeat split; vm_compute; reflexivity.
Qed.

(** ** Global replacement, piece by piece *)

Lemma concat_cons (x : string) (l : list string) :
  String.concat "" (x :: l) = x +:+ String.concat "" l.
Proof. destruct l; [by rewrite append_nil_r|reflexivity]. Qed.

Lemma replace_all_pieces r f s :
  replace_all r f s = String.concat "" (List.map (piece_text f) (pieces r s)).
Proof. reflexivity. Qed.

Lemma consumed_one (a : ascii) (s : string) : consumed (String a s) s = String a "".
Proof.
  unfold consumed. cbn [String.length].
  replace (S (String.length s) - String.length s)%nat with 1%nat by lia. reflexivity.
Qed.

(** A position at which the pattern does not match is passed over. *)
Lemma scan_skip r f n prev a s :
  exec_at r prev (String a s) = None ->
  String.concat "" (List.map (piece_text f) (scan (S n) r prev (String a s))) =
  String a (String.concat "" (List.map (piece_text f) (scan (S n) r (Some a) s))).
Proof.
  intros Hno. cbn [scan search]. rewrite Hno.
  destruct (search r (Some a) s) as [[skipped x]|]; [|reflexivity].
  destruct (f_match x), (f_rest x); cbn [List.map]; rewrite !concat_cons; reflexivity.
Qed.

(** A pattern that matches single characters of a class replaces character
    by character. *)
Lemma replace_all_class r (p : ascii -> bool) (f : found -> string) (g : ascii -> string) s :
  (forall prev, exec_at r prev "" = None) ->
  (forall prev a s', p a = false -> exec_at r prev (String a s') = None) ->
  (forall prev a s', p a = true ->
     exists x, exec_at r prev (String a s') = Some x /\
               f_match x = String a "" /\ f_rest x = s' /\ f x = g a) ->
  replace_all r f s = subst_chars (fun a => if p a then g a else String a "") s.
Proof.
  intros Hnil Hno Hyes. rewrite replace_all_pieces. unfold pieces.
  generalize (@None ascii) as prev.
  assert (Hlen : (String.length s < S (String.length s))%nat) by lia.
  revert Hlen. generalize (S (String.length s)) as n.
  induction s as [|a s IH]; intros n Hlen prev.
  - destruct n as [|n]; [cbn in Hlen; lia|]. cbn [scan search]. by rewrite Hnil.
  - destruct n as [|n]; [cbn in Hlen; lia|]. cbn [String.length] in Hlen.
    cbn [subst_chars]. destruct (p a) eqn:Hp.
    + destruct (Hyes prev a s Hp) as (x & Hx & Hm & Hr & Hf).
      cbn [scan search]. rewrite Hx, Hm, Hr. cbn [List.map piece_text].
      rewrite !concat_cons, Hf. change ("" +:+ ?y) with y. f_equal.
      apply IH. lia.
    + rewrite scan_skip by (by apply Hno). rewrite IH by lia. reflexivity.
Qed.

Lemma exec_at_Chr p prev s :
  exec_at (Chr p) prev s =
  match s with
  | String a s' => if p a then Some (mkFound (String a "") [] (Some a) s') else None
  | "" => None
  end.
Proof.
  destruct s as [|a s]; [reflexivity|]. unfold exec_at. cbn [m].
  by rewrite consumed_one.
Qed.

Lemma replace_all_chr (c : ascii) (f : found -> string) (t : string) s :
  (forall x, f_match x = String c "" -> f x = t) ->
  replace_all (chr c) f s = subst_chars (fun a => if Ascii.eqb c a then t else String a "") s.
Proof.
  intros Hf. apply (replace_all_class (chr c) (Ascii.eqb c) f (fun _ => t)).
  - intros prev. reflexivity.
  - intros prev a s' Hp. unfold chr. by rewrite exec_at_Chr, Hp.
  - intros prev a s' Hp. unfold chr. rewrite exec_at_Chr, Hp.
    eexists. split; [reflexivity|]. cbn. repeat split.
    apply Hf. cbn. apply Ascii.eqb_eq in Hp. by subst.
Qed.

Lemma subst_chars_app g (x y : string) :
  subst_chars g (x +:+ y) = subst_chars g x +:+ subst_chars g y.
Proof.
  induction x as [|a x IH]; [reflexivity|].
  rewrite append_cons. cbn [subst_chars]. by rewrite IH, append_assoc.
Qed.

Lemma subst_chars_compose g g' (s : string) :
  subst_chars g (subst_chars g' s) = subst_chars (fun a => subst_chars g (g' a)) s.
Proof.
  induction s as [|a s IH]; [reflexivity|].
  cbn [subst_chars]. by rewrite subst_chars_app, IH.
Qed.

Lemma subst_chars_ext g g' (s : string) :
  (forall a, g a = g' a) -> subst_chars g s = subst_chars g' s.
Proof. intros H. induction s as [|a s IH]; [reflexivity|]. cbn [subst_chars]. by rewrite H, IH. Qed.

(** Lines 516-521, character by character. *)
Lemma escape_template_chars (text : string) :
  escape_template false text = subst_chars escape_template_char text.
Proof.
  unfold escape_template.
  rewrite (replace_all_chr CR _ esc_r) by done.
  rewrite (replace_all_chr LF _ esc_n) by done.
  rewrite (replace_all_class quote_or_backslash
             (fun a => Ascii.eqb a SQ || Ascii.eqb a BS)
             _ (fun a => String BS (String a ""))).
  - rewrite !subst_chars_compose. apply subst_chars_ext. intros a.
    unfold escape_template_char.
    destruct (Ascii.eqb_spec a SQ) as [->|Hq]; [reflexivity|].
    destruct (Ascii.eqb_spec a BS) as [->|Hb]; [reflexivity|].
    cbn [orb subst_chars]. rewrite append_nil_r.
    rewrite (Ascii.eqb_sym LF a).
    destruct (Ascii.eqb_spec a LF) as [->|Hl]; [reflexivity|].
    cbn [subst_chars]. rewrite append_nil_r, (Ascii.eqb_sym CR a).
    destruct (Ascii.eqb_spec a CR) as [->|Hc]; reflexivity.
  - intros prev. reflexivity.
  - intros prev a s' Hp. apply orb_false_iff in Hp as [Hq Hb].
    unfold exec_at, quote_or_backslash, chr. cbn [m].
    by rewrite (Ascii.eqb_sym SQ a), (Ascii.eqb_sym BS a), Hq, Hb.
  - intros prev a s' Hp.
    unfold exec_at, quote_or_backslash, chr. cbn [m].
    rewrite (Ascii.eqb_sym SQ a), (Ascii.eqb_sym BS a), consumed_one.
    destruct (Ascii.eqb a SQ); [by eexists|].
    cbn [orb] in Hp. rewrite Hp. by eexists.
Qed.

Lemma lex_string_escaped (text rest : string) :
  Loader.lex_string SQ (subst_chars escape_template_char text +:+ String SQ rest) =
  Loader.POk text rest.
Proof.
  induction text as [|a text IH].
  - reflexivity.
  - cbn [subst_chars]. rewrite append_assoc. unfold escape_template_char at 1.
    destruct (Ascii.eqb_spec a SQ) as [->|Hq].
    { cbn [orb]. rewrite !append_cons. change ("" +:+ ?y) with y.
      cbn [Loader.lex_string]. rewrite IH. reflexivity. }
    destruct (Ascii.eqb_spec a BS) as [->|Hb].
    { cbn [orb]. rewrite !append_cons. change ("" +:+ ?y) with y.
      cbn [Loader.lex_string]. rewrite IH. reflexivity. }
    cbn [orb].
    destruct (Ascii.eqb_spec a LF) as [->|Hl].
    { unfold esc_n. rewrite !append_cons. change ("" +:+ ?y) with y.
      cbn [Loader.lex_string]. rewrite IH. reflexivity. }
    destruct (Ascii.eqb_spec a CR) as [->|Hc].
    { unfold esc_r. rewrite !append_cons. change ("" +:+ ?y) with y.
      cbn [Loader.lex_string]. rewrite IH. reflexivity. }
    rewrite !append_cons. change ("" +:+ ?y) with y.
    cbn [Loader.lex_string]. rewrite IH.
    destruct (Ascii.eqb_spec a SQ); [done|].
    destruct (Ascii.eqb_spec a BS); [done|].
    unfold is_line_terminator.
    destruct (Ascii.eqb_spec a LF); [done|]. destruct (Ascii.eqb_spec a CR); [done|].
    reflexivity.
Qed.

Lemma m_Chr {R} p prev s c (k : option ascii -> string -> caps -> option R) :
  m R (Chr p) prev s c k =
  match s with
  | String a s' => if p a then k (Some a) s' c else None
  | "" => None
  end.
Proof. by destruct s. Qed.

Lemma m_Eps {R} prev s c (k : option ascii -> string -> caps -> option R) :
  m R Eps prev s c k = k prev s c.
Proof. reflexivity. Qed.

(** A greedy star before a pattern that fails wherever the star may stop. *)
Lemma greedy_run_none {R} (p q : ascii -> bool) prev s c
    (k : option ascii -> string -> caps -> option R) :
  (forall prev' s' c', all_chars q s' = true -> k prev' s' c' = None) ->
  all_chars q s = true -> greedy_run p k prev s c = None.
Proof.
  intros Hk. revert prev. induction s as [|a s IH]; intros prev Hs.
  - by apply Hk.
  - cbn [greedy_run]. pose proof Hs as Hs'. cbn [all_chars] in Hs'.
    apply andb_true_iff in Hs' as [_ Hs'].
    destruct (p a); [|by apply Hk]. rewrite IH by done. by apply Hk.
Qed.

Lemma no_percent_cons a s : no_percent (String a s) = true -> a <> "%"%char /\ no_percent s = true.
Proof.
  unfold no_percent. cbn [all_chars]. intros [Ha Hs]%andb_true_iff. split; [|done].
  intros ->. done.
Qed.

(** The tag pattern needs the delimiter. *)
Lemma tag_no_percent {R} (dbg : bool) prev s c
    (k : option ascii -> string -> caps -> option R) :
  no_percent s = true ->
  m R (tag_regex "%" dbg) prev s c k =
  if dbg then m R (str esc_n) prev s c k else None.
Proof.
  intros Hs.
  assert (Htag : forall k' : option ascii -> string -> caps -> option R,
            m R (tag_regex "%" false) prev s c k' = None).
  { intros k'. unfold tag_regex, around. cbn [seq]. rewrite m_Group, m_Seq, m_Group, m_star_greedy_chr.
    apply (greedy_run_none _ (fun a => negb (Ascii.eqb a "%"))); [|exact Hs].
    intros prev' s' c' Hs'. rewrite m_Seq, m_Group. cbn [str]. rewrite m_Seq.
    unfold chr. rewrite m_Chr. destruct s' as [|a s']; [reflexivity|].
    destruct (Ascii.eqb "<" a); [|reflexivity].
    apply no_percent_cons in Hs' as [_ Hs'].
    rewrite !m_Seq, m_Chr. destruct s' as [|b s']; [reflexivity|].
    apply no_percent_cons in Hs' as [Hb _].
    destruct (Ascii.eqb_spec "%" b) as [<-|]; [done|reflexivity]. }
  destruct dbg; [|apply Htag].
  change (tag_regex "%" true) with (Alt (tag_regex "%" false) (str esc_n)).
  by rewrite m_Alt, Htag.
Qed.

Lemma literal_no_percent {R} prev s c
    (k : option ascii -> string -> caps -> option R) :
  no_percent s = true -> m R (literal_regex "%") prev s c k = None.
Proof.
  intros Hs. unfold literal_regex. cbn [seq str]. rewrite m_Alt, !m_Seq. unfold chr.
  rewrite !m_Chr. destruct s as [|a s]; [reflexivity|].
  apply no_percent_cons in Hs as [Ha Hs].
  destruct (Ascii.eqb_spec "%" a) as [<-|]; [done|].
  destruct (Ascii.eqb "<" a); [|reflexivity].
  rewrite !m_Seq, m_Chr. destruct s as [|b s]; [reflexivity|].
  apply no_percent_cons in Hs as [Hb _].
  destruct (Ascii.eqb_spec "%" b) as [<-|]; [done|reflexivity].
Qed.

Lemma search_none r (q : ascii -> bool) prev s :
  (forall prev' s', all_chars q s' = true -> exec_at r prev' s' = None) ->
  all_chars q s = true -> search r prev s = None.
Proof.
  intros Hno. revert prev. induction s as [|a s IH]; intros prev Hs.
  - cbn [search]. by rewrite Hno.
  - cbn [search]. rewrite Hno by done. cbn [all_chars] in Hs.
    apply andb_true_iff in Hs as [_ Hs]. by rewrite IH.
Qed.

Lemma replace_all_none r (q : ascii -> bool) f s :
  (forall prev' s', all_chars q s' = true -> exec_at r prev' s' = None) ->
  all_chars q s = true -> replace_all r f s = s.
Proof.
  intros Hno Hs. unfold replace_all, pieces. cbn [scan].
  by rewrite (search_none r q) by done.
Qed.

Lemma expect_Some (lit s rest : string) :
  Loader.expect lit s = Some rest -> s = lit +:+ rest.
Proof.
  revert s. induction lit as [|a lit IH]; intros s H.
  - cbn in H. by injection H as ->.
  - destruct s as [|b s]; [done|]. cbn [Loader.expect] in H.
    destruct (Ascii.eqb_spec a b) as [<-|]; [|done]. rewrite append_cons. f_equal. by apply IH.
Qed.

Lemma expect_app (lit s : string) : Loader.expect lit (lit +:+ s) = Some s.
Proof.
  induction lit as [|a lit IH]; [reflexivity|].
  rewrite append_cons. cbn [Loader.expect]. by rewrite Ascii.eqb_refl.
Qed.

Lemma str_length_app (x y : string) :
  String.length (x +:+ y) = (String.length x + String.length y)%nat.
Proof. induction x as [|a x IH]; [reflexivity|]. rewrite append_cons. cbn [String.length]. by rewrite IH. Qed.

Lemma consumed_app (x y : string) : consumed (x +:+ y) y = x.
Proof.
  unfold consumed. rewrite str_length_app.
  replace (String.length x + String.length y - String.length y)%nat with (String.length x) by lia.
  induction x as [|a x IH]; [by destruct y|].
  rewrite append_cons. cbn [String.length take_str]. by rewrite IH.
Qed.

Lemma exec_at_str (lit : string) prev s :
  exec_at (str lit) prev s =
  match Loader.expect lit s with
  | Some rest => Some (mkFound lit [] (skip_prev (fun _ => true) prev lit) rest)
  | None => None
  end.
Proof.
  unfold exec_at. rewrite m_str. destruct (Loader.expect lit s) as [rest|] eqn:E; [|reflexivity].
  apply expect_Some in E as ->. by rewrite consumed_app.
Qed.

Lemma all_chars_app_inv p (x y : string) :
  all_chars p (x +:+ y) = true -> all_chars p x = true /\ all_chars p y = true.
Proof. rewrite all_chars_app. apply andb_true_iff. Qed.

(** In a text without the delimiter the only matches of the tag pattern
    are the escaped line feeds. *)
Lemma search_tagfree prev s :
  no_percent s = true ->
  match search (tag_regex "%" true) prev s with
  | None => True
  | Some (sk, x) => f_match x = esc_n /\ s = sk +:+ esc_n +:+ f_rest x
  end.
Proof.
  revert prev. induction s as [|a s IH]; intros prev Hs.
  - cbn [search]. unfold exec_at. rewrite tag_no_percent by done. done.
  - cbn [search]. unfold exec_at at 1. rewrite tag_no_percent by done.
    fold (exec_at (str esc_n) prev (String a s)). rewrite exec_at_str.
    destruct (Loader.expect esc_n (String a s)) as [rest|] eqn:E.
    + apply expect_Some in E. cbn [f_match f_rest]. by rewrite E.
    + apply no_percent_cons in Hs as [_ Hs]. specialize (IH (Some a) Hs).
      destruct (search (tag_regex "%" true) (Some a) s) as [[sk x]|]; [|done].
      destruct IH as [Hm ->]. by rewrite append_cons.
Qed.

Lemma parseOptions_default : parseOptions default_opts = Some default_compiledOpts.
Proof. reflexivity. Qed.

Lemma all_chars_impl (p q : ascii -> bool) (s : string) :
  (forall a, p a = true -> q a = true) -> all_chars p s = true -> all_chars q s = true.
Proof.
  intros Hpq. induction s as [|a s IH]; [done|]. cbn [all_chars].
  intros [Ha Hs]%andb_true_iff. by rewrite (Hpq a Ha), IH.
Qed.

Lemma all_chars_subst (p : ascii -> bool) g (s : string) :
  (forall a, p a = true -> all_chars p (g a) = true) ->
  all_chars p s = true -> all_chars p (subst_chars g s) = true.
Proof.
  intros Hg. induction s as [|a s IH]; [done|]. cbn [all_chars subst_chars].
  intros [Ha Hs]%andb_true_iff. by rewrite all_chars_app, (Hg a Ha), IH.
Qed.

(** A replacement text without [$] stands for itself. *)
Lemma expand_no_dollar n (repl before after : string) x :
  no_dollar repl = true -> expand n repl before x after = repl.
Proof.
  unfold no_dollar. induction repl as [|a repl IH]; [reflexivity|]. cbn [all_chars expand].
  intros [Ha Hr]%andb_true_iff. apply negb_true_iff in Ha. by rewrite Ha, IH.
Qed.

Lemma json_char_no_dollar (a : ascii) :
  negb (Ascii.eqb a "$") = true -> no_dollar (json_char a) = true.
Proof. destruct a as [[] [] [] [] [] [] [] []]; intros H; try discriminate H; reflexivity. Qed.

Lemma json_quote_no_dollar (s : string) : no_dollar s = true -> no_dollar (json_quote s) = true.
Proof.
  intros Hs. unfold json_quote, no_dollar. rewrite !all_chars_app.
  apply andb_true_iff. split; [reflexivity|]. apply andb_true_iff. split; [|reflexivity].
  revert Hs. unfold no_dollar. induction s as [|a s IH]; [done|]. cbn [all_chars json_chars].
  intros [Ha Hs]%andb_true_iff. rewrite all_chars_app. apply andb_true_iff. split; [|by apply IH].
  by apply json_char_no_dollar.
Qed.

(** The host reads a character of a JSON string back as that character. *)
Lemma lex_json_char (a : ascii) (s : string) :
  json_plain a = true ->
  Loader.lex_string DQ (json_char a +:+ s) =
  Loader.pbind (Loader.lex_string DQ s) (fun t rest => Loader.POk (String a t) rest).
Proof. destruct a as [[] [] [] [] [] [] [] []]; intros H; try discriminate H; reflexivity. Qed.

Lemma lex_json_chars (text rest : string) :
  all_chars json_plain text = true ->
  Loader.lex_string DQ (json_chars text +:+ dq +:+ rest) = Loader.POk text rest.
Proof.
  induction text as [|a text IH]; [reflexivity|]. cbn [all_chars json_chars].
  intros [Ha Ht]%andb_true_iff. by rewrite append_assoc, lex_json_char, IH.
Qed.

Lemma escape_char_no_percent (a : ascii) :
  negb (Ascii.eqb a "%") = true -> no_percent (escape_template_char a) = true.
Proof. destruct a as [[] [] [] [] [] [] [] []]; intros H; try discriminate H; reflexivity. Qed.

Lemma escape_template_no_percent (text : string) :
  no_percent text = true -> no_percent (escape_template false text) = true.
Proof.
  intros H. rewrite escape_template_chars. apply all_chars_subst; [|exact H].
  apply escape_char_no_percent.
Qed.

(** The replacer on a text without tags: every escaped line feed is
    counted and kept, so the text comes back as it was. *)
Lemma replace_tags_tagfree o co iS iF n prev s line w :
  Opts.compileDebug o = true ->
  (String.length s < n)%nat -> no_percent s = true ->
  replace_tags (replacer o co iS iF) (scan n (tag_regex "%" true) prev s) line w = (Done s, w).
Proof.
  intros Hdbg. revert prev s line. induction n as [|n IH]; intros prev s line Hlen Hs; [lia|].
  cbn [scan]. pose proof (search_tagfree prev s Hs) as H.
  destruct (search (tag_regex "%" true) prev s) as [[sk x]|].
  - destruct H as [Hm Heq]. rewrite Hm. change esc_n with (String BS "n"). cbv iota.
    cbn [replace_tags]. unfold bind at 1. unfold bind at 1.
    assert (Hrep : replacer o co iS iF x line = ret (esc_n, line + 1)).
    { unfold replacer. rewrite Hdbg, Hm, String.eqb_refl. reflexivity. }
    rewrite Hrep. unfold ret at 1. cbn [fst snd].
    assert (Hparts : no_percent sk = true /\ no_percent (f_rest x) = true).
    { rewrite Heq in Hs. apply all_chars_app_inv in Hs as [? Hs].
      apply all_chars_app_inv in Hs as [_ ?]. done. }
    unfold bind. rewrite IH; [|rewrite Heq, !str_length_app in Hlen; cbn in Hlen; lia|apply Hparts].
    unfold ret. by rewrite Heq.
  - cbn [replace_tags]. unfold bind, ret. by rewrite append_nil_r.
Qed.

Lemma plain_text_parts (text : string) :
  plain_text text = true ->
  no_percent text = true /\ no_dollar text = true /\ all_chars json_plain text = true.
Proof. unfold plain_text. intros [[? ?]%andb_true_iff ?]%andb_true_iff. done. Qed.

(** Source generation for a text without tags, under the default
    options. *)
Lemma generateSource_literal iS iF this t text w :
  templates w !! this = Some t ->
  opts t = default_opts ->
  compiledOpts t = Some default_compiledOpts ->
  plain_text text = true ->
  generateSource_with iS iF this (VStr text) VUndef w = (Done (literal_source text), w).
Proof.
  intros Ht Ho Hco (Hp & Hd & _)%plain_text_parts.
  unfold generateSource_with, bind at 1, this_template. rewrite Ht, Hco, Ho.
  cbn [json_stringify].
  change (Opts.compileDebug default_opts) with true.
  change (truthy (Opts.rmWhitespace default_opts)) with false.
  cbv iota.
  set (P := replace_first (str "__filename__") (expand 0 "undefined") (co_prepended default_compiledOpts)).
  vm_compute in P. subst P.
  unfold replace_first.
  set (S := search (str "__template__") None _). vm_compute in S. subst S. cbv iota beta.
  cbn [f_rest].
  rewrite expand_no_dollar by (by apply json_quote_no_dollar).
  unfold pieces. cbn [co_regex default_compiledOpts].
  unfold bind. rewrite replace_tags_tagfree; [|reflexivity|lia|by apply escape_template_no_percent].
  cbn [co_literalRegex co_appended default_compiledOpts].
  rewrite (replace_all_none _ (fun a => negb (Ascii.eqb a "%")));
    [|intros; by apply literal_no_percent|by apply escape_template_no_percent].
  unfold ret, literal_source. rewrite !append_assoc. reflexivity.
Qed.

(** The program loader on a program whose only operand is one quoted
    text: [J] is the quoted value of [__lines], [E] the quoted output. *)
Lemma parse_program_one_text (J E lines output : string) :
  (forall rest, Loader.lex_string DQ (J +:+ dq +:+ rest) = Loader.POk lines rest) ->
  (forall rest, Loader.lex_string SQ (E +:+ String SQ rest) = Loader.POk output rest) ->
  Loader.parse_program "locals"
    ("var __filename = undefined;var __line = 1, __lines = " +:+ dq +:+ J +:+ dq +:+ ";" +:+ nl +:+
     "try { " +:+ nl +:+ "with(locals || {}) {" +:+ nl +:+ "var __output = '" +:+
     E +:+ "'}" +:+ nl +:+ Loader.debug_epilogue) =
  Loader.POk (Loader.mkProgram false VUndef (Some lines) true [Loader.IText output]) "".
Proof.
  intros HJ HE.
  set (tail := "}" +:+ nl +:+ Loader.debug_epilogue).
  set (U4 := E +:+ String SQ tail).
  set (U3 := "var __output = '" +:+ U4).
  set (U2 := "with(locals || {}) {" +:+ nl +:+ U3).
  set (U1 := ";" +:+ nl +:+ "try { " +:+ nl +:+ U2).
  set (R4 := J +:+ dq +:+ U1).
  set (R3 := "var __line = 1, __lines = " +:+ dq +:+ R4).
  set (R1 := "undefined;" +:+ R3).
  change (Loader.parse_program "locals" ("var __filename = " +:+ R1) = 
          Loader.POk (Loader.mkProgram false VUndef (Some lines) true [Loader.IText output]) "").
  unfold Loader.parse_program.
  change (negb (Loader.is_ident "locals")) with false. cbv iota.
  change (Loader.expect Loader.strict_prologue ("var __filename = " +:+ R1)) with (@None string).
  cbv iota.
  change (Loader.pexpect "var __filename = " ("var __filename = " +:+ R1)) with (Loader.POk () R1).
  cbn [Loader.pbind].
  change (Loader.parse_filename R1) with (Loader.POk VUndef (";" +:+ R3)).
  cbn [Loader.pbind].
  change (Loader.pexpect ";" (";" +:+ R3)) with (Loader.POk () R3).
  cbn [Loader.pbind].
  change (Loader.expect Loader.debug_prologue_1 R3) with (Some (dq +:+ R4)).
  cbv iota.
  change (Loader.pexpect dq (dq +:+ R4)) with (Loader.POk () R4).
  cbn [Loader.pbind]. unfold R4 at 1. rewrite HJ. cbn [Loader.pbind].
  change (Loader.pexpect Loader.debug_prologue_2 U1) with (Loader.POk () U2).
  cbn [Loader.pbind].
  change (Loader.expect ("with(" +:+ "locals" +:+ " || {}) {" +:+ nl) U2) with (Some U3).
  cbv iota.
  change (Loader.pexpect "var __output = " U3) with (Loader.POk () (String SQ U4)).
  cbn [Loader.pbind Loader.parse_concat].
  change (Loader.pexpect (String SQ "") (String SQ U4)) with (Loader.POk () U4).
  cbn [Loader.pbind]. unfold U4 at 1. rewrite HE. cbn [Loader.pbind].
  change (Loader.expect " + " tail) with (@None string). cbv iota.
  cbn [Loader.pbind Loader.parse_scriptlets].
  change (Loader.expect (";" +:+ nl) tail) with (@None string). cbv iota.
  cbn [Loader.pbind]. 
  change ((if true then "}" +:+ nl else "") +:+ (if true then Loader.debug_epilogue else "")) with tail.
  rewrite String.eqb_refl. reflexivity.
Qed.

Lemma parse_program_literal (text : string) :
  plain_text text = true ->
  Loader.parse_program "locals" (literal_source text) =
  Loader.POk (Loader.mkProgram false VUndef (Some text) true [Loader.IText text]) "".
Proof.
  intros (_ & _ & Hj)%plain_text_parts.
  unfold literal_source, json_quote. rewrite escape_template_chars, !append_assoc.
  apply parse_program_one_text.
  - intros rest. by apply lex_json_chars.
  - intros rest. apply lex_string_escaped.
Qed.

Lemma sourceToFunc_literal (text : string) :
  plain_text text = true ->
  sourceToFunc (VStr "locals") (literal_source text) =
  Ok (FnSource "locals, escape, include, rethrow" (literal_source text)).
Proof.
  intros Hp. unfold sourceToFunc. cbn [to_string]. by rewrite parse_program_literal.
Qed.

Lemma Template_compile_literal (text : string) :
  plain_text text = true ->
  Template_compile 2 0
    (set_templates
       [{| templateText := VStr text; source := ""; dependencies := [];
           pathStack := [VUndef]; opts := default_opts;
           compiledOpts := None; renderFn := None |}] w0) =
  (Done (FnTemplate 0), literal_world text).
Proof.
  intros Hp. unfold Template_compile.
  unfold bind at 1, modify at 1.
  unfold bind at 1, this_template at 1.
  cbn [templates set_templates count_compilation lookup list_lookup opts templateText].
  rewrite parseOptions_default.
  unfold bind at 1, update_template at 1, modify at 1.
  cbn [templates set_templates alter list_alter set_compiledOpts templateText source dependencies
       pathStack opts compiledOpts renderFn].
  unfold bind at 1. cbn [generateSource].
  change (Opts.filename default_opts) with VUndef.
  erewrite generateSource_literal; [|reflexivity|reflexivity|reflexivity|exact Hp].
  change (co_globalPrepened default_compiledOpts +:+ literal_source text +:+
          co_globalAppended default_compiledOpts) with (literal_source text +:+ "").
  rewrite append_nil_r.
  change (Opts.precompile default_opts) with VUndef.
  change (truthy (Opts.client default_opts)) with false.
  change (Opts.localsName default_opts) with (VStr "locals").
  cbv iota.
  unfold bind, update_template, modify, this_template, ret, catch, lift.
  cbn [templates set_templates count_compilation alter list_alter lookup list_lookup
       set_compiledOpts set_source set_renderFn
       templateText source dependencies pathStack opts compiledOpts renderFn].
  rewrite sourceToFunc_literal by exact Hp. reflexivity.
Qed.

Lemma compile_literal (text : string) :
  plain_text text = true ->
  compile 2 (VStr text) (VObj ∅) w0 = (Done (FnTemplate 0), literal_world text).
Proof.
  intros Hp.
  unfold compile.
  change (scope_compat (VObj ∅)) with (@ret val (VObj ∅)).
  unfold bind at 1, ret at 1.
  change (truthy (VObj ∅) && negb (truthy (get (members (VObj ∅)) "usePages")) &&
          truthy (get (members (VObj ∅)) "cache") && truthy (get (members (VObj ∅)) "filename"))
    with false.
  cbv iota. unfold bind at 1, ret at 1.
  unfold bind at 1, ret at 1.
  unfold bind at 1, new_Template at 1.
  change (templates w0) with (@nil Template). cbn [length app].
  change (get (members (VObj ∅)) "filename") with VUndef.
  change (Template_opts w0 (VObj ∅)) with default_opts.
  unfold bind at 1. rewrite Template_compile_literal by exact Hp.
  reflexivity.
Qed.

Lemma members_or_else (data : val) : members (or_else data (VObj ∅)) = members data.
Proof.
  unfold or_else. destruct (truthy data) eqn:E; [reflexivity|].
  by destruct data.
Qed.

Lemma cpOptsInData_no_option (data : val) (o : gmap string val) :
  forallb (fun p => is_undefined (get (members data) p)) _OPTS = true ->
  cpOptsInData data o = o.
Proof.
  unfold cpOptsInData. generalize _OPTS as l. intros l. revert o.
  induction l as [|p l IH]; intros o; [reflexivity|]. cbn [forallb foldl].
  intros [Hp Hl]%andb_true_iff. rewrite Hp. by apply IH.
Qed.

Lemma call_literal (text : string) (data : val) :
  plain_text text = true ->
  shadows (members data) "locals" = false ->
  call 2 (FnTemplate 0) (or_else data (VObj ∅)) VUndef None (literal_world text) =
  (Done (VStr text), literal_world text).
Proof.
  intros Hp Hd. cbn [call call_with].
  unfold bind at 1, this_template at 1.
  cbn [literal_world templates lookup list_lookup literal_template renderFn].
  unfold call_with.
  change (first_param "locals, escape, include, rethrow") with "locals".
  rewrite parse_program_literal by exact Hp.
  unfold run_program. cbn [Loader.p_with Loader.p_body Loader.p_lines].
  rewrite !members_or_else, Hd.
  cbn [run_items orb]. unfold bind, ret. reflexivity.
Qed.

(** X1. A text in which neither the delimiter [%] nor the sign [$]
    occurs, rendered with data that names no option, is returned as it is:
    quotes, backslashes and line breaks in it come back unchanged.  (The
    text is also free of the control characters that [JSON.stringify] writes
    as [\u] escapes, which the model of the program loader does not read.) *)
Theorem plain_text_renders_itself (text : string) (data : val) :
  plain_text text = true ->
  plain_data data = true ->
  rendered text data = Done (VStr text).
Proof.
  intros Hp [Hopts Hshadow%negb_true_iff]%andb_true_iff.
  unfold rendered, render, render_opts. cbn [nth length Nat.eqb].
  rewrite cpOptsInData_no_option by (by rewrite members_or_else).
  change (members (or_else VUndef (VObj ∅))) with (∅ : gmap string val).
  unfold bind. rewrite compile_literal by exact Hp.
  by rewrite call_literal.
Qed.

Lemma plain_text_renders_itself_witness :
  rendered "it's 100 \ percent" (VObj {["name" := VStr "x"]}) = Done (VStr "it's 100 \ percent").
Proof. apply plain_text_renders_itself; vm_compute; reflexivity. Defined.

(** ** Programs that do not track lines *)

Lemma parseOptions_nodebug : parseOptions nodebug_opts = Some nodebug_compiledOpts.
Proof. reflexivity. Qed.

(** Without line tracking the tag pattern has no match in a text without
    the delimiter. *)
Lemma replace_tags_nodebug (f : found -> Z -> M (string * Z)) (s : string) line w :
  no_percent s = true ->
  replace_tags f (pieces (tag_regex "%" false) s) line w = (Done s, w).
Proof.
  intros Hs. unfold pieces. cbn [scan].
  rewrite (search_none _ (fun a => negb (Ascii.eqb a "%"))); [|by intros; unfold exec_at; rewrite tag_no_percent|done].
  destruct s; cbn [replace_tags]; unfold bind, ret; [reflexivity|by rewrite append_nil_r].
Qed.

Lemma generateSource_nodebug iS iF this t text w :
  templates w !! this = Some t ->
  opts t = nodebug_opts ->
  compiledOpts t = Some nodebug_compiledOpts ->
  plain_text text = true ->
  generateSource_with iS iF this (VStr text) VUndef w = (Done (nodebug_source text), w).
Proof.
  intros Ht Ho Hco (Hp & Hd & _)%plain_text_parts.
  unfold generateSource_with, bind at 1, this_template. rewrite Ht, Hco, Ho.
  cbn [json_stringify].
  change (Opts.compileDebug nodebug_opts) with false.
  change (truthy (Opts.rmWhitespace nodebug_opts)) with false.
  cbv iota.
  set (P := replace_first (str "__filename__") (expand 0 "undefined") (co_prepended nodebug_compiledOpts)).
  vm_compute in P. subst P.
  cbn [co_regex nodebug_compiledOpts].
  unfold bind. rewrite replace_tags_nodebug by (by apply escape_template_no_percent).
  cbn [co_literalRegex co_appended nodebug_compiledOpts].
  rewrite (replace_all_none _ (fun a => negb (Ascii.eqb a "%")));
    [|intros; by apply literal_no_percent|by apply escape_template_no_percent].
  unfold ret, nodebug_source. rewrite ?append_assoc. reflexivity.
Qed.

Lemma parse_program_nodebug (text : string) :
  Loader.parse_program "locals" (nodebug_source text) =
  Loader.POk (Loader.mkProgram false VUndef None true [Loader.IText text]) "".
Proof.
  unfold nodebug_source. rewrite escape_template_chars.
  set (E := subst_chars escape_template_char text).
  set (tail := "}" +:+ nl).
  set (U4 := E +:+ String SQ tail).
  set (U3 := "var __output = '" +:+ U4).
  set (R3 := "with(locals || {}) {" +:+ nl +:+ U3).
  set (R1 := "undefined;" +:+ R3).
  assert (Hsrc : "var __filename = undefined;with(locals || {}) {" +:+ nl +:+
                 "var __output = '" +:+ E +:+ "'}" +:+ nl = "var __filename = " +:+ R1).
  { reflexivity. }
  rewrite Hsrc.
  unfold Loader.parse_program.
  change (negb (Loader.is_ident "locals")) with false. cbv iota.
  change (Loader.expect Loader.strict_prologue ("var __filename = " +:+ R1)) with (@None string).
  cbv iota.
  change (Loader.pexpect "var __filename = " ("var __filename = " +:+ R1)) with (Loader.POk () R1).
  cbn [Loader.pbind].
  change (Loader.parse_filename R1) with (Loader.POk VUndef (";" +:+ R3)).
  cbn [Loader.pbind].
  change (Loader.pexpect ";" (";" +:+ R3)) with (Loader.POk () R3).
  cbn [Loader.pbind].
  change (Loader.expect Loader.debug_prologue_1 R3) with (@None string).
  cbv iota. cbn [Loader.pbind].
  change (Loader.expect ("with(" +:+ "locals" +:+ " || {}) {" +:+ nl) R3) with (Some U3).
  cbv iota.
  change (Loader.pexpect "var __output = " U3) with (Loader.POk () (String SQ U4)).
  cbn [Loader.pbind Loader.parse_concat].
  change (Loader.pexpect (String SQ "") (String SQ U4)) with (Loader.POk () U4).
  cbn [Loader.pbind]. unfold U4 at 1, E at 1. rewrite lex_string_escaped. cbn [Loader.pbind].
  change (Loader.expect " + " tail) with (@None string). cbv iota.
  cbn [Loader.pbind Loader.parse_scriptlets].
  change (Loader.expect (";" +:+ nl) tail) with (@None string). cbv iota.
  cbn [Loader.pbind].
  change ((if true then "}" +:+ nl else "") +:+ (if false then Loader.debug_epilogue else "")) with tail.
  rewrite String.eqb_refl. reflexivity.
Qed.

Lemma sourceToFunc_nodebug (text : string) :
  sourceToFunc (VStr "locals") (nodebug_source text) =
  Ok (FnSource "locals, escape, include, rethrow" (nodebug_source text)).
Proof. unfold sourceToFunc. cbn [to_string]. by rewrite parse_program_nodebug. Qed.

Lemma Template_compile_nodebug (text : string) :
  plain_text text = true ->
  Template_compile 2 0
    (set_templates
       [{| templateText := VStr text; source := ""; dependencies := [];
           pathStack := [VUndef]; opts := nodebug_opts;
           compiledOpts := None; renderFn := None |}] w0) =
  (Done (FnTemplate 0), nodebug_world text).
Proof.
  intros Hp. unfold Template_compile.
  unfold bind at 1, modify at 1.
  unfold bind at 1, this_template at 1.
  cbn [templates set_templates count_compilation lookup list_lookup opts templateText].
  rewrite parseOptions_nodebug.
  unfold bind at 1, update_template at 1, modify at 1.
  cbn [templates set_templates alter list_alter set_compiledOpts templateText source dependencies
       pathStack opts compiledOpts renderFn].
  unfold bind at 1. cbn [generateSource].
  change (Opts.filename nodebug_opts) with VUndef.
  erewrite generateSource_nodebug; [|reflexivity|reflexivity|reflexivity|exact Hp].
  change (co_globalPrepened nodebug_compiledOpts +:+ nodebug_source text +:+
          co_globalAppended nodebug_compiledOpts) with (nodebug_source text +:+ "").
  rewrite append_nil_r.
  change (Opts.precompile nodebug_opts) with VUndef.
  change (truthy (Opts.client nodebug_opts)) with false.
  change (Opts.localsName nodebug_opts) with (VStr "locals").
  cbv iota.
  unfold bind, update_template, modify, this_template, ret, catch, lift.
  cbn [templates set_templates count_compilation alter list_alter lookup list_lookup
       set_compiledOpts set_source set_renderFn
       templateText source dependencies pathStack opts compiledOpts renderFn].
  rewrite sourceToFunc_nodebug. reflexivity.
Qed.

Lemma compile_nodebug (text : string) :
  plain_text text = true ->
  compile 2 (VStr text) (VObj {["compileDebug" := VBool false]}) w0 =
  (Done (FnTemplate 0), nodebug_world text).
Proof.
  intros Hp.
  unfold compile.
  change (scope_compat (VObj {["compileDebug" := VBool false]}))
    with (@ret val (VObj {["compileDebug" := VBool false]})).
  unfold bind at 1, ret at 1.
  change (truthy (VObj {["compileDebug" := VBool false]}) &&
          negb (truthy (get (members (VObj {["compileDebug" := VBool false]})) "usePages")) &&
          truthy (get (members (VObj {["compileDebug" := VBool false]})) "cache") &&
          truthy (get (members (VObj {["compileDebug" := VBool false]})) "filename"))
    with false.
  cbv iota. unfold bind at 1, ret at 1.
  unfold bind at 1, ret at 1.
  unfold bind at 1, new_Template at 1.
  change (templates w0) with (@nil Template). cbn [length app].
  change (get (members (VObj {["compileDebug" := VBool false]})) "filename") with VUndef.
  change (Template_opts w0 (VObj {["compileDebug" := VBool false]})) with nodebug_opts.
  unfold bind at 1. rewrite Template_compile_nodebug by exact Hp.
  change (truthy (VObj {["compileDebug" := VBool false]}) &&
          truthy (get (members (VObj {["compileDebug" := VBool false]})) "cache")) with false.
  reflexivity.
Qed.

Lemma shadows_globals_text (scope : gmap string val) strict filename lines with_ (text : string) :
  shadows_globals scope (Loader.mkProgram strict filename lines with_ [Loader.IText text]) = false.
Proof. reflexivity. Qed.

Lemma call_nodebug (text : string) (data : val) :
  shadows (members data) "locals" = false ->
  call 2 (FnTemplate 0) (or_else data (VObj ∅)) VUndef None (nodebug_world text) =
  (Done VUndef, nodebug_world text).
Proof.
  intros Hd. cbn [call call_with].
  unfold bind at 1, this_template at 1.
  cbn [nodebug_world templates lookup list_lookup nodebug_template renderFn].
  unfold call_with.
  change (first_param "locals, escape, include, rethrow") with "locals".
  rewrite parse_program_nodebug.
  unfold run_program. cbn [Loader.p_with Loader.p_body Loader.p_lines].
  rewrite !members_or_else, Hd, shadows_globals_text.
  cbn [run_items orb]. unfold bind, ret. reflexivity.
Qed.

Lemma rendered_nodebug (text : string) (data : val) :
  plain_text text = true ->
  shadows (members data) "locals" = false ->
  fst (render 2 [VStr text; data; VObj {["compileDebug" := VBool false]}] w0) = Done VUndef.
Proof.
  intros Hp Hd. unfold render, render_opts. cbn [nth length Nat.eqb].
  change (or_else (VObj {["compileDebug" := VBool false]}) (VObj ∅))
    with (VObj {["compileDebug" := VBool false]}).
  unfold bind. rewrite compile_nodebug by exact Hp.
  by rewrite call_nodebug.
Qed.

Lemma rendered_three_arguments (text : string) (data : val) :
  plain_text text = true ->
  shadows (members data) "locals" = false ->
  fst (render 2 [VStr text; data; VObj ∅] w0) = Done (VStr text).
Proof.
  intros Hp Hd. unfold render, render_opts. cbn [nth length Nat.eqb].
  change (or_else (VObj ∅) (VObj ∅)) with (VObj ∅).
  unfold bind. rewrite compile_literal by exact Hp.
  by rewrite call_literal.
Qed.



(** ** Options read from the data *)

(** C10. With exactly two arguments [render] compiles the template with
    the options that [cpOptsInData] copies from the data object: every
    recognized option name reads in them as it reads in the data, no other
    name is copied, and the [Template] constructor takes its fields from
    them.  So the data decides how the template is compiled: a text without
    tags rendered with the data [{compileDebug: false}] comes back as
    [undefined], as it does when that option stands in an options argument.
    With an options argument [render] compiles with that argument as it is,
    and the same data changes nothing: the text comes back. *)
Theorem render_options_from_data (fuel : nat) (template d : val) (w : World) :
  let data := or_else d (VObj ∅) in
  render fuel [template; d] w =
    (fn <- compile fuel template (VObj (cpOptsInData data ∅)) ;;
     call fuel fn data VUndef None) w /\
  (forall p, p ∈ _OPTS -> get (cpOptsInData data ∅) p = get (members data) p) /\
  (forall p, p ∉ _OPTS -> get (cpOptsInData data ∅) p = VUndef) /\
  (forall w',
     let from_render := Template_opts w' (VObj (cpOptsInData data ∅)) in
     let from_data := Template_opts w' (VObj (members data)) in
     Opts.client from_render = Opts.client from_data /\
     Opts.usePages from_render = Opts.usePages from_data /\
     Opts.pages from_render = Opts.pages from_data /\
     Opts.compileDebug from_render = Opts.compileDebug from_data /\
     Opts.debug from_render = Opts.debug from_data /\
     Opts.filename from_render = Opts.filename from_data /\
     Opts.delimiter from_render = Opts.delimiter from_data /\
     Opts.strict from_render = Opts.strict from_data /\
     Opts.context from_render = Opts.context from_data /\
     Opts.cache from_render = Opts.cache from_data /\
     Opts.rmWhitespace from_render = Opts.rmWhitespace from_data /\
     Opts.root from_render = Opts.root from_data /\
     Opts.localsName from_render = Opts.localsName from_data /\
     Opts._with from_render = Opts._with from_data) /\
  (forall o,
     render fuel [template; d; o] w =
       (fn <- compile fuel template (or_else o (VObj ∅)) ;;
        call fuel fn data VUndef None) w) /\
  (forall text, plain_text text = true ->
     fst (render 2 [VStr text; VObj {["compileDebug" := VBool false]}] w0) = Done VUndef /\
     fst (render 2 [VStr text; VObj ∅; VObj {["compileDebug" := VBool false]}] w0) =
       Done VUndef /\
     fst (render 2 [VStr text; VObj {["compileDebug" := VBool false]}; VObj ∅] w0) =
       Done (VStr text)).
Proof.
  intros data.
  assert (Hin : forall p, p ∈ _OPTS -> get (cpOptsInData data ∅) p = get (members data) p).
  { intros p Hp. rewrite cpOptsInData_get. by rewrite bool_decide_eq_true_2. }
  split; [|split; [exact Hin|split; [|split; [|split]]]].
  - unfold render. cbn [nth]. by rewrite render_opts_two.
  - intros p Hp. rewrite cpOptsInData_get. by rewrite bool_decide_eq_false_2.
  - intros w' from_render from_data. subst from_render from_data.
    unfold Template_opts. cbn [Opts.client Opts.usePages Opts.pages Opts.compileDebug
      Opts.debug Opts.filename Opts.delimiter Opts.strict Opts.context Opts.cache
      Opts.rmWhitespace Opts.root Opts.localsName Opts._with members].
    rewrite !Hin by (unfold _OPTS; set_solver).
    repeat split.
  - intros o. reflexivity.
  - intros text Hp.
    assert (Hcopy : cpOptsInData (or_else (VObj {["compileDebug" := VBool false]}) (VObj ∅)) ∅ =
                    {["compileDebug" := VBool false]}) by (vm_compute; reflexivity).
    split; [|split].
    + transitivity (fst (render 2 [VStr text; VObj {["compileDebug" := VBool false]};
                                   VObj {["compileDebug" := VBool false]}] w0)).
      * unfold render. cbn [nth]. rewrite render_opts_two, Hcopy. reflexivity.
      * apply rendered_nodebug; [exact Hp|vm_compute; reflexivity].
    + apply rendered_nodebug; [exact Hp|vm_compute; reflexivity].
    + apply rendered_three_arguments; [exact Hp|vm_compute; reflexivity].
Qed.

Lemma render_options_from_data_witness :
  fst (render 2 [VStr "it's"; VObj {["compileDebug" := VBool false]}] w0) = Done VUndef /\
  fst (render 2 [VStr "it's"; VObj {["compileDebug" := VBool false]}; VObj ∅] w0) =
    Done (VStr "it's").
Proof.
  destruct (render_options_from_data 0 VUndef VUndef w0) as (_ & _ & _ & _ & _ & H).
  destruct (H "it's") as (H1 & _ & H3); [vm_compute; reflexivity|].
  split; assumption.
Defined.

(** The delimiter given in the data changes what is read as a tag. *)
Example render_delimiter_in_data :
  fst (render 2 [VStr "<?= 'x' ?>"; VObj {["delimiter" := VStr "?"]}] (initial ∅ "/")) =
    Done (VStr "x") /\
  fst (render 2 [VStr "<?= 'x' ?>"; VObj {["delimiter" := VStr "?"]}; VObj ∅] (initial ∅ "/")) =
    Done (VStr "<?= 'x' ?>").
Proof. split; vm_compute; reflexivity. Qed.

(** ** The text of an included function *)

Lemma index_from_app (c : ascii) (x y : string) (i : Z) :
  all_chars (fun a => negb (Ascii.eqb a c)) x = true ->
  index_from c (x +:+ String c y) i = i + strlen x.
Proof.
  unfold strlen. revert i. induction x as [|a x IH]; intros i Hx.
  - change ("" +:+ String c y) with (String c y). cbn [index_from String.length].
    rewrite Ascii.eqb_refl. lia.
  - cbn [all_chars] in Hx. apply andb_true_iff in Hx as [Ha Hx]. apply negb_true_iff in Ha.
    rewrite append_cons. cbn [index_from String.length]. rewrite Ha, IH by done. lia.
Qed.

Lemma last_index_from_end (c : ascii) (x : string) (i last : Z) :
  last_index_from c (x +:+ String c "") i last = i + strlen x.
Proof.
  unfold strlen. revert i last. induction x as [|a x IH]; intros i last.
  - change ("" +:+ String c "") with (String c ""). cbn [last_index_from String.length].
    rewrite Ascii.eqb_refl. lia.
  - rewrite append_cons. cbn [last_index_from String.length]. rewrite IH. lia.
Qed.

Lemma drop_str_app (x y : string) : drop_str (String.length x) (x +:+ y) = y.
Proof. induction x as [|a x IH]; [by destruct y|]. rewrite append_cons. exact IH. Qed.

Lemma take_str_all (n : nat) (y : string) : (String.length y <= n)%nat -> take_str n y = y.
Proof.
  revert n. induction y as [|a y IH]; intros n Hn; [by destruct n|].
  destruct n as [|n]; [cbn in Hn; lia|]. cbn [take_str]. rewrite IH; [done|cbn in Hn; lia].
Qed.

(** From the first [c1] of a text that ends with [c2], when [c1] is not
    its first character: [substr] with the index of the last [c2] as its
    length reaches the end of the text. *)
Lemma substr_first_to_last (c1 c2 : ascii) (x y : string) :
  x <> "" ->
  all_chars (fun a => negb (Ascii.eqb a c1)) x = true ->
  let s := x +:+ String c1 (y +:+ String c2 "") in
  substr s (indexOf c1 s) (lastIndexOf c2 s) = String c1 (y +:+ String c2 "").
Proof.
  intros Hne Hx s. unfold indexOf, lastIndexOf. subst s.
  rewrite index_from_app by done.
  replace (x +:+ String c1 (y +:+ String c2 "")) with ((x +:+ String c1 y) +:+ String c2 "")
    by (by rewrite append_assoc, append_cons).
  rewrite last_index_from_end.
  replace ((x +:+ String c1 y) +:+ String c2 "") with (x +:+ String c1 (y +:+ String c2 ""))
    by (by rewrite append_assoc, append_cons).
  unfold substr, strlen. rewrite !str_length_app. cbn [String.length]. rewrite str_length_app.
  cbn [String.length].
  assert (Hx1 : (1 <= String.length x)%nat) by (destruct x; [done|cbn; lia]).
  destruct (Z.ltb_spec (0 + Z.of_nat (String.length x)) 0); [lia|].
  replace (Z.to_nat ((0 + Z.of_nat (String.length x))
                     `min` Z.of_nat (String.length x + S (String.length y + 1))))
    with (String.length x) by lia.
  rewrite drop_str_app. apply take_str_all. cbn [String.length]. rewrite str_length_app.
  cbn [String.length]. lia.
Qed.

(** X3. The text an include directive splices in is the body of the
    included function inside its braces.  The second argument of [substr]
    is the index of the last brace, not a length; since the first brace of
    a function text is never its first character, the text is taken to its
    end all the same. *)
Theorem includeSource_takes_the_body
    (includeFile : val -> M jsfunc) (this : nat) (path : val)
    (params body : string) (w w1 : World) :
  all_chars (fun a => negb (Ascii.eqb a "{")) params = true ->
  includeFile path w = (Done (FnSource params body), w1) ->
  includeSource_with includeFile this path w =
    (Done ("{" +:+ nl +:+ body +:+ nl +:+ "}"),
     set_templates (alter (fun t => set_pathStack (pop (pathStack t)) t) this (templates w1)) w1).
Proof.
  intros Hparams Hinc. unfold includeSource_with, bind at 1. rewrite Hinc.
  unfold bind, update_template, modify, ret. f_equal. f_equal.
  cbn [fn_toString].
  pose proof (substr_first_to_last "{" "}" ("function anonymous(" +:+ params +:+ nl +:+ ") ")
                (nl +:+ body +:+ nl)) as H.
  cbv zeta in H. rewrite !append_assoc in H. apply H.
  - done.
  - rewrite !all_chars_app, Hparams. reflexivity.
Qed.

Lemma includeSource_takes_the_body_witness :
  exists body,
    fst (includeFile 1 0 (VStr "partial") (template_a "<% include partial %>")) =
      Done (FnSource "locals, escape, include, rethrow" body) /\
    fst (includeSource 1 0 (VStr "partial") (template_a "<% include partial %>")) =
      Done ("{" +:+ nl +:+ body +:+ nl +:+ "}").
Proof.
  assert (F : exists body,
             fst (includeFile 1 0 (VStr "partial") (template_a "<% include partial %>")) =
               Done (FnSource "locals, escape, include, rethrow" body))
    by (eexists; vm_compute; reflexivity).
  destruct F as [body F]. exists body. split; [exact F|].
  destruct (includeFile 1 0 (VStr "partial") (template_a "<% include partial %>"))
    as [r w1] eqn:E.
  cbn [fst] in F. subst r. unfold includeSource.
  by rewrite (includeSource_takes_the_body _ 0 (VStr "partial")
                "locals, escape, include, rethrow" body _ w1 eq_refl E).
Defined.

(** ** [renderFile] *)

Lemma pop_last_snoc (l : list val) (v : val) : pop_last (l ++ [v]) = (v, l).
Proof. unfold pop_last. by rewrite last_last, removelast_last. Qed.

Lemma bind_cong {A B} (c : M A) (k k' : A -> M B) w :
  (forall a w', c w = (Done a, w') -> k a w' = k' a w') -> bind c k w = bind c k' w.
Proof. intros H. unfold bind. destruct (c w) as [[a|e|why] w']; [by apply H|done..]. Qed.

(** A template that is not given is read from the file named by the
    options. *)
Lemma compile_reads_file fuel (o : gmap string val) (f text : string) w :
  files w !! f = Some text ->
  get o "filename" = VStr f ->
  compile fuel VNull (VObj o) w = compile fuel (VStr text) (VObj o) w.
Proof.
  intros Hfile Hf. unfold compile.
  destruct (scope_compat_spec o w) as (o' & Hs & Hget).
  apply bind_cong. intros opts' w1 H1. rewrite Hs in H1. injection H1 as <- <-.
  apply bind_cong. intros cached w2 H2.
  assert (Hw2 : files w2 = files w).
  { destruct (_ && _) in H2; unfold cache_get, gets, ret in H2; injection H2 as <- <-;
      by destruct (truthy (get o "scope")). }
  destruct cached as [fn|]; [reflexivity|].
  cbn [members]. rewrite (Hget "filename"), Hf by done.
  unfold bind at 1 2, readFile, ret at 1. rewrite Hw2, Hfile.
  unfold bind at 2, ret at 3. reflexivity.
Qed.

Lemma shallowCopy_empty (o : gmap string val) : shallowCopy ∅ o = o.
Proof. unfold shallowCopy. apply (right_id_L ∅ (∪)). Qed.

Lemma renderFile_opts_four (path data : val) (o : gmap string val) (cb : val) :
  renderFile_opts [path; data; VObj o; cb] = <["filename" := path]> o.
Proof.
  unfold renderFile_opts, shift, pop_last.
  cbn [List.last removelast length Nat.eqb or_else truthy members].
  by rewrite shallowCopy_empty.
Qed.

Lemma renderFile_opts_two (path cb : val) :
  renderFile_opts [path; cb] = {["filename" := path]}.
Proof. reflexivity. Qed.

(** X4. [renderFile] hands every error of the compilation and of the
    rendering to its callback and returns what the callback returns:
    whatever the callback does when it is called, the outcome of
    [renderFile] is the outcome of the call [cb(err)], so it throws only
    what the callback throws.  A file that cannot be read is such an error:
    the callback receives the error of the host, whose [path] names the
    file. *)
Theorem renderFile_reports_errors_to_callback
    {A : Type} (cb : callback_call -> M A) (fuel : nat) (f : string) (data : val)
    (o : gmap string val) (cbf : jsfunc) (w : World) :
  (forall e w',
     compile fuel VNull (VObj (<["filename" := VStr f]> o)) w = (Raise e, w') ->
     renderFile_return cb fuel [VStr f; data; VObj o; VFun cbf] w = cb (CbError e) w') /\
  (forall fn w1 e w',
     compile fuel VNull (VObj (<["filename" := VStr f]> o)) w = (Done fn, w1) ->
     call fuel fn (or_else data (VObj ∅)) VUndef None w1 = (Raise e, w') ->
     renderFile_return cb fuel [VStr f; data; VObj o; VFun cbf] w = cb (CbError e) w') /\
  (files w !! f = None ->
     renderFile_return cb fuel [VStr f; VFun cbf] w = cb (CbError (ENOENT f)) w).
Proof.
  split; [|split].
  - intros e w' H. unfold renderFile_return, renderFile. cbn [shift]. unfold pop_last at 1.
    cbn [List.last removelast shift]. rewrite renderFile_opts_four.
    unfold bind, catch. rewrite H. reflexivity.
  - intros fn w1 e w' H Hcall. unfold renderFile_return, renderFile. cbn [shift].
    unfold pop_last at 1. cbn [List.last removelast shift]. rewrite renderFile_opts_four.
    unfold bind, catch. rewrite H, Hcall. reflexivity.
  - intros Hf. unfold renderFile_return, renderFile. cbn [shift]. unfold pop_last at 1.
    cbn [List.last removelast shift]. rewrite renderFile_opts_two.
    assert (Hc : compile fuel VNull (VObj {["filename" := VStr f]}) w = (Raise (ENOENT f), w)).
    { unfold compile. unfold bind at 1.
      assert (Hscope : scope_compat (VObj {["filename" := VStr f]}) w =
                       (Done (VObj {["filename" := VStr f]}), w)) by reflexivity.
      rewrite Hscope.
      assert (Hcond : truthy (VObj {["filename" := VStr f]}) &&
                      negb (truthy (get (members (VObj {["filename" := VStr f]})) "usePages")) &&
                      truthy (get (members (VObj {["filename" := VStr f]})) "cache") &&
                      truthy (get (members (VObj {["filename" := VStr f]})) "filename") = false)
        by reflexivity.
      rewrite Hcond. unfold bind at 1, ret at 1. unfold bind at 1. unfold bind at 1.
      assert (Hname : get (members (VObj {["filename" := VStr f]})) "filename" = VStr f)
        by reflexivity.
      rewrite Hname. unfold readFile. rewrite Hf. reflexivity. }
    unfold bind, catch. rewrite Hc. reflexivity.
Qed.

Lemma renderFile_reports_errors_to_callback_witness :
  fst (renderFile_return (fun c => ret c) 2
         [VStr "/views/missing.ejs"; VFun (FnHost "callback")] (initial views "/")) =
    Done (CbError (ENOENT "/views/missing.ejs")) /\
  fst (renderFile_return (fun c => match c with
                                   | CbError e => raise e
                                   | CbResult v => ret v
                                   end) 2
         [VStr "/views/missing.ejs"; VFun (FnHost "callback")] (initial views "/")) =
    Raise (ENOENT "/views/missing.ejs").
Proof.
  split.
  - destruct (renderFile_reports_errors_to_callback (fun c => ret c) 2 "/views/missing.ejs"
                VUndef ∅ (FnHost "callback") (initial views "/")) as (_ & _ & H).
    rewrite H; [reflexivity|vm_compute; reflexivity].
  - destruct (renderFile_reports_errors_to_callback
                (fun c => match c with CbError e => raise e | CbResult v => ret v end)
                2 "/views/missing.ejs" VUndef ∅ (FnHost "callback") (initial views "/"))
      as (_ & _ & H).
    rewrite H; [reflexivity|vm_compute; reflexivity].
Defined.

(** X5. When the file exists, [renderFile(path, data, opts, cb)] gives its
    callback what [render] makes of the text of the file with the same data
    and the same options, the option [filename] set to [path]: the result,
    or the error that [render] throws.  With three arguments the options are
    those found in the data, in its [settings['view options']] member when
    there is one. *)
Theorem renderFile_renders_the_file
    (fuel : nat) (path text : string) (data : val) (o : gmap string val)
    (cb : jsfunc) (w : World) :
  files w !! path = Some text ->
  renderFile fuel [VStr path; data; VObj o; VFun cb] w =
    delivered (render fuel [VStr text; data; VObj (<["filename" := VStr path]> o)] w) /\
  renderFile fuel [VStr path; data; VFun cb] w =
    renderFile fuel
      [VStr path; data;
       VObj (let settings := get (members (or_else data (VObj ∅))) "settings" in
             if truthy settings && truthy (get (members settings) "view options")
             then cpOptsInData (get (members settings) "view options") ∅
             else cpOptsInData (or_else data (VObj ∅)) ∅);
       VFun cb] w.
Proof.
  intros Hfile. split.
  - unfold renderFile, render, render_opts. cbn [shift]. unfold pop_last at 1.
    cbn [List.last removelast shift nth length Nat.eqb].
    rewrite renderFile_opts_four.
    change (or_else (VObj (<["filename" := VStr path]> o)) (VObj ∅))
      with (VObj (<["filename" := VStr path]> o)).
    unfold bind, catch.
    rewrite (compile_reads_file fuel _ path text w Hfile)
      by (unfold get; by rewrite lookup_insert_eq).
    destruct (compile fuel (VStr text) (VObj (<["filename" := VStr path]> o)) w)
      as [[fn|e|why] w1]; [|reflexivity..].
    unfold ret, delivered.
    destruct (call fuel fn (or_else data (VObj ∅)) VUndef None w1) as [[v|e|why] w2]; reflexivity.
  - unfold renderFile. cbn [shift]. unfold pop_last at 1 2.
    cbn [List.last removelast shift].
    rewrite renderFile_opts_four.
    unfold renderFile_opts, shift, pop_last.
    cbn [List.last removelast length Nat.eqb]. cbv zeta.
    change (shallowCopy ∅ (members (or_else VUndef (VObj ∅)))) with (∅ : gmap string val).
    by destruct (truthy _ && truthy _).
Qed.

Lemma renderFile_renders_the_file_witness :
  fst (renderFile 2 [VStr "/views/partial.ejs"; VUndef; VObj ∅; VFun (FnHost "callback")]
         (initial views "/")) = Done (CbResult (VStr "hello")).
Proof.
  destruct (renderFile_renders_the_file 2 "/views/partial.ejs" "hello" VUndef ∅
              (FnHost "callback") (initial views "/")) as [H _]; [reflexivity|].
  rewrite H. vm_compute. reflexivity.
Defined.

(** ** The compatibility option [scope] and the guard of the cache *)

(** X6. The deprecated option [scope] is an alias of [context]: a compile
    with [scope] set, and [context] not, is the compile with that value as
    [context]; when [context] is set too, [scope] is dropped.  Only the
    deprecation flag records the difference. *)
Theorem scope_is_context
    (fuel : nat) (template s : val) (o : gmap string val) (w : World) :
  truthy s = true ->
  o !! "scope" = None ->
  (truthy (get o "context") = false ->
   compile fuel template (VObj (<["scope" := s]> o)) w =
   compile fuel template (VObj (<["context" := s]> o)) (set_scopeOptionWarned true w)) /\
  (truthy (get o "context") = true ->
   compile fuel template (VObj (<["scope" := s]> o)) w =
   compile fuel template (VObj o) (set_scopeOptionWarned true w)).
Proof.
  intros Hs Ho.
  assert (Hget : get (<["scope" := s]> o) "scope" = s) by (unfold get; by rewrite lookup_insert_eq).
  assert (Hctx : get (<["scope" := s]> o) "context" = get o "context")
    by (unfold get; by rewrite lookup_insert_ne).
  split; intros Hc.
  - unfold compile. unfold bind at 1 3. unfold scope_compat.
    cbn [truthy members andb]. rewrite Hget, Hs, Hctx, Hc.
    assert (Hno : truthy (get (<["context" := s]> o) "scope") = false).
    { unfold get. rewrite lookup_insert_ne by done. by rewrite Ho. }
    rewrite Hno. unfold bind at 1, modify, ret.
    replace (delete "scope" (<["context" := s]> (<["scope" := s]> o)))
      with (<["context" := s]> o); [reflexivity|].
    rewrite delete_insert_ne by done. by rewrite delete_insert_id.
  - unfold compile. unfold bind at 1 3. unfold scope_compat.
    cbn [truthy members andb]. rewrite Hget, Hs, Hctx, Hc.
    assert (Hno : truthy (get o "scope") = false) by (unfold get; by rewrite Ho).
    rewrite Hno. unfold bind at 1, modify, ret.
    by rewrite delete_insert_id.
Qed.

Lemma scope_is_context_witness :
  compile 2 (VStr "hi") (VObj (<["scope" := VObj ∅]> ∅)) w0 =
  compile 2 (VStr "hi") (VObj (<["context" := VObj ∅]> ∅)) (set_scopeOptionWarned true w0).
Proof.
  destruct (scope_is_context 2 (VStr "hi") (VObj ∅) ∅ w0) as [H _]; [reflexivity..|].
  apply H. reflexivity.
Defined.

Lemma readFile_Done (v : val) (s : string) (w w' : World) :
  readFile v w = (Done s, w') -> w' = w.
Proof.
  unfold readFile. destruct v as [| | | |f| | |]; try done.
  destruct (files w !! f); [|done]. intros H. by injection H as _ <-.
Qed.

(** X7. The cache is consulted only when the options [cache] and
    [filename] are set and [usePages] is not (line 227).  Otherwise every
    compile that returns has run the template compilation once, whatever
    the cache holds. *)
Theorem compile_outside_the_cache_guard
    (fuel : nat) (template : val) (o : gmap string val) (fn : jsfunc) (w w' : World) :
  truthy (get o "filename") = false \/ truthy (get o "cache") = false \/
    truthy (get o "usePages") = true ->
  compile fuel template (VObj o) w = (Done fn, w') ->
  compilations w' = S (compilations w).
Proof.
  intros Hguard H. unfold compile in H.
  destruct (scope_compat_spec o w) as (o' & Hs & Hget).
  apply bind_Done_inv in H as (opts' & w1 & H1 & H). rewrite Hs in H1. injection H1 as <- <-.
  cbn [members] in H.
  rewrite (Hget "usePages"), (Hget "cache"), (Hget "filename") in H by done.
  assert (Hcond : truthy (VObj o') && negb (truthy (get o "usePages")) &&
                  truthy (get o "cache") && truthy (get o "filename") = false).
  { cbn [truthy andb]. destruct Hguard as [->|[->| ->]]; cbn [negb andb];
      rewrite ?andb_false_r; reflexivity. }
  rewrite Hcond in H.
  apply bind_Done_inv in H as (c & w2 & H2 & H). unfold ret in H2. injection H2 as <- <-.
  apply bind_Done_inv in H as (template' & w3 & H3 & H).
  assert (Hw3 : compilations w3 = compilations w).
  { destruct template; unfold ret in H3; try (injection H3 as <- <-);
      try by destruct (truthy (get o "scope")).
    all: apply bind_Done_inv in H3 as (s & w4 & H4 & H3); unfold ret in H3; injection H3 as <- <-;
      apply readFile_Done in H4 as ->; by destruct (truthy (get o "scope")). }
  apply bind_Done_inv in H as (this & w4 & H4 & H).
  unfold new_Template in H4. injection H4 as <- <-.
  apply bind_Done_inv in H as (fn' & w5 & H5 & H).
  match type of H5 with Template_compile _ _ ?wt = _ =>
    pose proof (Template_compile_ambient fuel (length (templates w3)) wt) as Ha end.
  rewrite H5 in Ha. cbn [snd] in Ha.
  apply (f_equal (fun x => x.2)) in Ha. cbn in Ha.
  apply bind_Done_inv in H as ([] & w6 & H6 & H). unfold ret in H. injection H as <- <-.
  destruct (truthy (VObj o') && truthy (get o "cache")).
  - unfold cache_set, modify in H6. injection H6 as <-. cbn. congruence.
  - unfold ret in H6. injection H6 as <-. congruence.
Qed.

Lemma compile_outside_the_cache_guard_witness :
  exists fn w',
    compile 2 (VStr "hi") (VObj {["cache" := VBool true]}) w0 = (Done fn, w') /\
    compilations w' = 1%nat.
Proof.
  assert (F : exists fn,
             fst (compile 2 (VStr "hi") (VObj {["cache" := VBool true]}) w0) = Done fn)
    by (eexists; vm_compute; reflexivity).
  destruct F as [fn F].
  destruct (compile 2 (VStr "hi") (VObj {["cache" := VBool true]}) w0) as [r w'] eqn:E.
  cbn [fst] in F. subst r. exists fn, w'. split; [reflexivity|].
  apply (compile_outside_the_cache_guard 2 (VStr "hi") {["cache" := VBool true]} fn w0 w');
    [left; reflexivity|exact E].
Defined.

(** ** The error reporter outside the text *)

Lemma slice_lookup_lt {A} (l : list A) (a b : Z) (i : nat) (x : A) :
  0 <= a -> slice l a b !! i = Some x -> (Z.to_nat a + i < length l)%nat.
Proof.
  intros Ha H. unfold slice, rel_index in H.
  destruct (Z.ltb_spec a 0); [lia|].
  apply lookup_take_Some in H as [H _]. rewrite lookup_drop in H.
  apply lookup_lt_Some in H. lia.
Qed.

(** X8. The marker [>>] is put on a line of the text only: when the line
    number is below 1 or beyond the last line, no line of the context
    carries it, and from three lines beyond the end on the context is
    empty. *)
Theorem rethrow_marks_lines_of_the_text_only (str : string) (lineno : Z) :
  let n := Z.of_nat (length (split_on LF str)) in
  (lineno < 1 \/ n < lineno ->
   Forall (fun line => starts_with "    " line = true) (context_lines str lineno)) /\
  (n + 3 <= lineno -> context_lines str lineno = []).
Proof.
  intros n. split.
  - intros Hout. apply Forall_lookup. intros i line Hi.
    unfold context_lines in Hi. rewrite list_lookup_imap in Hi.
    destruct (slice (split_on LF str) (Z.max (lineno - 3) 0)
                (Z.min (Z.of_nat (length (split_on LF str))) (lineno + 3)) !! i)
      as [x|] eqn:Hx; [|done].
    apply slice_lookup_lt in Hx; [|lia]. cbn in Hi. injection Hi as <-.
    destruct (Z.eqb_spec (Z.of_nat i + Z.max (lineno - 3) 0 + 1) lineno) as [Heq|]; [|reflexivity].
    fold n in Hx. lia.
  - intros Hfar. unfold context_lines, slice, rel_index. fold n.
    destruct (Z.ltb_spec (Z.max (lineno - 3) 0) 0); [lia|].
    rewrite drop_ge by lia. by rewrite take_nil.
Qed.

Lemma rethrow_marks_lines_of_the_text_only_witness :
  context_lines ten_lines 12 = ["    10| l10"] /\ context_lines ten_lines 13 = [].
Proof.
  destruct (rethrow_marks_lines_of_the_text_only ten_lines 13) as [_ H].
  split; [vm_compute; reflexivity|]. apply H. vm_compute. discriminate.
Defined.

(** ** Strict mode *)

(** X9. In strict mode the program has the directive first and no
    implicit-scope block, also when the option [_with] asks for one. *)
Theorem strict_mode_has_no_with (o : gmap string val) (w : World) :
  truthy (get o "strict") = true ->
  truthy (get o "client") = false ->
  let to := Template_opts w (VObj o) in
  exists co,
    parseOptions to = Some co /\
    co_globalPrepened co = Loader.strict_prologue /\
    co_prepended co =
      "var __filename = __filename__;" +:+
      (if Opts.compileDebug to
       then "var __line = 1, __lines = __template__;" +:+ nl +:+ "try { " +:+ nl else "") +:+
      "var __output = '" /\
    co_appended co = (if Opts.compileDebug to then Loader.debug_epilogue else "").
Proof.
  intros Hs Hc to.
  assert (Hstrict : truthy (Opts.strict to) = true).
  { subst to. cbn [Template_opts Opts.strict members]. unfold or_else. by rewrite Hs. }
  assert (Hclient : truthy (Opts.client to) = false).
  { subst to. cbn [Template_opts Opts.client members]. unfold or_else. by rewrite Hc. }
  assert (Hwith : Opts._with to = VBool false).
  { subst to. cbn [Template_opts Opts._with members]. unfold or_else. by rewrite Hs, Hs. }
  unfold parseOptions. rewrite Hstrict, Hclient, Hwith. cbn [is_false negb].
  eexists. split; [reflexivity|]. cbn [co_globalPrepened co_prepended co_appended].
  split; [reflexivity|]. split; [|reflexivity].
  destruct (Opts.compileDebug to); by rewrite ?append_assoc.
Qed.

Lemma strict_mode_has_no_with_witness :
  generated "hi" (VObj {["strict" := VBool true; "_with" := VBool true]}) =
    Done ("var __filename = undefined;var __line = 1, __lines = " +:+ dq +:+ "hi" +:+ dq +:+ ";" +:+ nl +:+
          "try { " +:+ nl +:+ "var __output = 'hi'" +:+ Loader.debug_epilogue) /\
  exists co,
    parseOptions (Template_opts w0 (VObj {["strict" := VBool true; "_with" := VBool true]})) = Some co /\
    co_globalPrepened co = Loader.strict_prologue.
Proof.
  split; [vm_compute; reflexivity|].
  destruct (strict_mode_has_no_with {["strict" := VBool true; "_with" := VBool true]} w0)
    as (co & H1 & H2 & _); [reflexivity..|].
  exists co. by split.
Defined.

(** ** The escaping of the template text *)


(** ** The path stack after [precompile] *)

Lemma stacks_lookup_template (w : World) (this : nat) (ps : list val) :
  stacks w !! this = Some ps -> exists t, templates w !! this = Some t /\ pathStack t = ps.
Proof.
  unfold stacks. rewrite list_lookup_fmap. destruct (templates w !! this) as [t|]; [|done].
  intros H. injection H as <-. eauto.
Qed.

Lemma stack_of_template (w : World) (this : nat) (t : Template) :
  templates w !! this = Some t -> stack_of this w = pathStack t.
Proof. intros Ht. unfold stack_of, stacks. by rewrite list_lookup_fmap, Ht. Qed.

(** X11. The loop over the option [precompile] (lines 375-379) calls
    [includeFile] and never pops: when it completes, the path stack holds
    its former entries followed by one entry for each precompiled path. *)
Theorem precompile_leaves_its_entries
    (fuel this : nat) (l : list val) (w w' : World) (t : Template) :
  no_client w ->
  templates w !! this = Some t ->
  precompile_all (includeFile fuel this) l w = (Done (), w') ->
  stack_of this w `prefix_of` stack_of this w' /\
  length (stack_of this w') = (length (stack_of this w) + length l)%nat.
Proof.
  revert w t. induction l as [|p l IH]; intros w t Hw Ht H.
  - cbn [precompile_all] in H. unfold ret in H. injection H as <-. split; [done|cbn; lia].
  - cbn [precompile_all] in H.
    apply bind_Done_inv in H as (f & w1 & Hinc & H).
    pose proof (includeFile_spec fuel this p w t Hw Ht) as Hspec.
    destruct (include_filename t (cwd w) p) as [v|e]; [|by rewrite Hspec in Hinc].
    rewrite Hinc in Hspec. destruct Hspec as [Hframe Hstacks].
    assert (Hs1 : stacks w1 !! this = Some (push v (pathStack t))).
    { rewrite Hstacks, list_lookup_alter_eq. unfold stacks. by rewrite list_lookup_fmap, Ht. }
    destruct (stacks_lookup_template w1 this _ Hs1) as (t1 & Ht1 & Hp1).
    destruct (IH w1 t1 (no_client_frame _ _ Hframe Hw) Ht1 H) as [Hpre Hlen].
    rewrite (stack_of_template w1 this t1 Ht1), Hp1 in Hpre, Hlen.
    rewrite (stack_of_template w this t Ht). split.
    + etrans; [|exact Hpre]. by apply prefix_app_r.
    + rewrite Hlen. unfold push. rewrite length_app. cbn. lia.
Qed.

Lemma precompile_leaves_its_entries_witness :
  let w := template_a "a" in
  exists w',
    precompile_all (includeFile 1 0) [VStr "partial"; VStr "partial"] w = (Done (), w') /\
    length (stack_of 0 w') = (length (stack_of 0 w) + 2)%nat.
Proof.
  intros w.
  assert (Hw : no_client w) by (repeat constructor).
  destruct (templates w !! 0%nat) as [t|] eqn:Ht; [|vm_compute in Ht; discriminate Ht].
  assert (F : fst (precompile_all (includeFile 1 0) [VStr "partial"; VStr "partial"] w) = Done ())
    by (vm_compute; reflexivity).
  destruct (precompile_all (includeFile 1 0) [VStr "partial"; VStr "partial"] w)
    as [r w'] eqn:E.
  cbn [fst] in F. subst r. exists w'. split; [reflexivity|].
  by destruct (precompile_leaves_its_entries 1 0 [VStr "partial"; VStr "partial"] w w' t Hw Ht E).
Defined.

(** ** Includes from the cache and from the page map *)

Lemma include_target_spec this path w t v :
  templates w !! this = Some t ->
  truthy (Opts.client (opts t)) = false ->
  include_filename t (cwd w) path = Ok v ->
  include_target this path w = (Done (v, to_string v, dep_get (dependencies t) (to_string v)), w).
Proof.
  intros Ht Hclient Hres. unfold include_target.
  rewrite (bind_this_template _ _ _ _ Ht), bind_gets.
  unfold include_filename in Hres. rewrite Hclient.
  destruct (truthy (Opts.usePages (opts t))).
  - injection Hres as <-. by rewrite !bind_ret.
  - destruct (getIncludePath _ _ _ _) as [f|e]; [|done]. cbn in Hres. injection Hres as <-.
    by rewrite bind_assoc, bind_lift_Ok, !bind_ret.
Qed.

Lemma dep_get_inherited (d : list (string * jsfunc)) (k : string) :
  dep_get d k = VUndef -> inherited k = VUndef.
Proof.
  induction d as [|[k' f] d IH]; cbn [dep_get]; [done|].
  destruct (String.eqb k k'); [done|exact IH].
Qed.

(** X12. An include whose file is in the cache is served from the cache:
    with the option [cache] on, outside the distribution mode, when the
    dependency map reads as [undefined] under the resolved filename (the
    map is a plain object, so the filename is neither one of its members nor
    a name it inherits), the function stored in the cache under that
    filename is returned, the file is not read and nothing is compiled; only
    the path stack gets its entry. *)
Theorem include_served_from_cache
    (fuel this : nat) (path : val) (w : World) (t : Template) (f : string) (fn : jsfunc) :
  templates w !! this = Some t ->
  truthy (Opts.client (opts t)) = false ->
  truthy (Opts.cache (opts t)) = true ->
  truthy (Opts.loadOnlyOnce (opts t)) = false ->
  include_filename t (cwd w) path = Ok (VStr f) ->
  dep_get (dependencies t) f = VUndef ->
  cache w !! f = Some fn ->
  includeFile fuel this path w =
    (Done fn,
     set_templates (alter (fun t => set_pathStack (push (VStr f) (pathStack t)) t) this
                          (templates w)) w).
Proof.
  intros Ht Hclient Hcache Honce Hres Hdep Hhit.
  unfold includeFile, includeFile_with. unfold bind at 1.
  rewrite (include_target_spec this path w t (VStr f) Ht Hclient Hres).
  rewrite (bind_this_template _ _ _ _ Ht). cbn [fst snd to_string].
  unfold bind at 1, update_template at 1, modify at 1.
  unfold include_fetch. rewrite Hdep, Hcache, Hclient, Honce. cbn [negb andb orb dep_function].
  unfold bind at 1, ret at 1.
  unfold bind at 1. unfold bind at 1, cache_get, gets. cbn [cache set_templates to_string].
  rewrite Hhit. reflexivity.
Qed.

Lemma include_served_from_cache_witness :
  let t := {| templateText := VStr ""; source := ""; dependencies := [];
              pathStack := [VStr "/views/a.ejs"];
              opts := Template_opts w0 (VObj cached_opts);
              compiledOpts := None; renderFn := None |} in
  let w := {| files := ∅; cwd := "/"; exports_delimiter := VUndef;
              exports_localsName := VStr _DEFAULT_LOCALS_NAME;
              cache := {[ "/views/partial.ejs" := FnHost "cached" ]};
              scopeOptionWarned := false; templates := [t]; compilations := 0 |} in
  fst (includeFile 0 0 (VStr "partial") w) = Done (FnHost "cached").
Proof.
  intros t w.
  by rewrite (include_served_from_cache 0 0 (VStr "partial") w t "/views/partial.ejs"
                (FnHost "cached") eq_refl eq_refl eq_refl eq_refl eq_refl eq_refl eq_refl).
Defined.

(** X13. With [usePages], a page that is not in the page map is not
    reported as missing.  When the name of the page reads as [undefined]
    in the dependency map (so it is no name that a plain object inherits
    either), the include takes [undefined] for its text, and source
    generation fails with the [TypeError] of the host for reading [replace]
    of [undefined].  The entry pushed for the include stays on the path
    stack. *)
Theorem include_of_a_missing_page
    (fuel this : nat) (p : string) (w : World) (t : Template)
    (co : CompiledOpts) (ps : gmap string val) :
  templates w !! this = Some t ->
  compiledOpts t = Some co ->
  truthy (Opts.usePages (opts t)) = true ->
  truthy (Opts.client (opts t)) = false ->
  truthy (Opts.cache (opts t)) = false ->
  Opts.pages (opts t) = VObj ps ->
  ps !! p = None ->
  dep_get (dependencies t) p = VUndef ->
  includeFile (S fuel) this (VStr p) w =
    (Raise (newTypeError "Cannot read properties of undefined (reading 'replace')"),
     set_templates (alter (fun t => set_pathStack (push (VStr p) (pathStack t)) t) this
                          (templates w)) w).
Proof.
  intros Ht Hco Hpages Hclient Hcache Hmap Hp Hdep.
  assert (Hres : include_filename t (cwd w) (VStr p) = Ok (VStr p))
    by (unfold include_filename; by rewrite Hpages).
  unfold includeFile, includeFile_with. unfold bind at 1.
  rewrite (include_target_spec this (VStr p) w t (VStr p) Ht Hclient Hres).
  rewrite (bind_this_template _ _ _ _ Ht). cbn [fst snd to_string].
  unfold bind at 1, update_template at 1, modify at 1.
  unfold include_fetch. rewrite Hdep, Hcache, Hclient, Hpages, Hmap.
  cbn [negb andb orb dep_function].
  unfold bind at 1, ret at 1.
  unfold bind at 1. unfold bind at 1, ret at 1. cbn [fst].
  unfold bind at 1. unfold bind at 1. unfold page, lift, get_plain. cbn [to_string].
  rewrite Hp, (dep_get_inherited _ _ Hdep). cbn [of_result].
  cbn [generateSource]. unfold generateSource_with.
  unfold bind at 1, this_template.
  cbn [templates set_templates]. rewrite list_lookup_alter_eq, Ht.
  cbn [fmap option_fmap option_map compiledOpts set_pathStack opts]. rewrite Hco.
  cbn [json_stringify]. by destruct (Opts.compileDebug (opts t)).
Qed.

Lemma include_of_a_missing_page_witness :
  let o := VObj {[ "usePages" := VBool true; "pages" := VObj {[ "home" := VStr "hi" ]} ]} in
  let t := {| templateText := VStr ""; source := ""; dependencies := [];
              pathStack := [VUndef];
              opts := Template_opts w0 o;
              compiledOpts := parseOptions (Template_opts w0 o); renderFn := None |} in
  fst (includeFile 1 0 (VStr "about") (set_templates [t] w0)) =
    Raise (newTypeError "Cannot read properties of undefined (reading 'replace')").
Proof.
  intros o t. subst t.
  destruct (parseOptions (Template_opts w0 o)) as [co|] eqn:Hco; [|vm_compute in Hco; discriminate Hco].
  by rewrite (include_of_a_missing_page 0 0 "about"
                (set_templates
                   [{| templateText := VStr ""; source := ""; dependencies := [];
                       pathStack := [VUndef]; opts := Template_opts w0 o;
                       compiledOpts := Some co; renderFn := None |}] w0)
                _ co {[ "home" := VStr "hi" ]} eq_refl eq_refl eq_refl eq_refl eq_refl eq_refl
                eq_refl eq_refl).
Defined.

(** ** Whitespace control *)

(** A greedy star before a pattern that matches at the end of the input
    only. *)
Lemma greedy_run_to_end {R} (p : ascii -> bool) prev s c
    (k : option ascii -> string -> caps -> option R) :
  (forall prev' a s' c', k prev' (String a s') c' = None) ->
  greedy_run p k prev s c =
  if all_chars p s then k (skip_prev p prev s) "" c else None.
Proof.
  intros Hk. revert prev. induction s as [|a s IH]; intros prev; [reflexivity|].
  cbn [greedy_run all_chars skip_prev]. destruct (p a); cbn [andb]; [|apply Hk].
  rewrite IH. destruct (all_chars p s); [|apply Hk].
  destruct (k _ "" c); [reflexivity|apply Hk].
Qed.

Lemma exec_at_trailing_space prev s :
  exec_at trailing_space prev s =
  if all_chars is_space s
  then Some (mkFound s [] (skip_prev is_space prev s) "")
  else None.
Proof.
  unfold exec_at, trailing_space, ws. cbn [seq]. rewrite m_Seq, m_star_greedy_chr.
  rewrite greedy_run_to_end by reflexivity.
  destruct (all_chars is_space s); [|reflexivity].
  cbn [m at_eol]. unfold consumed. cbn [String.length].
  rewrite Nat.sub_0_r. by rewrite take_str_all.
Qed.

Lemma replace_trailing_space (s : string) :
  replace_first trailing_space (fun _ _ _ => "") s = trim_end s.
Proof.
  unfold replace_first.
  assert (H : forall prev,
            match search trailing_space prev s with
            | Some (skipped, x) => skipped = trim_end s /\ f_rest x = ""
            | None => False
            end).
  { induction s as [|a s IH]; intros prev.
    - cbn [search]. rewrite exec_at_trailing_space. done.
    - cbn [search trim_end]. rewrite exec_at_trailing_space.
      destruct (all_chars is_space (String a s)); [done|].
      specialize (IH (Some a)). destruct (search trailing_space (Some a) s) as [[sk x]|]; [|done].
      destruct IH as [-> ->]. done. }
  specialize (H None). destruct (search trailing_space None s) as [[sk x]|]; [|done].
  destruct H as [-> ->]. by rewrite !append_nil_r.
Qed.

Lemma trim_end_spec (s : string) :
  exists t, s = trim_end s +:+ t /\ all_chars is_space t = true.
Proof.
  induction s as [|a s (t & Hs & Ht)]; [by exists ""|].
  cbn [trim_end]. destruct (all_chars is_space (String a s)) eqn:E.
  - by exists (String a s).
  - exists t. split; [|done]. rewrite append_cons. by f_equal.
Qed.

Lemma trim_end_empty (s : string) : trim_end s = "" -> all_chars is_space s = true.
Proof. destruct s as [|a s]; [done|]. cbn [trim_end]. by destruct (all_chars is_space (String a s)). Qed.

Lemma trim_end_last (s x : string) (a : ascii) :
  trim_end s = x +:+ String a "" -> is_space a = false.
Proof.
  revert x. induction s as [|b s IH]; intros x H.
  - destruct x; done.
  - cbn [trim_end] in H. destruct (all_chars is_space (String b s)) eqn:E.
    + destruct x; done.
    + destruct x as [|b' x].
      * change ("" +:+ String a "") with (String a "") in H. injection H as -> Hs.
        cbn [all_chars] in E. rewrite (trim_end_empty s Hs) in E. by rewrite andb_true_r in E.
      * rewrite append_cons in H. injection H as _ Hs. by eapply IH.
Qed.

Lemma exec_at_leading_space_newline (s : string) :
  exec_at leading_space_newline None s =
  let r := drop_while is_space s in
  let rest := match Loader.expect esc_n r with Some r' => r' | None => r end in
  Some (mkFound (consumed s rest)
          (match Loader.expect esc_n r with Some _ => [(1%nat, esc_n)] | None => [] end)
          (match Loader.expect esc_n r with
           | Some _ => Some "n"%char
           | None => skip_prev is_space None s
           end) rest).
Proof.
  unfold exec_at, leading_space_newline, ws, opt. cbn [seq]. rewrite m_Seq, m_Bol. cbn [at_bol].
  rewrite m_Seq, m_star_greedy_chr.
  rewrite greedy_run_total.
  - rewrite m_Alt, m_Group, m_str. cbv zeta.
    destruct (Loader.expect esc_n (drop_while is_space s)) as [r'|] eqn:E; [|reflexivity].
    apply expect_Some in E. rewrite E at 1. by rewrite consumed_app.
  - intros prev' s' c'. rewrite m_Alt, m_Group, m_str.
    destruct (Loader.expect esc_n s'); by eexists.
Qed.

(** X14. What the whitespace-slurping tags remove.  [<%_] removes the
    whitespace at the end of the text captured before the tag: what is left
    does not end with whitespace, and what was removed is whitespace only.
    [_%>] removes the whitespace at the start of the text captured after the
    tag and then one escaped line feed, when one follows. *)
Theorem whitespace_slurping (dl : Delimiters) (rmWhitespace : bool) (before after : string) :
  let before' := slurp_before dl (d_whitespaceSlurpingStart dl) before in
  let after' := slurp_after dl rmWhitespace (d_whitespaceSlurpingEnd dl) after in
  (exists t, before = before' +:+ t /\ all_chars is_space t = true) /\
  (forall x a, before' = x +:+ String a "" -> is_space a = false) /\
  after' = (let r := drop_while is_space after in
            if starts_with esc_n r then drop_str 2 r else r).
Proof.
  intros before' after'. subst before' after'. unfold slurp_before, slurp_after.
  rewrite !String.eqb_refl. cbn [orb]. rewrite replace_trailing_space.
  split; [apply trim_end_spec|]. split; [apply trim_end_last|].
  unfold replace_first. rewrite (search_here _ _ _ _ (exec_at_leading_space_newline after)).
  cbn [f_rest]. change ("" +:+ "" +:+ ?x) with x.
  rewrite expect_starts_with.
  destruct (Loader.expect esc_n (drop_while is_space after)) as [r'|] eqn:E; [|reflexivity].
  apply expect_Some in E. rewrite E. reflexivity.
Qed.

Lemma whitespace_slurping_witness :
  is_space ")" = false /\
  slurp_after (co_delimiter default_compiledOpts) false "_%>" ("  " +:+ esc_n +:+ esc_n +:+ "x") =
    esc_n +:+ "x".
Proof.
  destruct (whitespace_slurping (co_delimiter default_compiledOpts) false ")  "
              ("  " +:+ esc_n +:+ esc_n +:+ "x")) as (_ & Hlast & Hafter).
  split; [apply (Hlast "" ")"%char); vm_compute; reflexivity|].
  exact Hafter.
Defined.

(** ** The content of a tag *)

Lemma exec_at_escape_other (c : ascii) prev (a : ascii) (s : string) :
  a <> BS -> exec_at (str (String BS (String c ""))) prev (String a s) = None.
Proof.
  intros Ha. rewrite exec_at_str. cbn [Loader.expect].
  destruct (Ascii.eqb_spec BS a) as [<-|]; [done|reflexivity].
Qed.

(** Text without a backslash is passed over by a pattern that starts with
    one. *)
Lemma scan_skip_chars (c : ascii) f n prev (u rest : string) :
  all_chars (fun a => negb (Ascii.eqb a BS)) u = true ->
  exists prev',
    String.concat "" (List.map (piece_text f)
      (scan (S n) (str (String BS (String c ""))) prev (u +:+ rest))) =
    u +:+ String.concat "" (List.map (piece_text f)
      (scan (S n) (str (String BS (String c ""))) prev' rest)).
Proof.
  revert prev. induction u as [|a u IH]; intros prev Hu; [by exists prev|].
  cbn [all_chars] in Hu. apply andb_true_iff in Hu as [Ha Hu].
  destruct (IH (Some a) Hu) as [prev' Hprev']. exists prev'.
  rewrite !append_cons, scan_skip, Hprev'; [reflexivity|].
  apply exec_at_escape_other. intros ->. done.
Qed.

(** The units of an escaped text under the replacement of one escape
    sequence: the sequence itself, text without a backslash, or another
    escape sequence. *)
Lemma replace_all_escape (c : ascii) (t : string) (q : ascii -> bool)
    (g g' : ascii -> string) (s : string) :
  (forall a, q a = true ->
     (g a = String BS (String c "") /\ g' a = t) \/
     (all_chars (fun b => negb (Ascii.eqb b BS)) (g a) = true /\ g' a = g a) \/
     (exists c', g a = String BS (String c' "") /\ c' <> c /\ c' <> BS /\ g' a = g a)) ->
  all_chars q s = true ->
  replace_all (str (String BS (String c ""))) (fun _ => t) (subst_chars g s) = subst_chars g' s.
Proof.
  intros Hunit Hs. rewrite replace_all_pieces. unfold pieces.
  generalize (@None ascii) as prev.
  assert (Hlen : (String.length (subst_chars g s) <= String.length (subst_chars g s))%nat) by lia.
  revert Hlen. generalize (String.length (subst_chars g s)) at 2 3 as n.
  induction s as [|a s IH]; intros n Hlen prev.
  - cbn [subst_chars scan search]. by rewrite exec_at_str.
  - cbn [all_chars] in Hs. apply andb_true_iff in Hs as [Ha Hs]. specialize (IH Hs).
    cbn [subst_chars] in *. rewrite str_length_app in Hlen.
    destruct (Hunit a Ha) as [[Hg Hg']|[[Hg Hg']|(c' & Hg & Hc & Hb & Hg')]].
    + rewrite Hg, Hg' in *. cbn [String.length] in Hlen.
      destruct n as [|n]; [lia|].
      rewrite !append_cons. change ("" +:+ ?x) with x.
      cbn [scan search]. rewrite exec_at_str. cbn [Loader.expect]. rewrite !Ascii.eqb_refl.
      cbn [f_match f_rest f_prev].
      cbn [List.map piece_text]. rewrite !concat_cons. change ("" +:+ ?x) with x.
      f_equal. apply IH. lia.
    + rewrite Hg'. destruct (scan_skip_chars c (fun _ => t) n prev (g a) (subst_chars g s) Hg)
        as [prev' ->]. f_equal. apply IH. lia.
    + rewrite Hg', Hg in *. cbn [String.length] in Hlen.
      rewrite !append_cons. change ("" +:+ ?x) with x.
      rewrite scan_skip.
      2:{ rewrite exec_at_str. cbn [Loader.expect]. rewrite Ascii.eqb_refl.
          destruct (Ascii.eqb_spec c c') as [->|]; [done|reflexivity]. }
      rewrite scan_skip by (by apply exec_at_escape_other).
      do 2 f_equal. apply IH. lia.
Qed.

Lemma subst_chars_id (s : string) : subst_chars (fun a => String a "") s = s.
Proof. induction s as [|a s IH]; [reflexivity|]. cbn [subst_chars]. by rewrite IH. Qed.

(** Unescaping after escaping, on content without backslash and carriage
    return. *)
Lemma unescape_escape_content (content : string) :
  all_chars (fun a => negb (Ascii.eqb a BS) && negb (Ascii.eqb a CR)) content = true ->
  unescape_content (escape_template false content) = content.
Proof.
  intros Hc. rewrite escape_template_chars. unfold unescape_content, esc_n, esc_q.
  rewrite (replace_all_escape "n" nl
             (fun a => negb (Ascii.eqb a BS) && negb (Ascii.eqb a CR))
             escape_template_char
             (fun a => if Ascii.eqb a SQ then String BS (String SQ "") else String a ""));
    [|clear content Hc|exact Hc].
  - rewrite (replace_all_escape SQ (String SQ "")
               (fun a => negb (Ascii.eqb a BS) && negb (Ascii.eqb a CR))
               _ (fun a => String a ""));
      [apply subst_chars_id| |exact Hc].
    intros a [Hb Hr]%andb_true_iff. apply negb_true_iff in Hb.
    destruct (Ascii.eqb_spec a SQ) as [->|Hq]; [by left|].
    right. left. split; [|reflexivity]. cbn [all_chars]. by rewrite Hb.
  - intros a [Hb Hr]%andb_true_iff. apply negb_true_iff in Hb, Hr.
    unfold escape_template_char. rewrite Hb, Hr.
    destruct (Ascii.eqb_spec a SQ) as [->|Hq].
    + right. right. exists SQ. by repeat split.
    + cbn [orb]. destruct (Ascii.eqb_spec a LF) as [->|Hl].
      * left. by split.
      * right. left. split; [|reflexivity]. cbn [all_chars]. by rewrite Hb.
Qed.



(** ** One tag in a text: the match *)

Lemma take_while_drop_while p (s : string) : take_while p s +:+ drop_while p s = s.
Proof.
  induction s as [|a s IH]; [reflexivity|]. cbn [take_while drop_while].
  destruct (p a); [|reflexivity]. rewrite append_cons. by f_equal.
Qed.

Lemma take_while_all p (s : string) : all_chars p (take_while p s) = true.
Proof.
  induction s as [|a s IH]; [reflexivity|]. cbn [take_while].
  destruct (p a) eqn:E; [|reflexivity]. cbn [all_chars]. by rewrite E.
Qed.

(** A greedy star whose longest run is followed by a match of the rest of
    the pattern. *)
Lemma greedy_run_hit {R} (P : R -> Prop) (p : ascii -> bool) prev (b s : string) c
    (k : option ascii -> string -> caps -> option R) :
  all_chars p b = true -> starts_not p s ->
  (forall prev', exists x, k prev' s c = Some x /\ P x) ->
  exists x, greedy_run p k prev (b +:+ s) c = Some x /\ P x.
Proof.
  intros Hb Hs Hk. revert prev. induction b as [|a b IH]; intros prev.
  - change ("" +:+ s) with s. destruct s as [|a s]; [apply Hk|].
    cbn [greedy_run]. cbn in Hs. rewrite Hs. apply Hk.
  - cbn [all_chars] in Hb. apply andb_true_iff in Hb as [Ha Hb].
    rewrite append_cons. cbn [greedy_run]. rewrite Ha.
    destruct (IH Hb (Some a)) as (x & -> & Hx). eauto.
Qed.

Lemma consumed_drop_while p (s : string) : consumed s (drop_while p s) = take_while p s.
Proof.
  transitivity (consumed (take_while p s +:+ drop_while p s) (drop_while p s));
    [by rewrite take_while_drop_while|apply consumed_app].
Qed.

Lemma greedy_run_longest_hit {R} (P : R -> Prop) (p : ascii -> bool) prev (s : string) c
    (k : option ascii -> string -> caps -> option R) :
  (forall prev', exists x, k prev' (drop_while p s) c = Some x /\ P x) ->
  exists x, greedy_run p k prev s c = Some x /\ P x.
Proof.
  intros Hk.
  cut (exists x, greedy_run p k prev (take_while p s +:+ drop_while p s) c = Some x /\ P x);
    [by rewrite take_while_drop_while|].
  apply greedy_run_hit; [apply take_while_all|apply drop_while_no_prefix|exact Hk].
Qed.

(** A greedy star before a pattern that fails wherever the star may
    stop, for a property of the positions that the star keeps. *)
Lemma greedy_run_fails {R} (Q : string -> Prop) (p : ascii -> bool) prev s c
    (k : option ascii -> string -> caps -> option R) :
  (forall a s', p a = true -> Q (String a s') -> Q s') ->
  (forall prev' s' c', Q s' -> k prev' s' c' = None) ->
  Q s -> greedy_run p k prev s c = None.
Proof.
  intros Hstep Hk. revert prev. induction s as [|a s IH]; intros prev Hs.
  - by apply Hk.
  - cbn [greedy_run]. destruct (p a) eqn:Hp; [|by apply Hk].
    rewrite IH by (by eapply Hstep). by apply Hk.
Qed.

(** A lazy star stops at the first position where the rest of the pattern
    matches. *)
Lemma lazy_star_hit {R} (P : R -> Prop) (p : ascii -> bool) (u s : string) c
    (k : option ascii -> string -> caps -> option R) fuel prev :
  (String.length (u +:+ s) < fuel)%nat ->
  all_chars p u = true ->
  (forall u1 a u2 prev' c', u = u1 +:+ String a u2 -> k prev' (String a u2 +:+ s) c' = None) ->
  (forall prev', exists x, k prev' s c = Some x /\ P x) ->
  exists x, star_loop (m R (Chr p)) false k fuel prev (u +:+ s) c = Some x /\ P x.
Proof.
  revert fuel prev. induction u as [|a u IH]; intros fuel prev Hlen Hu Hfail Hk.
  - change ("" +:+ s) with s. destruct fuel as [|fuel]; [lia|].
    cbn [star_loop]. destruct (Hk prev) as (x & -> & Hx). eauto.
  - destruct fuel as [|fuel]; [lia|].
    cbn [all_chars] in Hu. apply andb_true_iff in Hu as [Ha Hu].
    rewrite append_cons. cbn [star_loop].
    rewrite <- append_cons, (Hfail "" a u prev c eq_refl), append_cons.
    rewrite m_Chr, Ha.
    replace (String.length (u +:+ s) <? String.length (String a (u +:+ s)))%nat with true
      by (symmetry; apply Nat.ltb_lt; cbn; lia).
    apply IH; [rewrite append_cons in Hlen; cbn in Hlen; lia|exact Hu| |exact Hk].
    intros u1 a' u2 prev' c' ->. by apply (Hfail (String a u1) a' u2).
Qed.

Lemma suffix_snoc (C0 : string) (a0 : ascii) (u1 : string) (a : ascii) (u2 : string) :
  C0 +:+ String a0 "" = u1 +:+ String a u2 ->
  exists v, String a u2 = v +:+ String a0 "" /\ C0 = u1 +:+ v.
Proof.
  revert C0. induction u1 as [|c u1 IH]; intros C0 H.
  - exists C0. by rewrite H.
  - destruct C0 as [|c' C0].
    + rewrite append_cons in H. change ("" +:+ String a0 "") with (String a0 "") in H.
      injection H as _ H. by destruct u1.
    + rewrite !append_cons in H. injection H as -> H.
      destruct (IH C0 H) as (v & Hv & ->). exists v. by rewrite append_cons.
Qed.

Lemma is_space_around (a : ascii) : is_space a = true -> around_char a = true.
Proof. unfold around_char. intros ->. by rewrite !orb_true_r. Qed.

Lemma capd_hd i s (c : caps) : capd ((i, s) :: c) i = s.
Proof. unfold capd. cbn [cap]. by rewrite Nat.eqb_refl. Qed.

(** The end of a tag, from the space after its content: [\s*], the closing
    delimiter, and the run of the class [around] after it. *)
Lemma tag_end_hit {R} (P : R -> Prop) prev (Y : string) c
    (k : option ascii -> string -> caps -> option R) :
  (forall prev', exists x,
     k prev' (drop_while around_char Y)
       ((6%nat, take_while around_char Y) :: (5%nat, "%>") :: c) = Some x /\ P x) ->
  exists x,
    m R (seq [Star true ws; Group 5 (seq [opt (one_of "-_"); str "%"; chr ">"]);
              Group 6 (Star true around)]) prev (" %>" +:+ Y) c k = Some x /\ P x.
Proof.
  intros Hk. cbn [seq]. rewrite m_Seq. unfold ws at 1. rewrite m_star_greedy_chr.
  apply (greedy_run_hit P is_space prev " " ("%>" +:+ Y)); [reflexivity|reflexivity|].
  intros prev1. rewrite m_Seq, m_Group. unfold opt, one_of. rewrite m_Seq, m_Alt.
  rewrite (m_Chr (fun a => contains (String a "") "-_") prev1 ("%>" +:+ Y) c).
  change ("%>" +:+ Y) with (String "%" (String ">" Y)). cbv beta iota.
  change (contains (String "%" "") "-_") with false. cbv iota.
  rewrite m_Eps. cbv beta. rewrite m_Seq, m_str.
  change (Loader.expect "%" (String "%" (String ">" Y))) with (Some (String ">" Y)). cbv iota beta.
  unfold chr. rewrite m_Chr. change (Ascii.eqb ">" ">") with true. cbv iota beta.
  rewrite m_Group. unfold around. rewrite m_star_greedy_chr.
  fold around_char.
  change (String "%" (String ">" Y)) with ("%>" +:+ Y). rewrite consumed_app.
  apply (greedy_run_longest_hit P). intros prev2. rewrite consumed_drop_while. apply Hk.
Qed.

Lemma m_NegLook {R} r prev s c (k : option ascii -> string -> caps -> option R) :
  m R (NegLook r) prev s c k =
  match m unit r prev s c (fun _ _ _ => Some ()) with
  | Some _ => None
  | None => k prev s c
  end.
Proof. reflexivity. Qed.

(** After the content of a tag the closing delimiter cannot start before
    the content ends. *)
Lemma tag_end_fails {R} prev (v : string) (a0 : ascii) (Y : string) c
    (k : option ascii -> string -> caps -> option R) :
  no_percent (v +:+ String a0 "") = true -> is_space a0 = false ->
  m R (seq [Star true ws; Group 5 (seq [opt (one_of "-_"); str "%"; chr ">"]);
            Group 6 (Star true around)]) prev (v +:+ String a0 (" %>" +:+ Y)) c k = None.
Proof.
  intros Hv Ha0. cbn [seq]. rewrite m_Seq. unfold ws at 1. rewrite m_star_greedy_chr.
  apply (greedy_run_fails
           (fun s' => exists v', s' = v' +:+ String a0 (" %>" +:+ Y) /\
                                 no_percent (v' +:+ String a0 "") = true)).
  - intros a s' Ha (v' & Heq & Hv'). destruct v' as [|a' v'].
    + change ("" +:+ ?x) with x in Heq. injection Heq as -> _. congruence.
    + rewrite append_cons in Heq. injection Heq as -> ->. exists v'. split; [done|].
      rewrite append_cons in Hv'. by apply no_percent_cons in Hv' as [_ ?].
  - intros prev' s' c' (v' & -> & Hv').
    rewrite m_Seq, m_Group. unfold opt, one_of. rewrite m_Seq, m_Alt.
    assert (Hno : forall (k' : option ascii -> string -> caps -> option R) prev2 s2 c2,
              starts_not (Ascii.eqb "%") s2 -> s2 <> "" ->
              m R (Seq (str "%") (chr ">")) prev2 s2 c2 k' = None).
    { intros k' prev2 s2 c2 H1 H2. rewrite m_Seq, m_str. destruct s2 as [|a2 s2]; [done|].
      cbn [Loader.expect]. unfold starts_not in H1. by rewrite H1. }
    assert (Hfirst : forall u, no_percent (u +:+ String a0 "") = true ->
              starts_not (Ascii.eqb "%") (u +:+ String a0 (" %>" +:+ Y)) /\
              u +:+ String a0 (" %>" +:+ Y) <> "").
    { intros [|a u] Hu.
      - change ("" +:+ ?x) with x in *. apply no_percent_cons in Hu as [Hu _].
        split; [|done]. unfold starts_not. by destruct (Ascii.eqb_spec "%" a0).
      - rewrite append_cons in *. apply no_percent_cons in Hu as [Hu _].
        split; [|done]. unfold starts_not. by destruct (Ascii.eqb_spec "%" a). }
    rewrite m_Eps. rewrite (Hno _ prev' _ c'); [|apply Hfirst, Hv'..].
    rewrite m_Chr. destruct v' as [|a' v'].
    + change ("" +:+ ?x) with x. cbv beta iota.
      destruct (contains (String a0 "") "-_"); [|reflexivity].
      by rewrite Hno.
    + rewrite append_cons. cbv beta iota.
      destruct (contains (String a' "") "-_"); [|reflexivity].
      rewrite append_cons in Hv'. apply no_percent_cons in Hv' as [_ Hv'].
      rewrite Hno; [reflexivity|apply Hfirst, Hv'..].
  - by exists v.
Qed.

(** A tag from the space before its content. *)
Lemma tag_rest_hit {R} (P : R -> Prop) prev (C0 : string) (a0 : ascii) (Y : string) c
    (k : option ascii -> string -> caps -> option R) :
  let C := C0 +:+ String a0 "" in
  no_percent C = true ->
  all_chars (fun a => negb (is_line_terminator a)) C = true ->
  starts_not is_space C -> is_space a0 = false ->
  (forall prev',
     exists x, k prev' (drop_while around_char Y)
                 ((6%nat, take_while around_char Y) :: (5%nat, "%>") :: (4%nat, C) :: c) =
               Some x /\ P x) ->
  exists x,
    m R (seq [Star true ws; Group 4 (Star false dot); Star true ws;
              Group 5 (seq [opt (one_of "-_"); str "%"; chr ">"]);
              Group 6 (Star true around)]) prev (" " +:+ C +:+ " %>" +:+ Y) c k = Some x /\ P x.
Proof.
  intros C Hpc Hdot Hfirst Hlast Hk.
  change (seq [Star true ws; Group 4 (Star false dot); Star true ws;
               Group 5 (seq [opt (one_of "-_"); str "%"; chr ">"]);
               Group 6 (Star true around)])
    with (Seq (Star true ws) (Seq (Group 4 (Star false dot))
           (seq [Star true ws; Group 5 (seq [opt (one_of "-_"); str "%"; chr ">"]);
                 Group 6 (Star true around)]))).
  set (tail := seq [Star true ws; Group 5 (seq [opt (one_of "-_"); str "%"; chr ">"]);
                    Group 6 (Star true around)]).
  rewrite m_Seq. unfold ws at 1. rewrite m_star_greedy_chr.
  apply (greedy_run_hit P is_space prev " " (C +:+ " %>" +:+ Y)); [reflexivity| |].
  { subst C. destruct C0; exact Hfirst. }
  intros prev1. rewrite m_Seq, m_Group. unfold dot. cbn [m].
  apply (lazy_star_hit P); [lia|exact Hdot| |].
  - intros u1 a u2 prev' c' Hu.
    destruct (suffix_snoc C0 a0 u1 a u2 Hu) as (v & Hv & HC0).
    rewrite Hv, append_assoc. rewrite append_cons. change ("" +:+ ?x) with x.
    apply tag_end_fails; [|exact Hlast].
    subst C. rewrite HC0, append_assoc in Hpc. by apply all_chars_app_inv in Hpc as [_ ?].
  - intros prev2. rewrite consumed_app. apply tag_end_hit. exact Hk.
Qed.

Lemma consumed_app_drop_while p (x y : string) :
  consumed (x +:+ y) (drop_while p y) = x +:+ take_while p y.
Proof.
  transitivity (consumed ((x +:+ take_while p y) +:+ drop_while p y) (drop_while p y));
    [by rewrite append_assoc, take_while_drop_while|apply consumed_app].
Qed.

(** The tag pattern at a tag: the groups. *)
Lemma tag_hit {R} (P : R -> Prop) prev (b flag C0 : string) (a0 : ascii) (Y : string)
    (k : option ascii -> string -> caps -> option R) :
  let C := C0 +:+ String a0 "" in
  all_chars around_char b = true ->
  flag = "" \/ flag = "=" \/ flag = "-" ->
  no_percent C = true ->
  all_chars (fun a => negb (is_line_terminator a)) C = true ->
  starts_not is_space C -> is_space a0 = false ->
  (forall prev',
     exists x, k prev' (drop_while around_char Y)
                 [(1%nat, b +:+ tag_text flag C +:+ take_while around_char Y);
                  (6%nat, take_while around_char Y); (5%nat, "%>"); (4%nat, C);
                  (3%nat, "<%" +:+ flag); (2%nat, b)] = Some x /\ P x) ->
  exists x, m R (tag_regex "%" false) prev (b +:+ tag_text flag C +:+ Y) [] k = Some x /\ P x.
Proof.
  intros C Hb Hflag Hpc Hdot Hfirst Hlast Hk.
  unfold tag_regex. cbn [seq]. rewrite m_Group.
  lazymatch goal with |- context [m R (Seq _ _) prev _ [] ?kk] => set (k1 := kk) end.
  assert (Hk1 : forall prev' c',
            k1 prev' (drop_while around_char Y) c' =
            k prev' (drop_while around_char Y)
              ((1%nat, b +:+ tag_text flag C +:+ take_while around_char Y) :: c')).
  { intros prev' c'. unfold k1. rewrite <- (append_assoc b), consumed_app_drop_while.
    by rewrite append_assoc. }
  clearbody k1.
  rewrite m_Seq, m_Group. unfold around at 1.
  rewrite m_star_greedy_chr. fold around_char.
  apply (greedy_run_hit P); [exact Hb|reflexivity|].
  intros prev1. rewrite consumed_app.
  rewrite m_Seq, m_Group.
  set (S := " " +:+ C +:+ " %>" +:+ Y).
  lazymatch goal with |- context [m R (Seq _ _) prev1 _ [(2%nat, b)] ?kk] => set (k3 := kk) end.
  assert (Hk3 : forall prev', exists x, k3 prev' S [(2%nat, b)] = Some x /\ P x).
  { intros prev'. unfold k3.
    replace (tag_text flag C +:+ Y) with (("<%" +:+ flag) +:+ S)
      by (unfold tag_text, S; by rewrite !append_assoc).
    rewrite consumed_app. apply (tag_rest_hit P prev' C0 a0 Y); try done.
    intros prev2. rewrite Hk1. apply Hk. }
  clearbody k3.
  replace (tag_text flag C +:+ Y) with ("<%" +:+ flag +:+ S)
    by (unfold tag_text, S; by rewrite !append_assoc).
  change ("<%" +:+ ?x) with (String "<" (String "%" x)).
  rewrite m_Seq. unfold chr at 1.
  rewrite m_Chr. change (Ascii.eqb "<" "<") with true. cbv iota beta.
  rewrite m_Seq, m_str.
  change (Loader.expect "%" (String "%" ?x)) with (Some x). cbv iota beta.
  rewrite m_Seq, m_NegLook, m_str. unfold opt, one_of. 
  destruct Hflag as [->|[->| ->]].
  - change ("" +:+ S) with (String " " (C +:+ " %>" +:+ Y)).
    cbn [Loader.expect]. change (Ascii.eqb "%" " ") with false. cbv iota.
    rewrite m_Alt, m_Chr. cbv beta. change (contains " " "=-_#") with false. cbv iota.
    rewrite m_Eps. apply Hk3.
  - change ("=" +:+ S) with (String "=" S).
    cbn [Loader.expect]. change (Ascii.eqb "%" "=") with false. cbv iota.
    rewrite m_Alt, m_Chr. cbv beta. change (contains "=" "=-_#") with true. cbv iota.
    destruct (Hk3 (Some "="%char)) as (x & -> & Hx). eauto.
  - change ("-" +:+ S) with (String "-" S).
    cbn [Loader.expect]. change (Ascii.eqb "%" "-") with false. cbv iota.
    rewrite m_Alt, m_Chr. cbv beta. change (contains "-" "=-_#") with true. cbv iota.
    destruct (Hk3 (Some "-"%char)) as (x & -> & Hx). eauto.
Qed.

Lemma exec_at_tag (dbg : bool) prev (b flag C0 : string) (a0 : ascii) (Y : string) :
  let C := C0 +:+ String a0 "" in
  all_chars around_char b = true ->
  flag = "" \/ flag = "=" \/ flag = "-" ->
  no_percent C = true ->
  all_chars (fun a => negb (is_line_terminator a)) C = true ->
  starts_not is_space C -> is_space a0 = false ->
  exists x, exec_at (tag_regex "%" dbg) prev (b +:+ tag_text flag C +:+ Y) = Some x /\
            tag_found b flag C Y x.
Proof.
  intros C Hb Hflag Hpc Hdot Hfirst Hlast. unfold exec_at.
  assert (H : exists x,
            m found (tag_regex "%" false) prev (b +:+ tag_text flag C +:+ Y) []
              (fun prev' s' c =>
                 Some (mkFound (consumed (b +:+ tag_text flag C +:+ Y) s') c prev' s')) = Some x /\
            tag_found b flag C Y x).
  { apply (tag_hit (tag_found b flag C Y) prev b flag C0 a0 Y); try done.
    intros prev'. eexists. split; [reflexivity|]. unfold tag_found. cbn [f_match f_rest f_caps].
    rewrite <- (append_assoc b), consumed_app_drop_while. by rewrite append_assoc. }
  destruct dbg; [|exact H].
  change (tag_regex "%" true) with (Alt (tag_regex "%" false) (str esc_n)).
  rewrite m_Alt. destruct H as (x & -> & Hx). eauto.
Qed.

(** Before the tag, the tag pattern fails at every position from which
    the run of the class [around] does not reach the tag. *)
Lemma tag_start_fails {R} prev (v : string) (a1 : ascii) (rest : string) c
    (k : option ascii -> string -> caps -> option R) :
  no_percent (v +:+ String a1 "") = true -> around_char a1 = false ->
  starts_not (Ascii.eqb "%") rest ->
  m R (tag_regex "%" false) prev (v +:+ String a1 rest) c k = None.
Proof.
  intros Hv Ha1 Hrest. unfold tag_regex. cbn [seq]. rewrite m_Group, m_Seq, m_Group.
  unfold around at 1. rewrite m_star_greedy_chr. fold around_char.
  apply (greedy_run_fails
           (fun s' => exists v', s' = v' +:+ String a1 rest /\
                                 no_percent (v' +:+ String a1 "") = true)).
  - intros a s' Ha (v' & Heq & Hv'). destruct v' as [|a' v'].
    + change ("" +:+ ?x) with x in Heq. injection Heq as -> _. congruence.
    + rewrite append_cons in Heq. injection Heq as -> ->. exists v'. split; [done|].
      rewrite append_cons in Hv'. by apply no_percent_cons in Hv' as [_ ?].
  - intros prev' s' c' (v' & -> & Hv').
    rewrite m_Seq, m_Group, m_Seq. unfold chr at 1. rewrite m_Chr.
    assert (Hno : forall (k' : option ascii -> string -> caps -> option R) prev2 s2 c2 r2,
              starts_not (Ascii.eqb "%") s2 ->
              m R (Seq (str "%") r2) prev2 s2 c2 k' = None).
    { intros k' prev2 s2 c2 r2 H1. rewrite m_Seq, m_str. destruct s2 as [|a2 s2]; [done|].
      cbn [Loader.expect]. unfold starts_not in H1. by rewrite H1. }
    destruct v' as [|a' v'].
    + change ("" +:+ ?x) with x. cbv beta iota. destruct (Ascii.eqb "<" a1); [|reflexivity].
      by apply Hno.
    + rewrite append_cons. cbv beta iota. destruct (Ascii.eqb "<" a'); [|reflexivity].
      apply Hno. rewrite append_cons in Hv'. apply no_percent_cons in Hv' as [_ Hv'].
      destruct v' as [|a'' v'].
      * change ("" +:+ ?x) with x in *. apply no_percent_cons in Hv' as [Hv' _].
        unfold starts_not. by destruct (Ascii.eqb_spec "%" a1).
      * rewrite append_cons in *. apply no_percent_cons in Hv' as [Hv' _].
        unfold starts_not. by destruct (Ascii.eqb_spec "%" a'').
  - by exists v.
Qed.

Lemma ends_clear_tail a (s : string) : ends_clear (String a s) -> s <> "" -> ends_clear s.
Proof.
  intros [?|(v & a1 & Heq & Ha1)] Hs; [done|]. right. destruct v as [|a' v].
  - change ("" +:+ ?x) with x in Heq. injection Heq as _ ->. done.
  - rewrite append_cons in Heq. injection Heq as _ ->. eauto.
Qed.

Lemma tag_text_start (b flag C Y : string) :
  all_chars around_char b = true ->
  starts_not (Ascii.eqb "%") (b +:+ tag_text flag C +:+ Y).
Proof.
  intros Hb. destruct b as [|a b]; [reflexivity|].
  rewrite append_cons. unfold starts_not. cbn [all_chars] in Hb.
  apply andb_true_iff in Hb as [Ha _].
  destruct (Ascii.eqb_spec "%" a) as [<-|]; [discriminate Ha|done].
Qed.

(** The search for the tag pattern in a text that ends outside the class
    [around], followed by a tag: an escaped line feed of the text, or else
    the tag. *)
Lemma escaped_newlines_skip (a : ascii) (s : string) :
  Loader.expect esc_n (String a s) = None ->
  escaped_newlines (String a s) = escaped_newlines s.
Proof.
  intros E. destruct s as [|b s]; [reflexivity|]. cbn [escaped_newlines].
  cbn [Loader.expect esc_n] in E.
  destruct (Ascii.eqb BS a); [|reflexivity]. by destruct (Ascii.eqb "n" b).
Qed.

Lemma expect_esc_n_app (a b : ascii) (s t : string) :
  Loader.expect esc_n (String a (String b s +:+ t)) = None ->
  Loader.expect esc_n (String a (String b s)) = None.
Proof.
  rewrite append_cons. cbn [Loader.expect esc_n].
  destruct (Ascii.eqb BS a); [|done]. by destruct (Ascii.eqb "n" b).
Qed.

Lemma search_before_tag prev (X b flag C0 : string) (a0 : ascii) (Y : string) :
  let C := C0 +:+ String a0 "" in
  no_percent X = true -> ends_clear X ->
  all_chars around_char b = true ->
  flag = "" \/ flag = "=" \/ flag = "-" ->
  no_percent C = true ->
  all_chars (fun a => negb (is_line_terminator a)) C = true ->
  starts_not is_space C -> is_space a0 = false ->
  exists sk x,
    search (tag_regex "%" true) prev (X +:+ b +:+ tag_text flag C +:+ Y) = Some (sk, x) /\
    ((exists X', X = sk +:+ esc_n +:+ X' /\ f_match x = esc_n /\
                 f_rest x = X' +:+ b +:+ tag_text flag C +:+ Y /\
                 no_percent X' = true /\ ends_clear X' /\
                 escaped_newlines X = S (escaped_newlines X')) \/
     (sk = X /\ tag_found b flag C Y x /\ escaped_newlines X = O)).
Proof.
  intros C HX Hend Hb Hflag Hpc Hdot Hfirst Hlast.
  revert prev. induction X as [|a X IH]; intros prev.
  - change ("" +:+ ?x) with x.
    destruct (exec_at_tag true prev b flag C0 a0 Y) as (x & Hx & Hf); try done.
    fold C in Hx, Hf. exists "", x. rewrite (search_here _ _ _ _ Hx). split; [reflexivity|]. by right.
  - rewrite append_cons. cbn [search].
    assert (Htag : exec_at (tag_regex "%" true) prev (String a (X +:+ b +:+ tag_text flag C +:+ Y)) =
                   exec_at (str esc_n) prev (String a (X +:+ b +:+ tag_text flag C +:+ Y))).
    { unfold exec_at. change (tag_regex "%" true) with (Alt (tag_regex "%" false) (str esc_n)).
      rewrite m_Alt. destruct Hend as [?|(v & a1 & Heq & Ha1)]; [done|].
      rewrite <- append_cons, Heq, append_assoc, append_cons. change ("" +:+ ?x) with x.
      rewrite tag_start_fails; [reflexivity|by rewrite <- Heq|exact Ha1|by apply tag_text_start]. }
    rewrite Htag, exec_at_str. clear Htag.
    destruct (Loader.expect esc_n (String a (X +:+ b +:+ tag_text flag C +:+ Y))) as [rest|] eqn:E.
    + (* an escaped line feed of the text *)
      cbn [Loader.expect esc_n] in E. destruct (Ascii.eqb_spec BS a) as [<-|]; [|done].
      destruct X as [|a' X].
      { destruct Hend as [?|(v & a1 & Heq & Ha1)]; [done|]. destruct v as [|? v].
        - change ("" +:+ ?x) with x in Heq. injection Heq as <-. done.
        - rewrite append_cons in Heq. injection Heq as _ Heq. by destruct v. }
      rewrite append_cons in E. destruct (Ascii.eqb_spec "n" a') as [<-|]; [|done].
      injection E as <-.
      eexists "", _. split; [reflexivity|]. left. exists X.
      apply no_percent_cons in HX as [_ HX]. apply no_percent_cons in HX as [_ HX].
      repeat split; try done.
      destruct X as [|a'' X].
      { destruct Hend as [?|(v & a1 & Heq & Ha1)]; [done|]. exfalso.
        destruct v as [|? v]; [done|]. rewrite append_cons in Heq. injection Heq as _ Heq.
        destruct v as [|? v].
        - change ("" +:+ ?x) with x in Heq. injection Heq as <-. done.
        - rewrite append_cons in Heq. injection Heq as _ Heq. by destruct v. }
      apply (ends_clear_tail "n"); [|done]. by apply (ends_clear_tail BS).
    + apply no_percent_cons in HX as [_ HX].
      destruct X as [|a' X].
      * change ("" +:+ ?x) with x in *.
        destruct (exec_at_tag true (Some a) b flag C0 a0 Y) as (x & Hx & Hf); try done.
        fold C in Hx, Hf. rewrite (search_here _ _ _ _ Hx). exists (String a ""), x.
        split; [reflexivity|]. by right.
      * apply expect_esc_n_app, escaped_newlines_skip in E.
        destruct (IH HX (ends_clear_tail _ _ Hend ltac:(done)) (Some a))
          as (sk & x & -> & [(X' & HX1 & Hm & Hr & HX' & He' & Hn)|(-> & Hf & Hn)]).
        -- exists (String a sk), x. split; [reflexivity|]. left. exists X'.
           rewrite E, Hn, HX1. by rewrite append_cons.
        -- exists (String a (String a' X)), x. split; [reflexivity|]. right.
           by rewrite E, Hn.
Qed.

Lemma scan_step n r prev s sk x :
  search r prev s = Some (sk, x) -> f_match x <> "" ->
  scan (S n) r prev s = Lit sk :: Hit x :: scan n r (f_prev x) (f_rest x).
Proof. intros Hs Hm. cbn [scan]. rewrite Hs. by destruct (f_match x). Qed.

Lemma tag_text_not_newline (b flag C after : string) :
  String.eqb (b +:+ tag_text flag C +:+ after) esc_n = false.
Proof.
  apply String.eqb_neq. intros H.
  assert (Hp : no_percent (b +:+ tag_text flag C +:+ after) = true) by (by rewrite H).
  apply all_chars_app_inv in Hp as [_ Hp]. apply all_chars_app_inv in Hp as [Hp _].
  unfold tag_text in Hp. change ("<%" +:+ ?x) with (String "<" (String "%" x)) in Hp.
  apply no_percent_cons in Hp as [_ Hp]. by apply no_percent_cons in Hp as [Hp _].
Qed.

(** The replacer at a tag, under the default options. *)
Lemma replacer_tag iS iF x line w (b flag C Y : string) :
  tag_found b flag C Y x ->
  flag = "" \/ flag = "=" \/ flag = "-" ->
  search _INCLUDE_DIRECTIVE_REGEXP None (unescape_content C) = None ->
  let N := line + Z.of_nat (count (str esc_n) b) in
  replacer default_opts default_compiledOpts iS iF x line w =
  (Done (emit_tag (co_delimiter default_compiledOpts) true false N ("<%" +:+ flag) b
           (normalize_content (unescape_content C)) (take_while around_char Y),
         N + Z.of_nat (count (str esc_n) C) +
             Z.of_nat (count (str esc_n) (take_while around_char Y))), w).
Proof.
  intros (Hm & Hr & Hc) Hflag Hinc N. subst N.
  unfold replacer. change (Opts.compileDebug default_opts) with true.
  rewrite Hm, tag_text_not_newline, Hc. cbn [andb].
  change (capd _ 2) with b. change (capd _ 3) with ("<%" +:+ flag).
  change (capd _ 4) with C. change (capd _ 5) with "%>".
  change (capd _ 6) with (take_while around_char Y).
  change (truthy (Opts.rmWhitespace default_opts)) with false.
  change (truthy (Opts.client default_opts)) with false.
  cbn [co_includeDirectiveRegexp default_compiledOpts].
  rewrite Hinc. unfold bind, ret.
  destruct Hflag as [-> | [-> | ->]]; reflexivity.
Qed.

(** The global replace on a text with one tag: the line of the tag is the
    line at the start plus the escaped line feeds before the tag. *)
Lemma replace_tags_tag iS iF w n prev
    (X b flag C0 : string) (a0 : ascii) (Y : string) line :
  let C := C0 +:+ String a0 "" in
  (String.length (X +:+ b +:+ tag_text flag C +:+ Y) < n)%nat ->
  no_percent X = true -> ends_clear X ->
  all_chars around_char b = true ->
  flag = "" \/ flag = "=" \/ flag = "-" ->
  no_percent C = true ->
  all_chars (fun a => negb (is_line_terminator a)) C = true ->
  starts_not is_space C -> is_space a0 = false ->
  no_percent Y = true ->
  search _INCLUDE_DIRECTIVE_REGEXP None (unescape_content C) = None ->
  replace_tags (replacer default_opts default_compiledOpts iS iF)
    (scan n (tag_regex "%" true) prev (X +:+ b +:+ tag_text flag C +:+ Y)) line w =
  (Done (X +:+
         emit_tag (co_delimiter default_compiledOpts) true false
           (line + Z.of_nat (escaped_newlines X) + Z.of_nat (count (str esc_n) b))
           ("<%" +:+ flag) b
           (normalize_content (unescape_content C)) (take_while around_char Y) +:+
         drop_while around_char Y), w).
Proof.
  intros C Hlen HX Hend Hb Hflag Hpc Hdot Hfirst Hlast HY Hinc.
  revert prev X line Hlen HX Hend. induction n as [|n IH]; intros prev X line Hlen HX Hend; [lia|].
  destruct (search_before_tag prev X b flag C0 a0 Y HX Hend Hb Hflag Hpc Hdot Hfirst Hlast)
    as (sk & x & Hs & [(X' & -> & Hm & Hr & HX' & He' & Hn)|(-> & Hf & Hn)]); fold C in Hs.
  - rewrite (scan_step _ _ _ _ _ _ Hs) by (by rewrite Hm).
    fold C in Hr. rewrite Hr.
    cbn [replace_tags]. unfold bind at 1. unfold bind at 1.
    assert (Hrep : replacer default_opts default_compiledOpts iS iF x line = ret (esc_n, line + 1)).
    { unfold replacer. change (Opts.compileDebug default_opts) with true.
      rewrite Hm, String.eqb_refl. reflexivity. }
    rewrite Hrep. unfold ret at 1. cbn [fst snd]. unfold bind. rewrite IH; [|  |done|done].
    + unfold ret. rewrite Hn, !append_assoc.
      replace (line + 1 + Z.of_nat (escaped_newlines X'))
        with (line + Z.of_nat (S (escaped_newlines X'))) by lia.
      reflexivity.
    + pose proof (str_length_app (sk +:+ esc_n +:+ X') (b +:+ tag_text flag C +:+ Y)) as E1.
      pose proof (str_length_app sk (esc_n +:+ X')) as E2.
      pose proof (str_length_app esc_n X') as E3.
      pose proof (str_length_app X' (b +:+ tag_text flag C +:+ Y)) as E4.
      change (String.length esc_n) with 2%nat in E3. lia.
  - assert (Hne : f_match x <> "").
    { destruct Hf as (Hm & _). rewrite Hm. intros H. apply (f_equal String.length) in H.
      unfold tag_text in H. rewrite !str_length_app in H. cbn [String.length] in H. lia. }
    rewrite (scan_step _ _ _ _ _ _ Hs Hne).
    cbn [replace_tags]. unfold bind at 1. unfold bind at 1. unfold bind at 1.
    rewrite (replacer_tag iS iF x line w b flag C Y Hf Hflag Hinc).
    cbn [fst snd]. destruct Hf as (_ & -> & _).
    unfold bind. rewrite replace_tags_tagfree; [|reflexivity| |].
    + rewrite Hn, Z.add_0_r. reflexivity.
    + assert (Hd : (String.length (take_while around_char Y +:+ drop_while around_char Y) =
                    String.length Y)%nat) by (by rewrite take_while_drop_while).
      pose proof (str_length_app X (b +:+ tag_text flag C +:+ Y)) as E1.
      pose proof (str_length_app b (tag_text flag C +:+ Y)) as E2.
      pose proof (str_length_app (tag_text flag C) Y) as E3.
      assert (E5 : (0 < String.length (tag_text flag C))%nat).
      { unfold tag_text. change ("<%" +:+ ?x) with (String "<" (String "%" x)).
        cbn [String.length]. lia. }
      rewrite str_length_app in Hd. lia.
    + rewrite <- (take_while_drop_while around_char Y) in HY.
      by apply all_chars_app_inv in HY as [_ ?].
Qed.

(** ** Counting the escaped line feeds *)

Lemma search_esc_n prev (s : string) :
  match search (str esc_n) prev s with
  | Some (sk, x) =>
      f_match x = esc_n /\ escaped_newlines s = S (escaped_newlines (f_rest x)) /\
      (String.length (f_rest x) < String.length s)%nat
  | None => escaped_newlines s = O
  end.
Proof.
  revert prev. induction s as [|a s IH]; intros prev.
  - cbn [search]. by rewrite exec_at_str.
  - cbn [search]. rewrite exec_at_str.
    destruct (Loader.expect esc_n (String a s)) as [rest|] eqn:E.
    + apply expect_Some in E. cbn [f_match f_rest]. split; [done|].
      rewrite E. change (esc_n +:+ rest) with (String BS (String "n" rest)).
      split; [reflexivity|]. cbn [String.length]. lia.
    + rewrite (escaped_newlines_skip _ _ E). specialize (IH (Some a)).
      destruct (search (str esc_n) (Some a) s) as [[sk x]|]; [|done].
      destruct IH as (? & ? & ?). repeat split; try done. cbn [String.length]. lia.
Qed.

Lemma count_esc_n (s : string) : count (str esc_n) s = escaped_newlines s.
Proof.
  unfold count, pieces.
  assert (H : forall n prev t, (String.length t < n)%nat ->
            length (List.filter is_hit (scan n (str esc_n) prev t)) = escaped_newlines t);
    [|apply H; lia].
  induction n as [|n IH]; intros prev t Hlen; [lia|].
  cbn [scan]. pose proof (search_esc_n prev t) as Hs.
  destruct (search (str esc_n) prev t) as [[sk x]|]; [|by rewrite Hs].
  destruct Hs as (Hm & Hn & Hl). rewrite Hm. change esc_n with (String BS "n"). cbv iota.
  cbn [List.filter is_hit length]. rewrite IH by lia. by rewrite Hn.
Qed.

Lemma escaped_newlines_cons (a b : ascii) (s : string) :
  escaped_newlines (String a (String b s)) =
  if Ascii.eqb BS a && Ascii.eqb "n" b then S (escaped_newlines s)
  else escaped_newlines (String b s).
Proof. reflexivity. Qed.

Lemma around_not_BS (a : ascii) : around_char a = false -> Ascii.eqb BS a = false.
Proof. destruct (Ascii.eqb_spec BS a) as [<-|]; [intros H; discriminate H|done]. Qed.

Lemma escaped_newlines_app (X b : string) :
  ends_clear X -> escaped_newlines (X +:+ b) = (escaped_newlines X + escaped_newlines b)%nat.
Proof.
  assert (H : forall n X, (String.length X <= n)%nat -> ends_clear X ->
            escaped_newlines (X +:+ b) = (escaped_newlines X + escaped_newlines b)%nat);
    [|intros; by apply (H (String.length X))].
  clear X. induction n as [|n IH]; intros X Hlen Hend.
  - destruct X; [reflexivity|cbn in Hlen; lia].
  - destruct X as [|a [|a' X]]; [reflexivity| |].
    + destruct Hend as [?|(v & a1 & Heq & Ha1)]; [done|].
      assert (a1 = a) as -> by (destruct v as [|? [|? ?]]; by injection Heq).
      change (String a "" +:+ b) with (String a b).
      destruct b as [|c b]; [reflexivity|]. cbn [escaped_newlines].
      by rewrite (around_not_BS a Ha1).
    + rewrite !append_cons, !escaped_newlines_cons.
      destruct (Ascii.eqb BS a && Ascii.eqb "n" a').
      * rewrite IH; [lia|cbn in Hlen; lia|].
        destruct X as [|a'' X]; [by left|].
        apply (ends_clear_tail a'); [|done]. by apply (ends_clear_tail a).
      * rewrite <- append_cons. apply IH; [cbn in Hlen |- *; lia|].
        by apply (ends_clear_tail a).
Qed.

Lemma escaped_newlines_other (a : ascii) (s : string) :
  Ascii.eqb BS a = false -> escaped_newlines (String a s) = escaped_newlines s.
Proof. intros Ha. destruct s as [|b s]; [reflexivity|]. cbn [escaped_newlines]. by rewrite Ha. Qed.

(** In a text without a backslash the replacer counts the line feeds. *)
Lemma escaped_newlines_lines (pre : string) :
  all_chars (fun a => negb (Ascii.eqb a BS)) pre = true ->
  S (escaped_newlines (subst_chars escape_template_char pre)) = length (split_on LF pre).
Proof.
  induction pre as [|c pre IH]; [reflexivity|]. cbn [all_chars subst_chars split_on].
  intros [Hc Hp]%andb_true_iff. apply negb_true_iff in Hc. specialize (IH Hp).
  unfold escape_template_char at 1. rewrite Hc, orb_false_r.
  destruct (Ascii.eqb_spec c SQ) as [->|Hq].
  - change (Ascii.eqb SQ LF) with false. cbv iota.
    change (String BS (String SQ "") +:+ ?x) with (String BS (String SQ x)).
    rewrite escaped_newlines_cons.
    change (Ascii.eqb BS BS && Ascii.eqb "n" SQ) with false. cbv iota.
    rewrite escaped_newlines_other by reflexivity. rewrite IH.
    pose proof (length_split_on LF pre). by destruct (split_on LF pre).
  - destruct (Ascii.eqb_spec c LF) as [->|Hl].
    + change (esc_n +:+ ?x) with (String BS (String "n" x)). rewrite escaped_newlines_cons.
      change (Ascii.eqb BS BS && Ascii.eqb "n" "n") with true. cbv iota. cbn [length].
      by rewrite IH.
    + destruct (Ascii.eqb_spec c CR) as [->|Hr].
      * change (esc_r +:+ ?x) with (String BS (String "r" x)). rewrite escaped_newlines_cons.
        change (Ascii.eqb BS BS && Ascii.eqb "n" "r") with false. cbv iota.
        rewrite escaped_newlines_other by reflexivity. rewrite IH.
        pose proof (length_split_on LF pre). by destruct (split_on LF pre).
      * change (String c "" +:+ ?x) with (String c x).
        rewrite escaped_newlines_other
          by (destruct (Ascii.eqb_spec BS c) as [<-|]; [by rewrite Ascii.eqb_refl in Hc|done]).
        rewrite IH. pose proof (length_split_on LF pre). by destruct (split_on LF pre).
Qed.

(** ** Line numbers in the program *)

Lemma pretty_N_char_digit (d : N) :
  (d < 10)%N ->
  Loader.is_digit (pretty_N_char d) = true /\
  Z.of_nat (nat_of_ascii (pretty_N_char d) - 48) = Z.of_N d.
Proof.
  intros Hd.
  assert (H : (d = 0 \/ d = 1 \/ d = 2 \/ d = 3 \/ d = 4 \/ d = 5 \/ d = 6 \/ d = 7 \/
               d = 8 \/ d = 9)%N) by lia.
  repeat (destruct H as [->|H]; [by split|]). subst d. by split.
Qed.

Lemma pretty_N_char_class (q : ascii -> bool) (d : N) :
  all_chars q "0123456789" = true -> q (pretty_N_char d) = true.
Proof.
  cbn [all_chars]. intros H. repeat (apply andb_true_iff in H as [? H]).
  unfold pretty_N_char. by repeat case_match.
Qed.

Lemma pretty_N_go_class (q : ascii -> bool) (x : N) (s : string) :
  all_chars q "0123456789" = true -> all_chars q s = true ->
  all_chars q (pretty_N_go x s) = true.
Proof.
  intros Hq. revert s. induction (N.lt_wf_0 x) as [x _ IH]. intros s Hs.
  destruct (N.eq_dec x 0%N) as [->|Hx]; [by rewrite pretty_N_go_0|].
  rewrite pretty_N_go_step by lia. apply IH; [apply N.div_lt; lia|].
  cbn [all_chars]. by rewrite pretty_N_char_class.
Qed.

Lemma lex_digits_pretty_go (x : N) (s rest : string) :
  Loader.lex_digits (pretty_N_go x s +:+ rest) 0 = Loader.lex_digits (s +:+ rest) (Z.of_N x).
Proof.
  revert s. induction (N.lt_wf_0 x) as [x _ IH]. intros s.
  destruct (N.eq_dec x 0%N) as [->|Hx]; [by rewrite pretty_N_go_0|].
  rewrite pretty_N_go_step by lia. rewrite IH by (apply N.div_lt; lia).
  rewrite append_cons. cbn [Loader.lex_digits].
  destruct (pretty_N_char_digit (x `mod` 10)%N) as [-> ->]; [by apply N.mod_lt|].
  f_equal. pose proof (N.div_mod x 10). lia.
Qed.

Lemma pretty_N_go_first (x : N) (s : string) :
  (0 < x)%N -> exists a t, pretty_N_go x s = String a t /\ Loader.is_digit a = true.
Proof.
  revert s. induction (N.lt_wf_0 x) as [x _ IH]. intros s Hx.
  rewrite pretty_N_go_step by done.
  destruct (N.eq_dec (x `div` 10)%N 0%N) as [->|Hd].
  - rewrite pretty_N_go_0. eexists _, _. split; [reflexivity|].
    by apply pretty_N_char_digit, N.mod_lt.
  - apply IH; [apply N.div_lt; lia|by apply N.neq_0_lt_0].
Qed.

Lemma pretty_Z_pos (n : Z) : 0 < n -> pretty n = pretty_N_go (Z.to_N n) "".
Proof.
  intros Hn. destruct n as [|p|p]; [lia| |lia].
  unfold pretty, pretty_Z, pretty, pretty_positive, pretty, pretty_N.
  by rewrite decide_False.
Qed.

(** The host reads a line number back as the number it stands for. *)
Lemma lex_number_pretty (n : Z) (rest : string) :
  0 < n -> starts_not Loader.is_digit rest ->
  Loader.lex_number (pretty n +:+ rest) = Loader.POk n rest.
Proof.
  intros Hn Hrest. rewrite pretty_Z_pos by done.
  destruct (pretty_N_go_first (Z.to_N n) "") as (a & t & E & Ha); [lia|].
  unfold Loader.lex_number.
  destruct (pretty_N_go (Z.to_N n) "" +:+ rest) as [|a' s'] eqn:E';
    rewrite E, append_cons in E'; [done|].
  injection E' as <- <-. rewrite Ha, <- append_cons, <- E, lex_digits_pretty_go.
  change ("" +:+ rest) with rest.
  replace (Z.of_N (Z.to_N n)) with n by lia.
  destruct rest as [|b rest]; [reflexivity|]. cbn [Loader.lex_digits].
  unfold starts_not in Hrest. by rewrite Hrest.
Qed.

Lemma pretty_no_percent (n : Z) : 0 < n -> no_percent (pretty n) = true.
Proof. intros Hn. rewrite pretty_Z_pos by done. by apply pretty_N_go_class. Qed.

(** ** The content of an output tag *)

Lemma simple_literal_parts (lit : string) :
  simple_literal lit = true ->
  plain_text lit = true /\
  all_chars (fun a => negb (Ascii.eqb a SQ) && negb (Ascii.eqb a BS) &&
                      negb (is_line_terminator a)) lit = true /\
  contains "null" lit = false.
Proof.
  unfold simple_literal. intros [[? ?]%andb_true_iff ?%negb_true_iff]%andb_true_iff. done.
Qed.

Lemma escape_simple (lit : string) :
  all_chars (fun a => negb (Ascii.eqb a SQ) && negb (Ascii.eqb a BS) &&
                      negb (is_line_terminator a)) lit = true ->
  subst_chars escape_template_char lit = lit.
Proof.
  induction lit as [|a lit IH]; [reflexivity|]. cbn [all_chars subst_chars].
  intros [Ha Hl]%andb_true_iff. rewrite IH by done.
  apply andb_true_iff in Ha as [[Hq Hb]%andb_true_iff Ht].
  apply negb_true_iff in Hq, Hb, Ht. unfold is_line_terminator in Ht.
  apply orb_false_iff in Ht as [Hlf Hcr].
  unfold escape_template_char. by rewrite Hq, Hb, Hlf, Hcr.
Qed.

Lemma escape_quoted (lit : string) :
  all_chars (fun a => negb (Ascii.eqb a SQ) && negb (Ascii.eqb a BS) &&
                      negb (is_line_terminator a)) lit = true ->
  subst_chars escape_template_char (quoted lit) =
  String BS (String SQ (lit +:+ String BS "")) +:+ String SQ "".
Proof.
  intros Hl. unfold quoted. rewrite <- append_cons, subst_chars_app.
  cbn [subst_chars]. rewrite (escape_simple lit Hl).
  change (escape_template_char SQ) with (String BS (String SQ "")).
  rewrite !append_cons, !append_assoc. reflexivity.
Qed.

Lemma starts_with_snoc (p s : string) (c : ascii) :
  all_chars (fun a => negb (Ascii.eqb a c)) p = true ->
  starts_with p (s +:+ String c "") = starts_with p s.
Proof.
  revert s. induction p as [|x p IH]; intros s Hp; [reflexivity|].
  cbn [all_chars] in Hp. apply andb_true_iff in Hp as [Hx Hp]. apply negb_true_iff in Hx.
  destruct s as [|a s].
  - change ("" +:+ ?y) with y. cbn [starts_with]. by rewrite Hx.
  - rewrite append_cons. cbn [starts_with]. by rewrite IH.
Qed.

Lemma contains_snoc (p s : string) (c : ascii) :
  p <> "" -> all_chars (fun a => negb (Ascii.eqb a c)) p = true ->
  contains p (s +:+ String c "") = contains p s.
Proof.
  intros Hne Hp. induction s as [|a s IH].
  - change ("" +:+ ?y) with y. destruct p as [|x p]; [done|].
    cbn [all_chars] in Hp. apply andb_true_iff in Hp as [Hx Hp]. apply negb_true_iff in Hx.
    cbn [contains starts_with]. rewrite Hx. by destruct p.
  - rewrite append_cons. cbn [contains]. rewrite IH.
    by rewrite <- append_cons, starts_with_snoc.
Qed.

(** Line 580 leaves a quoted literal alone when [null] does not occur in
    it. *)
Lemma normalize_quoted (lit : string) :
  contains "null" lit = false -> normalize_content (quoted lit) = quoted lit.
Proof.
  intros Hn. rewrite normalize_content_spec. unfold quoted.
  rewrite contains_snoc by done.
  cbn [contains drop_while append]. change (is_space SQ) with false. cbv iota.
  rewrite Hn. reflexivity.
Qed.

Lemma search_bol_later r (a : ascii) (s : string) :
  search (Seq (Bol false) r) (Some a) s = None.
Proof.
  revert a. induction s as [|b s IH]; intros a; [reflexivity|].
  cbn [search]. unfold exec_at. rewrite m_Seq, m_Bol. cbn [at_bol andb]. by rewrite IH.
Qed.

(** A quoted literal is no include directive. *)
Lemma search_include_quoted (lit : string) :
  search _INCLUDE_DIRECTIVE_REGEXP None (quoted lit) = None.
Proof.
  unfold quoted. rewrite append_cons. unfold _INCLUDE_DIRECTIVE_REGEXP. cbn [seq search].
  rewrite search_bol_later.
  unfold exec_at. rewrite m_Seq, m_Bol. cbn [at_bol]. rewrite m_Seq. unfold ws at 1.
  rewrite m_star_greedy_chr. cbn [greedy_run]. change (is_space SQ) with false. cbv iota.
  rewrite m_Seq, m_str. reflexivity.
Qed.

(** [/;\s*$/] finds nothing in a text that ends with a quote. *)
Lemma search_semicolon_quoted prev (s : string) :
  search trailing_semicolon prev (s +:+ String SQ "") = None.
Proof.
  assert (Hno : forall prev' s', exec_at trailing_semicolon prev' (s' +:+ String SQ "") = None).
  { intros prev' s'. unfold exec_at, trailing_semicolon. cbn [seq]. rewrite m_Seq.
    unfold chr. rewrite m_Chr. destruct s' as [|a s'].
    - reflexivity.
    - rewrite append_cons. destruct (Ascii.eqb ";" a); [|reflexivity].
      rewrite m_Seq. unfold ws. rewrite m_star_greedy_chr.
      apply (greedy_run_fails (fun t => exists u, t = u +:+ String SQ "")); [| |by exists s'].
      + intros b t Hb (u & Hu). destruct u as [|b' u].
        * change ("" +:+ ?y) with y in Hu. by injection Hu as -> _.
        * rewrite append_cons in Hu. injection Hu as _ ->. by exists u.
      + intros prev2 t c' (u & ->). cbn [m]. by destruct u. }
  revert prev. induction s as [|a s IH]; intros prev.
  - pose proof (Hno prev "") as H1. change ("" +:+ ?y) with y in H1 |- *.
    cbn [search]. rewrite H1. unfold exec_at, trailing_semicolon. cbn [seq]. by rewrite m_Seq.
  - rewrite append_cons. cbn [search]. rewrite <- append_cons, Hno. by rewrite IH.
Qed.

(** What a text is made of: a part that is empty or ends outside the class
    [p], and a run of the class after it. *)
Lemma split_end (s : string) :
  exists X b, s = X +:+ b /\ all_chars around_char b = true /\ ends_clear X.
Proof.
  induction s as [|a s (X & b & -> & Hb & Hend)]; [exists "", ""; repeat split; by left|].
  destruct X as [|a' X].
  - destruct (around_char a) eqn:Ha.
    + exists "", (String a b). repeat split; [|by left]. cbn [all_chars]. by rewrite Ha.
    + exists (String a ""), b. repeat split; [done|]. right. by exists "", a.
  - exists (String a (String a' X)), b. repeat split; [done|].
    destruct Hend as [?|(v & a1 & Hv & Ha1)]; [done|]. right.
    exists (String a v), a1. by rewrite append_cons, <- Hv.
Qed.

Lemma subst_chars_tag_text g (flag C : string) :
  (forall a, contains (String a "") "<%=- >" = true -> g a = String a "") ->
  flag = "" \/ flag = "=" \/ flag = "-" ->
  subst_chars g (tag_text flag C) = tag_text flag (subst_chars g C).
Proof.
  intros Hg Hflag. unfold tag_text. rewrite !subst_chars_app.
  destruct Hflag as [-> | [-> | ->]]; cbn [subst_chars];
    rewrite !Hg by reflexivity; reflexivity.
Qed.

Lemma escape_template_char_tag (a : ascii) :
  contains (String a "") "<%=- >" = true -> escape_template_char a = String a "".
Proof. destruct a as [[] [] [] [] [] [] [] []]; intros H; try discriminate H; reflexivity. Qed.

(** ** Source generation for a text with one tag *)

Lemma all_chars_tag_text (q : ascii -> bool) (flag pre content post : string) :
  all_chars q "<%=- >" = true ->
  flag = "" \/ flag = "=" \/ flag = "-" ->
  all_chars q pre = true -> all_chars q content = true -> all_chars q post = true ->
  all_chars q (pre +:+ tag_text flag content +:+ post) = true.
Proof.
  intros Hq Hflag Hpre Hc Hpost. cbn [all_chars] in Hq.
  repeat (apply andb_true_iff in Hq as [? Hq]).
  unfold tag_text. rewrite !all_chars_app, Hpre, Hpost, Hc.
  destruct Hflag as [-> | [-> | ->]]; cbn [all_chars];
    repeat match goal with H : q _ = true |- _ => rewrite H; clear H end; reflexivity.
Qed.

Lemma escape_no_line_terminator (s : string) :
  all_chars (fun a => negb (is_line_terminator a)) (subst_chars escape_template_char s) = true.
Proof.
  induction s as [|a s IH]; [reflexivity|]. cbn [subst_chars]. rewrite all_chars_app, IH, andb_true_r.
  clear. destruct a as [[] [] [] [] [] [] [] []]; reflexivity.
Qed.

(** The text captured around a tag goes around what is written for it. *)
Lemma emit_tag_around (flag : string) (N : Z) (b content after : string) :
  flag = "" \/ flag = "=" \/ flag = "-" ->
  emit_tag (co_delimiter default_compiledOpts) true false N ("<%" +:+ flag) b content after =
  b +:+ tag_code flag content N +:+ after.
Proof.
  intros Hflag. unfold tag_code, emit_tag.
  cbn [co_delimiter default_compiledOpts d_escaped d_raw d_scriptlet d_whitespaceSlurpingStart
       d_comment].
  destruct Hflag as [-> | [-> | ->]].
  - change (String.eqb ("<%" +:+ "") "<%=") with false.
    change (String.eqb ("<%" +:+ "") "<%-") with false.
    change (String.eqb ("<%" +:+ "") "<%" || String.eqb ("<%" +:+ "") "<%_") with true.
    cbv iota zeta. change ("" +:+ ?x) with x. rewrite !append_assoc. reflexivity.
  - change (String.eqb ("<%" +:+ "=") "<%=") with true. cbv iota.
    change ("" +:+ ?x) with x. rewrite !append_assoc. reflexivity.
  - change (String.eqb ("<%" +:+ "-") "<%=") with false.
    change (String.eqb ("<%" +:+ "-") "<%-") with true. cbv iota zeta.
    change ("" +:+ ?x) with x. rewrite !append_assoc. reflexivity.
Qed.

(** Source generation for a text with one tag, under the default options:
    [content] is the content of the tag as it is written in the template. *)
Lemma generateSource_tag (flag pre content post C0 : string) (a0 : ascii) :
  flag = "" \/ flag = "=" \/ flag = "-" ->
  plain_text pre = true -> plain_text post = true -> plain_text content = true ->
  all_chars (fun a => negb (Ascii.eqb a BS) && negb (Ascii.eqb a CR)) content = true ->
  escape_template false content = C0 +:+ String a0 "" ->
  is_space a0 = false -> starts_not is_space (C0 +:+ String a0 "") ->
  search _INCLUDE_DIRECTIVE_REGEXP None content = None ->
  normalize_content content = content ->
  no_percent (tag_code flag content (tag_line pre)) = true ->
  forall iS iF this t w,
    templates w !! this = Some t ->
    opts t = default_opts ->
    compiledOpts t = Some default_compiledOpts ->
    generateSource_with iS iF this (VStr (pre +:+ tag_text flag content +:+ post)) VUndef w =
    (Done (tag_source flag pre content post), w).
Proof.
  intros Hflag (Hp1 & Hd1 & Hj1)%plain_text_parts (Hp2 & Hd2 & Hj2)%plain_text_parts
    (Hp3 & Hd3 & Hj3)%plain_text_parts Hs3 HC Hlast Hfirst Hinc Hnorm Hcode
    iS iF this t w Ht Ho Hco.
  (* the escaped text *)
  assert (Hesc : escape_template false (pre +:+ tag_text flag content +:+ post) =
                 escape_template false pre +:+ tag_text flag (C0 +:+ String a0 "") +:+
                 escape_template false post).
  { rewrite <- HC. rewrite !escape_template_chars, !subst_chars_app.
    by rewrite subst_chars_tag_text by (auto using escape_template_char_tag). }
  destruct (split_end (escape_template false pre)) as (X & b & HXb & Hb & Hend).
  assert (HpX : no_percent (X +:+ b) = true)
    by (rewrite <- HXb; by apply escape_template_no_percent).
  apply all_chars_app_inv in HpX as [HpX _].
  assert (Hun : unescape_content (C0 +:+ String a0 "") = content)
    by (rewrite <- HC; by apply unescape_escape_content).
  assert (HpC : no_percent (C0 +:+ String a0 "") = true)
    by (rewrite <- HC; by apply escape_template_no_percent).
  assert (HdotC : all_chars (fun a => negb (is_line_terminator a)) (C0 +:+ String a0 "") = true)
    by (rewrite <- HC, escape_template_chars; apply escape_no_line_terminator).
  assert (Hline : 1 + Z.of_nat (escaped_newlines X) + Z.of_nat (count (str esc_n) b) =
                  tag_line pre).
  { unfold tag_line. rewrite HXb, escaped_newlines_app, count_esc_n by done. lia. }
  unfold generateSource_with, bind at 1, this_template. rewrite Ht, Hco, Ho.
  cbn [json_stringify].
  change (Opts.compileDebug default_opts) with true.
  change (truthy (Opts.rmWhitespace default_opts)) with false.
  cbv iota.
  set (P := replace_first (str "__filename__") (expand 0 "undefined") (co_prepended default_compiledOpts)).
  vm_compute in P. subst P.
  unfold replace_first.
  set (S := search (str "__template__") None _). vm_compute in S. subst S. cbv iota beta.
  cbn [f_rest].
  rewrite expand_no_dollar
    by (apply json_quote_no_dollar; by apply all_chars_tag_text).
  rewrite Hesc, HXb, !append_assoc.
  unfold pieces. cbn [co_regex default_compiledOpts].
  unfold bind.
  rewrite replace_tags_tag; try done; [|lia|by apply escape_template_no_percent|by rewrite Hun].
  rewrite Hline, Hun, Hnorm, emit_tag_around by done.
  cbn [co_literalRegex co_appended default_compiledOpts].
  assert (Hbody : X +:+ (b +:+ tag_code flag content (tag_line pre) +:+
                         take_while around_char (escape_template false post)) +:+
                  drop_while around_char (escape_template false post) =
                  escape_template false pre +:+ tag_code flag content (tag_line pre) +:+
                  escape_template false post).
  { by rewrite HXb, !append_assoc, take_while_drop_while. }
  rewrite Hbody.
  rewrite (replace_all_none _ (fun a => negb (Ascii.eqb a "%"))).
  - unfold ret, tag_source, program_source, program_tail. rewrite !append_assoc. reflexivity.
  - intros; by apply literal_no_percent.
  - fold (no_percent (escape_template false pre +:+ tag_code flag content (tag_line pre) +:+
                      escape_template false post)).
    unfold no_percent. rewrite !all_chars_app.
    fold (no_percent (escape_template false pre)). fold (no_percent (escape_template false post)).
    fold (no_percent (tag_code flag content (tag_line pre))).
    by rewrite !escape_template_no_percent, Hcode.
Qed.

(** ** The program loader on a program with one tag *)

Lemma pexpect_app (lit s : string) : Loader.pexpect lit (lit +:+ s) = Loader.POk () s.
Proof. unfold Loader.pexpect. by rewrite expect_app. Qed.

Lemma pexpect_quote (s : string) :
  Loader.pexpect (String SQ "") (String SQ s) = Loader.POk () s.
Proof. unfold Loader.pexpect. cbn [Loader.expect]. by rewrite Ascii.eqb_refl. Qed.

Lemma parse_expr_quoted (f : nat) (lit rest : string) :
  all_chars (fun a => negb (Ascii.eqb a SQ) && negb (Ascii.eqb a BS) &&
                      negb (is_line_terminator a)) lit = true ->
  Loader.parse_expr (S f) (quoted lit +:+ rest) = Loader.POk (Loader.EStr lit) rest.
Proof.
  intros Hl. unfold quoted. rewrite append_assoc, append_cons. cbn [Loader.parse_expr].
  rewrite Ascii.eqb_refl. change (String SQ "" +:+ rest) with (String SQ rest).
  rewrite <- (escape_simple lit Hl) at 1. by rewrite lex_string_escaped.
Qed.

Lemma parse_operand_output (escaped : bool) (f : nat) (lit : string) (N : Z) (rest : string) :
  all_chars (fun a => negb (Ascii.eqb a SQ) && negb (Ascii.eqb a BS) &&
                      negb (is_line_terminator a)) lit = true ->
  0 < N ->
  Loader.parse_operand true (S f) (operand_source escaped (quoted lit) N +:+ rest) =
  Loader.POk (output_item escaped lit N) rest.
Proof.
  intros Hl HN. unfold operand_source, Loader.parse_operand, output_item. destruct escaped.
  - rewrite !append_assoc, expect_app, parse_expr_quoted by done. cbn [Loader.pbind].
    change (", __line = " +:+ ?x) with (", " +:+ "__line = " +:+ x).
    rewrite pexpect_app. cbn [Loader.pbind]. unfold Loader.parse_line.
    rewrite pexpect_app. cbn [Loader.pbind]. rewrite lex_number_pretty by done.
    cbn [Loader.pbind]. change (Loader.pexpect "" ?x) with (Loader.POk () x). cbn [Loader.pbind].
    by rewrite pexpect_app.
  - rewrite !append_assoc.
    change (Loader.expect "escape(" ("(__line = " +:+ ?x)) with (@None string). cbv iota.
    change ("(__line = " +:+ ?x) with ("(" +:+ "__line = " +:+ x).
    rewrite pexpect_app. cbn [Loader.pbind]. unfold Loader.parse_line.
    rewrite pexpect_app. cbn [Loader.pbind]. rewrite lex_number_pretty by done.
    cbn [Loader.pbind]. rewrite pexpect_app. cbn [Loader.pbind].
    rewrite parse_expr_quoted by done. cbn [Loader.pbind].
    by rewrite pexpect_app.
Qed.

Lemma parse_concat_text (f : nat) (text rest : string) :
  Loader.expect " + " rest = None ->
  Loader.parse_concat true (S f) (String SQ (escape_template false text +:+ String SQ rest)) =
  Loader.POk [Loader.IText text] rest.
Proof.
  intros Hrest. rewrite escape_template_chars. cbn [Loader.parse_concat].
  rewrite pexpect_quote. cbn [Loader.pbind]. rewrite lex_string_escaped. cbn [Loader.pbind].
  by rewrite Hrest.
Qed.

Lemma parse_concat_output (escaped : bool) (f : nat) (pre lit post : string) (N : Z) (tail : string) :
  all_chars (fun a => negb (Ascii.eqb a SQ) && negb (Ascii.eqb a BS) &&
                      negb (is_line_terminator a)) lit = true ->
  0 < N -> Loader.expect " + " tail = None ->
  Loader.parse_concat true (S (S f))
    (String SQ (escape_template false pre +:+ "' + " +:+ operand_source escaped (quoted lit) N +:+
                " + '" +:+ escape_template false post +:+ String SQ tail)) =
  Loader.POk [Loader.IText pre; output_item escaped lit N; Loader.IText post] tail.
Proof.
  intros Hl HN Htail. rewrite (escape_template_chars pre).
  change (Loader.parse_concat true (S (S f)) ?s) with
    (Loader.pbind (Loader.pexpect (String SQ "") s) (fun _ rest =>
     Loader.pbind (Loader.lex_string SQ rest) (fun t rest =>
       match Loader.expect " + " rest with
       | Some s1 =>
           Loader.pbind (Loader.parse_operand true (S f) s1) (fun op rest =>
           Loader.pbind (Loader.pexpect " + " rest) (fun _ rest =>
           Loader.pbind (Loader.parse_concat true (S f) rest) (fun items rest =>
             Loader.POk (Loader.IText t :: op :: items) rest)))
       | None => Loader.POk [Loader.IText t] rest
       end))).
  rewrite pexpect_quote. cbn [Loader.pbind].
  change ("' + " +:+ ?x) with (String SQ (" + " +:+ x)).
  rewrite lex_string_escaped. cbn [Loader.pbind]. rewrite expect_app.
  rewrite parse_operand_output by done. cbn [Loader.pbind].
  change (" + '" +:+ ?x) with (" + " +:+ String SQ x).
  rewrite pexpect_app. cbn [Loader.pbind].
  by rewrite parse_concat_text.
Qed.

(** A scriptlet that throws, with the text after it. *)
Lemma parse_scriptlets_throw (f : nat) (msg post : string) (N : Z) :
  all_chars (fun a => negb (Ascii.eqb a SQ) && negb (Ascii.eqb a BS) &&
                      negb (is_line_terminator a)) msg = true ->
  0 < N ->
  Loader.parse_scriptlets true (S (S f))
    (";" +:+ nl +:+ "__line = " +:+ pretty N +:+ ";" +:+ throw_statement msg +:+ ";" +:+ nl +:+
     "__output += '" +:+ escape_template false post +:+ String SQ program_tail) =
  Loader.POk [Loader.IScriptlet (Some N) (Loader.SThrow (Loader.EStr msg)); Loader.IText post]
             program_tail.
Proof.
  intros Hm HN.
  change (Loader.parse_scriptlets true (S (S f)) ?s) with
    (match Loader.expect (";" +:+ nl) s with
     | Some s1 =>
         Loader.pbind (Loader.parse_line true ";" s1) (fun line rest =>
         Loader.pbind (Loader.parse_stmt (S f) rest) (fun st rest =>
         Loader.pbind (Loader.pexpect (";" +:+ nl +:+ "__output += ") rest) (fun _ rest =>
         Loader.pbind (Loader.parse_concat true (S f) rest) (fun items rest =>
         Loader.pbind (Loader.parse_scriptlets true (S f) rest) (fun more rest =>
           Loader.POk (Loader.IScriptlet line st :: items ++ more) rest)))))
     | None => Loader.POk [] (s : string)
     end).
  change (";" +:+ nl +:+ ?x) with ((";" +:+ nl) +:+ x) at 1.
  rewrite expect_app. unfold Loader.parse_line.
  rewrite pexpect_app. cbn [Loader.pbind]. rewrite lex_number_pretty by done.
  cbn [Loader.pbind]. rewrite pexpect_app. cbn [Loader.pbind].
  unfold Loader.parse_stmt, throw_statement. rewrite !append_assoc.
  change (Loader.expect (";" +:+ nl +:+ "__output += ") ("throw new Error(" +:+ ?x))
    with (@None string). cbv iota.
  rewrite expect_app, parse_expr_quoted by done. cbn [Loader.pbind].
  rewrite pexpect_app. cbn [Loader.pbind].
  change (";" +:+ nl +:+ "__output += '" +:+ ?x)
    with ((";" +:+ nl +:+ "__output += ") +:+ String SQ x).
  rewrite pexpect_app. cbn [Loader.pbind].
  rewrite parse_concat_text by reflexivity. cbn [Loader.pbind].
  reflexivity.
Qed.

(** The program loader on a program of the default options. *)
Lemma parse_program_body (text body mid : string) (items more : list Loader.item) :
  all_chars json_plain text = true ->
  (forall f, Loader.parse_concat true (S (S f)) (String SQ (body +:+ String SQ program_tail)) =
             Loader.POk items mid) ->
  (forall f, Loader.parse_scriptlets true (S (S f)) mid = Loader.POk more program_tail) ->
  Loader.open_blocks (items ++ more) 0 = Some 0%nat ->
  Loader.parse_program "locals" (program_source text body) =
  Loader.POk (Loader.mkProgram false VUndef (Some text) true (items ++ more)) "".
Proof.
  intros HJ HE HS Hblocks. unfold program_source, json_quote. rewrite !append_assoc.
  set (U4 := body +:+ String SQ program_tail).
  set (U3 := "var __output = '" +:+ U4).
  set (U2 := "with(locals || {}) {" +:+ nl +:+ U3).
  set (U1 := ";" +:+ nl +:+ "try { " +:+ nl +:+ U2).
  set (R4 := json_chars text +:+ dq +:+ U1).
  set (R3 := "var __line = 1, __lines = " +:+ dq +:+ R4).
  set (R1 := "undefined;" +:+ R3).
  change (Loader.parse_program "locals" ("var __filename = " +:+ R1) = 
          Loader.POk (Loader.mkProgram false VUndef (Some text) true (items ++ more)) "").
  unfold Loader.parse_program.
  change (negb (Loader.is_ident "locals")) with false. cbv iota.
  change (Loader.expect Loader.strict_prologue ("var __filename = " +:+ R1)) with (@None string).
  cbv iota.
  change (Loader.pexpect "var __filename = " ("var __filename = " +:+ R1)) with (Loader.POk () R1).
  cbn [Loader.pbind].
  change (Loader.parse_filename R1) with (Loader.POk VUndef (";" +:+ R3)).
  cbn [Loader.pbind].
  change (Loader.pexpect ";" (";" +:+ R3)) with (Loader.POk () R3).
  cbn [Loader.pbind].
  change (Loader.expect Loader.debug_prologue_1 R3) with (Some (dq +:+ R4)).
  cbv iota.
  change (Loader.pexpect dq (dq +:+ R4)) with (Loader.POk () R4).
  cbn [Loader.pbind]. unfold R4 at 1. rewrite lex_json_chars by done. cbn [Loader.pbind].
  change (Loader.pexpect Loader.debug_prologue_2 U1) with (Loader.POk () U2).
  cbn [Loader.pbind].
  change (Loader.expect ("with(" +:+ "locals" +:+ " || {}) {" +:+ nl) U2) with (Some U3).
  cbv iota.
  change (Loader.pexpect "var __output = " U3) with (Loader.POk () (String SQ U4)).
  cbn [Loader.pbind]. cbn [String.length].
  pose proof (HE (String.length U4)) as HE'. fold U4 in HE'. rewrite HE'.
  cbn [Loader.pbind]. rewrite (HS (String.length U4)). cbn [Loader.pbind].
  change ((if true then "}" +:+ nl else "") +:+ (if true then Loader.debug_epilogue else ""))
    with program_tail.
  by rewrite String.eqb_refl, Hblocks.
Qed.

(** ** Compiling and running with no option given *)

Lemma Template_compile_default (text src : string) (p : Loader.program) :
  (forall iS iF w t,
     templates w !! 0%nat = Some t -> opts t = default_opts ->
     compiledOpts t = Some default_compiledOpts ->
     generateSource_with iS iF 0 (VStr text) VUndef w = (Done src, w)) ->
  Loader.parse_program "locals" src = Loader.POk p "" ->
  Template_compile 2 0
    (set_templates
       [{| templateText := VStr text; source := ""; dependencies := [];
           pathStack := [VUndef]; opts := default_opts;
           compiledOpts := None; renderFn := None |}] w0) =
  (Done (FnTemplate 0), compiled_world text src).
Proof.
  intros Hgen Hparse. unfold Template_compile.
  unfold bind at 1, modify at 1.
  unfold bind at 1, this_template at 1.
  cbn [templates set_templates count_compilation lookup list_lookup opts templateText].
  rewrite parseOptions_default.
  unfold bind at 1, update_template at 1, modify at 1.
  cbn [templates set_templates alter list_alter set_compiledOpts templateText source dependencies
       pathStack opts compiledOpts renderFn].
  unfold bind at 1. cbn [generateSource].
  change (Opts.filename default_opts) with VUndef.
  erewrite Hgen; [|reflexivity|reflexivity|reflexivity].
  change (co_globalPrepened default_compiledOpts +:+ src +:+
          co_globalAppended default_compiledOpts) with (src +:+ "").
  rewrite append_nil_r.
  change (Opts.precompile default_opts) with VUndef.
  change (truthy (Opts.client default_opts)) with false.
  change (Opts.localsName default_opts) with (VStr "locals").
  cbv iota.
  unfold bind, update_template, modify, this_template, ret, catch, lift.
  cbn [templates set_templates count_compilation alter list_alter lookup list_lookup
       set_compiledOpts set_source set_renderFn
       templateText source dependencies pathStack opts compiledOpts renderFn].
  unfold sourceToFunc. cbn [to_string]. rewrite Hparse. reflexivity.
Qed.

Lemma compile_default (text src : string) (p : Loader.program) :
  (forall iS iF w t,
     templates w !! 0%nat = Some t -> opts t = default_opts ->
     compiledOpts t = Some default_compiledOpts ->
     generateSource_with iS iF 0 (VStr text) VUndef w = (Done src, w)) ->
  Loader.parse_program "locals" src = Loader.POk p "" ->
  compile 2 (VStr text) (VObj ∅) w0 = (Done (FnTemplate 0), compiled_world text src).
Proof.
  intros Hgen Hparse.
  unfold compile.
  change (scope_compat (VObj ∅)) with (@ret val (VObj ∅)).
  unfold bind at 1, ret at 1.
  change (truthy (VObj ∅) && negb (truthy (get (members (VObj ∅)) "usePages")) &&
          truthy (get (members (VObj ∅)) "cache") && truthy (get (members (VObj ∅)) "filename"))
    with false.
  cbv iota. unfold bind at 1, ret at 1.
  unfold bind at 1, ret at 1.
  unfold bind at 1, new_Template at 1.
  change (templates w0) with (@nil Template). cbn [length app].
  change (get (members (VObj ∅)) "filename") with VUndef.
  change (Template_opts w0 (VObj ∅)) with default_opts.
  unfold bind at 1. rewrite (Template_compile_default text src p Hgen Hparse).
  reflexivity.
Qed.

Lemma call_compiled (text src : string) (p : Loader.program) (data : val) :
  Loader.parse_program "locals" src = Loader.POk p "" ->
  Loader.p_with p = true ->
  shadows (members data) "locals" = false ->
  shadows_globals (members data) p = false ->
  call 2 (FnTemplate 0) (or_else data (VObj ∅)) VUndef None (compiled_world text src) =
  (output <- run_items (call 0) 0 p (VFun (FnHost "escapeXML")) (Some (0%nat, or_else data (VObj ∅)))
               (Loader.p_body p) run_start ;;
   ret (match Loader.p_lines p with Some _ => VStr output | None => VUndef end))
    (compiled_world text src).
Proof.
  intros Hparse Hwith Hd Hg. cbn [call call_with].
  unfold bind at 1, this_template at 1.
  cbn [compiled_world templates lookup list_lookup compiled_template renderFn].
  unfold call_with.
  change (first_param "locals, escape, include, rethrow") with "locals".
  rewrite Hparse. unfold run_program. rewrite Hwith, !members_or_else, Hd, Hg. cbn [orb].
  cbn [opts compiled_template].
  change (Opts.escapeFunction default_opts) with (VFun (FnHost "escapeXML")).
  reflexivity.
Qed.

(** Rendering with no option given, from the program and what the host
    makes of it. *)
Lemma rendered_default (text src : string) (p : Loader.program) (data : val) :
  (forall iS iF w t,
     templates w !! 0%nat = Some t -> opts t = default_opts ->
     compiledOpts t = Some default_compiledOpts ->
     generateSource_with iS iF 0 (VStr text) VUndef w = (Done src, w)) ->
  Loader.parse_program "locals" src = Loader.POk p "" ->
  Loader.p_with p = true ->
  plain_data data = true ->
  shadows_globals (members data) p = false ->
  rendered text data =
  fst ((output <- run_items (call 0) 0 p (VFun (FnHost "escapeXML")) (Some (0%nat, or_else data (VObj ∅)))
                    (Loader.p_body p) run_start ;;
        ret (match Loader.p_lines p with Some _ => VStr output | None => VUndef end))
         (compiled_world text src)).
Proof.
  intros Hgen Hparse Hwith [Hopts Hshadow%negb_true_iff]%andb_true_iff Hg.
  unfold rendered, render, render_opts. cbn [nth length Nat.eqb].
  rewrite cpOptsInData_no_option by (by rewrite members_or_else).
  change (members (or_else VUndef (VObj ∅))) with (∅ : gmap string val).
  unfold bind at 1. rewrite (compile_default text src p Hgen Hparse).
  by rewrite (call_compiled text src p data Hparse Hwith Hshadow Hg).
Qed.

(** ** Output tags *)

Lemma plain_text_quoted (lit : string) : plain_text lit = true -> plain_text (quoted lit) = true.
Proof.
  intros (Hp & Hd & Hj)%plain_text_parts. unfold plain_text, no_percent, no_dollar, quoted in *.
  rewrite !all_chars_app. cbn [all_chars]. by rewrite Hp, Hd, Hj.
Qed.

Lemma tag_line_pos (pre : string) : 0 < tag_line pre.
Proof. unfold tag_line. lia. Qed.

Lemma tag_code_output (escaped : bool) (lit : string) (N : Z) :
  tag_code (if escaped then "=" else "-") (quoted lit) N =
  "' + " +:+ operand_source escaped (quoted lit) N +:+ " + '".
Proof.
  unfold tag_code, emit_tag, operand_source.
  cbn [co_delimiter default_compiledOpts d_escaped d_raw]. destruct escaped.
  - change (String.eqb ("<%" +:+ "=") "<%=") with true. cbv iota.
    change ("" +:+ ?x) with x. rewrite !append_assoc. reflexivity.
  - change (String.eqb ("<%" +:+ "-") "<%=") with false.
    change (String.eqb ("<%" +:+ "-") "<%-") with true. cbv iota zeta.
    unfold replace_first, quoted. rewrite search_semicolon_quoted.
    change ("" +:+ ?x) with x. rewrite !append_assoc. reflexivity.
Qed.

Lemma operand_no_percent (escaped : bool) (lit : string) (N : Z) :
  no_percent lit = true -> 0 < N ->
  no_percent (operand_source escaped (quoted lit) N) = true.
Proof.
  intros Hl HN. pose proof (pretty_no_percent N HN) as Hp. unfold no_percent in *.
  unfold operand_source, quoted. destruct escaped; rewrite !all_chars_app; cbn [all_chars];
    by rewrite Hl, Hp.
Qed.

Lemma simple_no_backslash (lit : string) :
  all_chars (fun a => negb (Ascii.eqb a SQ) && negb (Ascii.eqb a BS) &&
                      negb (is_line_terminator a)) lit = true ->
  all_chars (fun a => negb (Ascii.eqb a BS) && negb (Ascii.eqb a CR)) lit = true.
Proof.
  apply all_chars_impl. intros a [[_ Hb]%andb_true_iff Hl]%andb_true_iff.
  rewrite Hb. unfold is_line_terminator in Hl. by apply negb_true_iff, orb_false_iff in Hl as [_ ->].
Qed.

Lemma output_tag_text (escaped : bool) (pre lit post : string) :
  pre +:+ (if escaped then "<%= '" else "<%- '") +:+ lit +:+ "' %>" +:+ post =
  pre +:+ tag_text (if escaped then "=" else "-") (quoted lit) +:+ post.
Proof.
  unfold tag_text, quoted. destruct escaped; rewrite !append_assoc; reflexivity.
Qed.

Lemma rendered_output_tag (escaped : bool) (pre lit post : string) (data : val) :
  plain_text pre = true -> plain_text post = true -> simple_literal lit = true ->
  plain_data data = true ->
  rendered (pre +:+ tag_text (if escaped then "=" else "-") (quoted lit) +:+ post) data =
  Done (VStr (pre +:+ (if escaped then escape_chars lit else lit) +:+ post)).
Proof.
  intros Hpre Hpost (Hlit & Hs3 & Hn3)%simple_literal_parts Hdata.
  set (flag := if escaped then "=" else "-").
  assert (Hflag : flag = "" \/ flag = "=" \/ flag = "-") by (destruct escaped; auto).
  pose proof Hpre as (_ & _ & Hj1)%plain_text_parts.
  pose proof Hpost as (_ & _ & Hj2)%plain_text_parts.
  pose proof Hlit as (Hp3 & _ & Hj3)%plain_text_parts.
  pose proof (plain_text_quoted lit Hlit) as (_ & _ & HjQ)%plain_text_parts.
  set (N := tag_line pre). pose proof (tag_line_pos pre) as HN. fold N in HN.
  rewrite (rendered_default _ (tag_source flag pre (quoted lit) post)
             (Loader.mkProgram false VUndef
                (Some (pre +:+ tag_text flag (quoted lit) +:+ post)) true
                [Loader.IText pre; output_item escaped lit N; Loader.IText post])).
  - cbn [Loader.p_body Loader.p_lines]. unfold run_start.
    destruct escaped; cbn [run_items output_item protect r_depth r_skip r_output];
      unfold bind, ret, guarded, catch;
      cbn [Loader.p_lines eval_expr]; unfold ret;
      cbn [call_escape escapeXML to_string]; unfold ret; cbv iota beta; cbn [fst];
      change ("" +:+ pre) with pre; rewrite ?append_assoc; reflexivity.
  - intros iS iF w t.
    apply (generateSource_tag flag pre (quoted lit) post
             (String BS (String SQ (lit +:+ String BS ""))) SQ); try done.
    + by apply plain_text_quoted.
    + unfold quoted. rewrite all_chars_app. cbn [all_chars].
      by rewrite (simple_no_backslash lit Hs3).
    + rewrite escape_template_chars. by apply escape_quoted.
    + apply search_include_quoted.
    + by apply normalize_quoted.
    + unfold flag. rewrite tag_code_output. unfold no_percent. rewrite !all_chars_app.
      fold (no_percent (operand_source escaped (quoted lit) (tag_line pre))).
      by rewrite operand_no_percent.
  - unfold tag_source.
    apply (parse_program_body _ _ program_tail
             [Loader.IText pre; output_item escaped lit N; Loader.IText post] []).
    + by apply all_chars_tag_text.
    + intros f. unfold flag. rewrite tag_code_output, !append_assoc.
      by apply parse_concat_output.
    + reflexivity.
    + by destruct escaped.
  - reflexivity.
  - exact Hdata.
  - by destruct escaped.
Qed.

(** X16. Output tags in a text.  A template made of a plain text, an
    output tag whose content is a quoted literal, and another plain text
    renders to the first text, the value of the literal and the second text:
    [<%=] writes the value with the five XML characters escaped, [<%-]
    writes it as it is.  The texts come back in full, also their characters
    next to the tag that the tag pattern takes into its match. *)
Theorem output_tag_renders_its_literal (pre lit post : string) (data : val) :
  plain_text pre = true -> plain_text post = true -> simple_literal lit = true ->
  plain_data data = true ->
  rendered (pre +:+ "<%= '" +:+ lit +:+ "' %>" +:+ post) data =
    Done (VStr (pre +:+ escape_chars lit +:+ post)) /\
  rendered (pre +:+ "<%- '" +:+ lit +:+ "' %>" +:+ post) data =
    Done (VStr (pre +:+ lit +:+ post)).
Proof.
  intros Hpre Hpost Hlit Hdata. split.
  - rewrite (output_tag_text true). by apply (rendered_output_tag true).
  - rewrite (output_tag_text false). by apply (rendered_output_tag false).
Qed.

Lemma output_tag_renders_its_literal_witness :
  rendered ("<p>(" +:+ "<%= '" +:+ "a < b & c" +:+ "' %>" +:+ ")</p>" +:+ nl)
           (VObj {["name" := VStr "x"]}) =
    Done (VStr ("<p>(" +:+ "a &lt; b &amp; c" +:+ ")</p>" +:+ nl)) /\
  rendered ("<p>(" +:+ "<%- '" +:+ "a < b & c" +:+ "' %>" +:+ ")</p>" +:+ nl)
           (VObj {["name" := VStr "x"]}) =
    Done (VStr ("<p>(" +:+ "a < b & c" +:+ ")</p>" +:+ nl)).
Proof.
  apply (output_tag_renders_its_literal "<p>(" "a < b & c" (")</p>" +:+ nl));
    vm_compute; reflexivity.
Defined.

(** ** A scriptlet that throws *)

Lemma plain_text_throw (msg : string) :
  plain_text msg = true -> plain_text (throw_statement msg) = true.
Proof.
  intros (Hp & Hd & Hj)%plain_text_parts.
  unfold plain_text, no_percent, no_dollar, throw_statement, quoted in *.
  rewrite !all_chars_app. cbn [all_chars]. by rewrite Hp, Hd, Hj.
Qed.

Lemma escape_throw (msg : string) :
  all_chars (fun a => negb (Ascii.eqb a SQ) && negb (Ascii.eqb a BS) &&
                      negb (is_line_terminator a)) msg = true ->
  escape_template false (throw_statement msg) =
  ("throw new Error(" +:+ String BS (String SQ (msg +:+ String BS "")) +:+ String SQ "") +:+
  String ")" "".
Proof.
  intros Hm. rewrite escape_template_chars. unfold throw_statement.
  rewrite !subst_chars_app, escape_quoted by done.
  change (subst_chars escape_template_char "throw new Error(") with "throw new Error(".
  change (subst_chars escape_template_char ")") with ")".
  by rewrite !append_assoc.
Qed.

(** A content that does not start with whitespace or with [i] is no
    include directive. *)
Lemma search_include_first (a : ascii) (s : string) :
  is_space a = false -> Ascii.eqb "i" a = false ->
  search _INCLUDE_DIRECTIVE_REGEXP None (String a s) = None.
Proof.
  intros Ha Hi. unfold _INCLUDE_DIRECTIVE_REGEXP. cbn [seq search].
  rewrite search_bol_later.
  unfold exec_at. rewrite m_Seq, m_Bol. cbn [at_bol]. rewrite m_Seq. unfold ws at 1.
  rewrite m_star_greedy_chr. cbn [greedy_run]. rewrite Ha.
  rewrite m_Seq, m_str. cbn [Loader.expect]. by rewrite Hi.
Qed.

Lemma normalize_throw (msg : string) :
  contains "null" msg = false ->
  normalize_content (throw_statement msg) = throw_statement msg.
Proof.
  intros Hn. rewrite normalize_content_spec.
  assert (H1 : starts_with "undefined" (drop_while is_space (throw_statement msg)) = false)
    by reflexivity.
  assert (H2 : contains "null" (throw_statement msg) = contains "null" (quoted msg +:+ ")"))
    by reflexivity.
  rewrite H1, H2. unfold quoted. rewrite !contains_snoc by done.
  cbn [contains starts_with]. change (Ascii.eqb "n" SQ) with false. cbn [andb orb].
  by rewrite Hn.
Qed.

Lemma tag_code_scriptlet (content : string) (N : Z) :
  tag_code "" content N =
  String SQ (";" +:+ nl +:+ "__line = " +:+ pretty N +:+ ";" +:+ content +:+ ";" +:+ nl +:+
             "__output += '").
Proof.
  unfold tag_code, emit_tag.
  cbn [co_delimiter default_compiledOpts d_escaped d_raw d_scriptlet d_whitespaceSlurpingStart].
  change (String.eqb ("<%" +:+ "") "<%=") with false.
  change (String.eqb ("<%" +:+ "") "<%-") with false.
  change (String.eqb ("<%" +:+ "") "<%" || String.eqb ("<%" +:+ "") "<%_") with true.
  cbv iota zeta. change ("" +:+ ?x) with x. rewrite !append_assoc, append_nil_r. reflexivity.
Qed.

Lemma throw_tag_text (pre msg post : string) :
  pre +:+ "<% throw new Error('" +:+ msg +:+ "') %>" +:+ post =
  pre +:+ tag_text "" (throw_statement msg) +:+ post.
Proof. unfold tag_text, throw_statement, quoted. rewrite !append_assoc. reflexivity. Qed.

Lemma rendered_throw (pre msg post : string) (data : val) :
  plain_text pre = true -> plain_text post = true -> simple_literal msg = true ->
  plain_data data = true ->
  members data !! "Error" = None ->
  let text := pre +:+ tag_text "" (throw_statement msg) +:+ post in
  rendered text data =
  Raise (ExnError {| err_name := "Error";
                     err_message := rethrow_message msg text VUndef (tag_line pre);
                     err_path := VUndef |}).
Proof.
  intros Hpre Hpost (Hmsg & Hs3 & Hn3)%simple_literal_parts Hdata HE text.
  pose proof Hpre as (_ & _ & Hj1)%plain_text_parts.
  pose proof Hpost as (_ & _ & Hj2)%plain_text_parts.
  pose proof (plain_text_throw msg Hmsg) as HQ.
  pose proof HQ as (HpQ & _ & HjQ)%plain_text_parts.
  set (N := tag_line pre). pose proof (tag_line_pos pre) as HN. fold N in HN.
  rewrite (rendered_default _ (tag_source "" pre (throw_statement msg) post)
             (Loader.mkProgram false VUndef (Some text) true
                ([Loader.IText pre] ++
                 [Loader.IScriptlet (Some N) (Loader.SThrow (Loader.EStr msg));
                  Loader.IText post]))).
  - unfold run_start. cbn [Loader.p_body Loader.p_lines app run_items protect].
    unfold bind, ret, guarded, catch, exec_stmt. cbn [Loader.p_lines eval_expr].
    unfold bind, ret, raise. reflexivity.
  - intros iS iF w t.
    apply (generateSource_tag "" pre (throw_statement msg) post
             ("throw new Error(" +:+ String BS (String SQ (msg +:+ String BS "")) +:+ String SQ "")
             ")"); try done; auto.
    + unfold throw_statement, quoted. rewrite !all_chars_app. cbn [all_chars].
      by rewrite (simple_no_backslash msg Hs3).
    + by apply escape_throw.
    + by apply search_include_first.
    + by apply normalize_throw.
    + rewrite tag_code_scriptlet. unfold no_percent in *. cbn [all_chars].
      rewrite !all_chars_app. fold (no_percent (pretty (tag_line pre))).
      rewrite pretty_no_percent by done. by rewrite HpQ.
  - unfold tag_source.
    apply (parse_program_body _ _
             (";" +:+ nl +:+ "__line = " +:+ pretty N +:+ ";" +:+ throw_statement msg +:+ ";" +:+
              nl +:+ "__output += '" +:+ escape_template false post +:+ String SQ program_tail)).
    + by apply all_chars_tag_text; auto.
    + intros f. rewrite tag_code_scriptlet, !append_assoc, append_cons, !append_assoc.
      by rewrite parse_concat_text.
    + intros f. by apply parse_scriptlets_throw.
    + reflexivity.
  - reflexivity.
  - exact Hdata.
  - unfold shadows_globals, program_globals.
    cbn [Loader.p_body app existsb throws orb]. by rewrite HE.
Qed.

(** X17. The line of a run-time error.  When a scriptlet throws an
    [Error], the error that the render raises is the one [rethrow] makes for
    the line on which the tag stands: one more than the number of line feeds
    of the text before the tag, when no backslash occurs in that text.  The
    data has no member named [Error]: inside the implicit-scope block the
    program would read that member in the place of the constructor. *)
Theorem scriptlet_error_names_its_line (pre msg post : string) (data : val) :
  plain_text pre = true ->
  all_chars (fun a => negb (Ascii.eqb a BS)) pre = true ->
  plain_text post = true -> simple_literal msg = true ->
  plain_data data = true ->
  members data !! "Error" = None ->
  let text := pre +:+ "<% throw new Error('" +:+ msg +:+ "') %>" +:+ post in
  rendered text data =
  Raise (ExnError {| err_name := "Error";
                     err_message := rethrow_message msg text VUndef
                                      (Z.of_nat (length (split_on LF pre)));
                     err_path := VUndef |}).
Proof.
  intros Hpre Hbs Hpost Hmsg Hdata HE text. subst text.
  rewrite throw_tag_text, (rendered_throw pre msg post data) by done.
  unfold tag_line. rewrite escape_template_chars, <- (escaped_newlines_lines pre Hbs).
  do 4 f_equal. lia.
Qed.

Lemma scriptlet_error_names_its_line_witness :
  rendered ("<ul>" +:+ nl +:+ "<li>" +:+ nl +:+ "<% throw new Error('" +:+ "boom" +:+ "') %>" +:+
            "</li>") VUndef =
  Raise (ExnError {| err_name := "Error";
                     err_message :=
                       "ejs:3" +:+ nl +:+
                       "    1| <ul>" +:+ nl +:+
                       "    2| <li>" +:+ nl +:+
                       " >> 3| <% throw new Error('boom') %></li>" +:+ nl +:+ nl +:+ "boom";
                     err_path := VUndef |}).
Proof.
  apply (scriptlet_error_names_its_line ("<ul>" +:+ nl +:+ "<li>" +:+ nl) "boom" "</li>" VUndef);
    vm_compute; reflexivity.
Defined.
